(** * signalk-mqtt-export: the rule-matching and dispatch engine

    A shallow embedding of [src/index.ts] (the plugin's main module) and of
    the records of [src/types.ts], followed by the properties of the match
    engine, the subscription planner, the change filter, the topic renderer
    and the rule-update route.

    Conventions of the embedding:
    - a JavaScript string is a [string] (a sequence of code units below 256);
    - an optional field ([source?: string]) is an [option]; [None] is
      JavaScript's [undefined];
    - the closure state [state : PluginState] is passed explicitly and
      returned by every function that assigns to it;
    - what a function hands to an external collaborator (the MQTT client,
      the subscription manager, the HTTP response) is returned as data. *)

From Stdlib Require Import ZArith List Bool Ascii String DecimalString Lia.
From stdpp Require Import base option gmap strings.
Import ListNotations.

Local Open Scope string_scope.
Local Open Scope bool_scope.

(** ** JavaScript string primitives used by the plugin *)

Module Js.

(** [s.startsWith(p)] *)
Fixpoint startsWith (s p : string) {struct p} : bool :=
  match p, s with
  | EmptyString, _ => true
  | String _ _, EmptyString => false
  | String c p', String d s' => Ascii.eqb c d && startsWith s' p'
  end.

(** [s.endsWith(suffix)] *)
Fixpoint endsWith (s suffix : string) : bool :=
  String.eqb s suffix
  || match s with
     | EmptyString => false
     | String _ s' => endsWith s' suffix
     end.

(** [s.slice(0, -1)]: all but the last code unit. *)
Fixpoint sliceDropLast (s : string) : string :=
  match s with
  | EmptyString => EmptyString
  | String c s' =>
      match s' with
      | EmptyString => EmptyString
      | String _ _ => String c (sliceDropLast s')
      end
  end.

(** [s.includes(sub)] *)
Fixpoint includes (s sub : string) : bool :=
  startsWith s sub
  || match s with
     | EmptyString => false
     | String _ s' => includes s' sub
     end.

(** [s.split(sep)] for a one-character separator; the empty string splits
    into one empty piece. *)
Fixpoint split (sep : ascii) (s : string) : list string :=
  match s with
  | EmptyString => [EmptyString]
  | String c s' =>
      if Ascii.eqb c sep then EmptyString :: split sep s'
      else match split sep s' with
           | piece :: pieces => String c piece :: pieces
           | [] => [String c EmptyString]
           end
  end.

(** White space and line terminators, as [trim] sees them: TAB, LF, VT,
    FF, CR, SP and the no-break space U+00A0. The others that [trim]
    strips (U+FEFF, U+2028, U+2029 and the space separators from U+1680 on)
    are code units above 255. *)
Definition isWhiteSpace (c : ascii) : bool :=
  let n := nat_of_ascii c in
  (Nat.leb 9 n && Nat.leb n 13) || Nat.eqb n 32 || Nat.eqb n 160.

Fixpoint trimStart (s : string) : string :=
  match s with
  | EmptyString => EmptyString
  | String c s' => if isWhiteSpace c then trimStart s' else s
  end.

Fixpoint trimEnd (s : string) : string :=
  match s with
  | EmptyString => EmptyString
  | String c s' =>
      match trimEnd s' with
      | EmptyString => if isWhiteSpace c then EmptyString else String c EmptyString
      | t => String c t
      end
  end.

(** [s.trim()] *)
Definition trim (s : string) : string := trimEnd (trimStart s).

(** A string in a condition: [""] is falsy. *)
Definition truthy (s : string) : bool := negb (String.eqb s "").

(** An optional string in a condition: [undefined] and [""] are falsy. *)
Definition truthyOpt (o : option string) : bool :=
  match o with
  | Some s => truthy s
  | None => false
  end.

(** [a || b] on optional strings. *)
Definition orElse (a b : option string) : option string :=
  if truthyOpt a then a else b.

(** [a || 'literal'] *)
Definition orDefault (a : option string) (d : string) : string :=
  match a with
  | Some s => if truthy s then s else d
  | None => d
  end.

(** [s.replace(/\./g, '/')] *)
Fixpoint replaceDots (s : string) : string :=
  match s with
  | EmptyString => EmptyString
  | String c s' =>
      String (if Ascii.eqb c "." then "/"%char else c) (replaceDots s')
  end.

(** The expansion of a replacement text by [String.prototype.replace]
    with a string pattern (ECMAScript GetSubstitution, no captures):
    [$$] is a dollar sign, [$&] the matched text, [$`] the text before the
    match, [$'] the text after it; any other [$] stays as it is. *)
Fixpoint getSubstitution (matched before after replacement : string) : string :=
  match replacement with
  | EmptyString => EmptyString
  | String c rest =>
      if Ascii.eqb c "$" then
        match rest with
        | EmptyString => String c EmptyString
        | String d rest' =>
            if Ascii.eqb d "$" then String "$" (getSubstitution matched before after rest')
            else if Ascii.eqb d "&" then matched ++ getSubstitution matched before after rest'
            else if Ascii.eqb d "`" then before ++ getSubstitution matched before after rest'
            else if Ascii.eqb d "'" then after ++ getSubstitution matched before after rest'
            else String c (getSubstitution matched before after rest)
        end
      else String c (getSubstitution matched before after rest)
  end.

(** [s.slice(n)] *)
Fixpoint drop (n : nat) (s : string) : string :=
  match n, s with
  | O, _ => s
  | S _, EmptyString => EmptyString
  | S n', String _ s' => drop n' s'
  end.

(** The replacement of the first occurrence of [pattern] in [s], [before]
    being what precedes [s] in the whole string. *)
Fixpoint replaceFrom (before s pattern replacement : string) : string :=
  if startsWith s pattern then
    let after := drop (String.length pattern) s in
    getSubstitution pattern before after replacement ++ after
  else
    match s with
    | EmptyString => EmptyString
    | String c s' =>
        String c (replaceFrom (before ++ String c EmptyString) s' pattern replacement)
    end.

(** [s.replace(pattern, replacement)] with a string pattern: the first
    occurrence only. *)
Definition replace (s pattern replacement : string) : string :=
  replaceFrom "" s pattern replacement.

End Js.

(** ** JavaScript values carried by a delta ([value: any]) *)

(** A number. A finite non-zero number is [± digits × 10^(exponent - k)],
    [k] being the count of decimal digits of [digits]: the decomposition
    from which Number::toString prints. *)
Inductive JsNumber : Type :=
| NaN
| Infinity (negative : bool)
| Zero
| Finite (negative : bool) (digits : positive) (exponent : Z).

#[warnings="-register-all"] Inductive JsValue : Type :=
| JUndefined
| JNull
| JBool (b : bool)
| JNumber (n : JsNumber)
| JString (s : string)
| JArray (items : list JsValue)
| JObject (properties : list (string * JsValue)).

Module Json.

Definition digitsOf (p : positive) : string :=
  NilEmpty.string_of_uint (Pos.to_uint p).

Fixpoint zeros (n : nat) : string :=
  match n with
  | O => EmptyString
  | S n' => String "0" (zeros n')
  end.

Definition sign (negative : bool) : string :=
  if negative then "-" else "".

(** Number::toString, radix 10. *)
Definition numberToString (x : JsNumber) : string :=
  match x with
  | NaN => "NaN"
  | Infinity negative => sign negative ++ "Infinity"
  | Zero => "0"
  | Finite negative s n =>
      let ds := digitsOf s in
      let k := Z.of_nat (String.length ds) in
      sign negative ++
      (if (k <=? n)%Z && (n <=? 21)%Z then
         ds ++ zeros (Z.to_nat (n - k))
       else if (0 <? n)%Z && (n <=? 21)%Z then
         substring 0 (Z.to_nat n) ds ++ "." ++ Js.drop (Z.to_nat n) ds
       else if (-6 <? n)%Z && (n <=? 0)%Z then
         "0." ++ zeros (Z.to_nat (- n)) ++ ds
       else
         let e := (n - 1)%Z in
         let es := (if (e <? 0)%Z then "-" else "+") ++ digitsOf (Z.to_pos (Z.abs e)) in
         if (k =? 1)%Z then ds ++ "e" ++ es
         else substring 0 1 ds ++ "." ++ Js.drop 1 ds ++ "e" ++ es)
  end.

Definition hexDigit (n : nat) : ascii :=
  nth n ["0"; "1"; "2"; "3"; "4"; "5"; "6"; "7"; "8"; "9";
         "a"; "b"; "c"; "d"; "e"; "f"]%char "0"%char.

(** One code unit inside a JSON string literal (QuoteJSONString). *)
Definition quoteChar (c : ascii) : string :=
  let n := nat_of_ascii c in
  if Nat.eqb n 34 then String "092" (String "034" EmptyString)
  else if Nat.eqb n 92 then String "092" (String "092" EmptyString)
  else if Nat.eqb n 8 then String "092" "b"
  else if Nat.eqb n 9 then String "092" "t"
  else if Nat.eqb n 10 then String "092" "n"
  else if Nat.eqb n 12 then String "092" "f"
  else if Nat.eqb n 13 then String "092" "r"
  else if Nat.ltb n 32 then
    String "092" ("u00" ++ String (hexDigit (Nat.div n 16))
                                (String (hexDigit (Nat.modulo n 16)) EmptyString))
  else String c EmptyString.

Fixpoint quoteBody (s : string) : string :=
  match s with
  | EmptyString => EmptyString
  | String c s' => quoteChar c ++ quoteBody s'
  end.

Definition quote (s : string) : string :=
  String "034" (quoteBody s ++ String "034" EmptyString).

Fixpoint join (sep : string) (parts : list string) : string :=
  match parts with
  | [] => EmptyString
  | [p] => p
  | p :: rest => p ++ sep ++ join sep rest
  end.

(** [JSON.stringify(v)]. [None] is the result [undefined], which is what
    [undefined] gives; as a member of an array [undefined] prints as [null],
    as a property of an object it is left out; NaN and the infinities print
    as [null]. *)
Fixpoint stringify (v : JsValue) : option string :=
  match v with
  | JUndefined => None
  | JNull => Some "null"
  | JBool b => Some (if b then "true" else "false")
  | JNumber n =>
      Some match n with
           | NaN | Infinity _ => "null"
           | _ => numberToString n
           end
  | JString s => Some (quote s)
  | JArray items =>
      Some ("[" ++ join "," (List.map (fun x => match stringify x with
                                                | Some text => text
                                                | None => "null"
                                                end) items) ++ "]")
  | JObject properties =>
      Some ("{" ++ join "," (List.flat_map
                               (fun kv =>
                                  match kv with
                                  | (k, x) =>
                                      match stringify x with
                                      | Some text => [quote k ++ ":" ++ text]
                                      | None => []
                                      end
                                  end) properties) ++ "}")
  end.

(** [typeof v === 'object'] *)
Definition isObject (v : JsValue) : bool :=
  match v with
  | JNull | JArray _ | JObject _ => true
  | _ => false
  end.

(** [String(v)]: an array prints its members separated by commas, [null]
    and [undefined] members as nothing; an object prints as
    [[object Object]]. *)
Fixpoint toString (v : JsValue) : string :=
  match v with
  | JUndefined => "undefined"
  | JNull => "null"
  | JBool b => if b then "true" else "false"
  | JNumber n => numberToString n
  | JString s => s
  | JArray items =>
      join "," (List.map (fun x => match x with
                                   | JUndefined | JNull => ""
                                   | _ => toString x
                                   end) items)
  | JObject _ => "[object Object]"
  end.

(** A result of [JSON.stringify] used as a string. *)
Definition textOf (result : option string) : string :=
  match result with
  | Some text => text
  | None => "undefined"
  end.

(** [typeof v === 'object' ? JSON.stringify(v) : String(v)], the text by
    which the plugin compares and prints values. *)
Definition valueString (v : JsValue) : string :=
  if isObject v then textOf (stringify v) else toString v.

(** [v !== undefined] *)
Definition isDefined (v : JsValue) : bool :=
  match v with
  | JUndefined => false
  | _ => true
  end.

End Json.

(** ** The records of [src/types.ts] *)

(** ['full' | 'value-only'] *)
Inductive PayloadFormat : Type := full | value_only.

Module ExportRule.
(** [sendOnChange] is declared [boolean]; a rule that arrives through the
    rule-update route may lack the field, hence the [option]. *)
Record t : Type := mk {
  id : string;
  name : string;
  context : string;
  path : string;
  source : option string;
  enabled : bool;
  period : Z;
  qos : Z;
  retain : bool;
  payloadFormat : PayloadFormat;
  sendOnChange : option bool;
  topicTemplate : option string;
  excludeMMSI : option string
}.
End ExportRule.

Module SignalKSource.
Record t : Type := mk {
  label : string;
  type : option string;
  bus : option string;
  src : option string
}.
End SignalKSource.

Module SignalKValue.
Record t : Type := mk {
  path : string;
  value : JsValue;
  timestamp : option string
}.
End SignalKValue.

Module SignalKUpdate.
(** [source] and [values] are read behind guards ([update.source?.label],
    [if (!update.values) return]); [dollar_source] is the field [$source]. *)
Record t : Type := mk {
  source : option SignalKSource.t;
  timestamp : string;
  values : option (list SignalKValue.t);
  dollar_source : option string
}.
End SignalKUpdate.

Module SignalKDelta.
(** Both fields are read behind guards ([delta.context || 'vessels.self'],
    [if (!delta.updates ...) return]). *)
Record t : Type := mk {
  context : option string;
  updates : option (list SignalKUpdate.t)
}.
End SignalKDelta.

Module MQTTExportConfig.
Record t : Type := mk {
  enabled : bool;
  mqttBroker : string;
  mqttClientId : string;
  mqttUsername : string;
  mqttPassword : string;
  topicPrefix : string;
  exportRules : list ExportRule.t
}.

Definition withExportRules (c : t) (rules : list ExportRule.t) : t :=
  mk (enabled c) (mqttBroker c) (mqttClientId c) (mqttUsername c)
     (mqttPassword c) (topicPrefix c) rules.
End MQTTExportConfig.

(** One entry of [subscribe: SignalKSubscriptionItem[]]. *)
Record SignalKSubscriptionItem : Type := {
  item_path : string;
  item_period : Z
}.

Record SignalKSubscription : Type := {
  sub_context : string;
  subscribe : list SignalKSubscriptionItem
}.

(** A subscription installed on the subscription manager: the request, and
    the rule array its delta callback closes over
    ([(delta) => handleSignalKData(delta, rules)]). The manager pushes one
    unsubscribe handle per installed subscription into [state.unsubscribes],
    so the list of handles is the list of installed subscriptions. *)
Record InstalledSubscription : Type := {
  request : SignalKSubscription;
  callbackRules : list ExportRule.t
}.

Record MqttClient : Type := { connected : bool }.

(** A JavaScript [Map] with string keys, in insertion order. *)
Module JsMap.
Section WithValue.
Context {V : Type}.

Definition t : Type := list (string * V).

Fixpoint get (m : t) (k : string) : option V :=
  match m with
  | [] => None
  | (k', v) :: m' => if String.eqb k' k then Some v else get m' k
  end.

Definition has (m : t) (k : string) : bool :=
  match get m k with
  | Some _ => true
  | None => false
  end.

(** [m.set(k, v)]: a present key keeps its place. *)
Fixpoint set (m : t) (k : string) (v : V) : t :=
  match m with
  | [] => [(k, v)]
  | (k', v') :: m' =>
      if String.eqb k' k then (k', v) :: m' else (k', v') :: set m' k v
  end.

Definition keys (m : t) : list string := List.map fst m.
Definition size (m : t) : nat := List.length m.
End WithValue.
Arguments t : clear implicits.
End JsMap.

(** [PluginState]. [plugin.config] and [state.currentConfig] are one object
    ([start] assigns the same [config] to both), so the assignment
    [plugin.config.exportRules = newRules] is an update of [currentConfig]. *)
Record PluginState : Type := mkState {
  mqttClient : option MqttClient;
  exportRules : list ExportRule.t;
  activeSubscriptions : JsMap.t (list ExportRule.t);
  lastSentValues : gmap string JsValue;
  currentConfig : option MQTTExportConfig.t;
  unsubscribes : list InstalledSubscription
}.

Definition withLastSentValues (st : PluginState) (m : gmap string JsValue) : PluginState :=
  mkState (mqttClient st) (exportRules st) (activeSubscriptions st) m
          (currentConfig st) (unsubscribes st).

(** [ValueChangeResult] *)
Record ValueChangeResult : Type := {
  hasChanged : bool;
  currentValue : JsValue;
  previousValue : JsValue
}.

(** The arguments of one [mqttClient.publish(topic, payload, {qos, retain})]. *)
Record MqttPublish : Type := {
  topic : string;
  payload : string;
  pub_qos : Z;
  pub_retain : bool
}.

(** ** The match engine: the predicate of [contextRules.find] in
       [handleSignalKData] *)

(** The path check ("Check path match (support wildcards)"). *)
Definition pathMatch (rulePath updatePath : string) : bool :=
  if String.eqb rulePath "*" then true
  else if String.eqb rulePath updatePath then true
  else if Js.endsWith rulePath "*" then
    let prefix := Js.sliceDropLast rulePath in
    Js.startsWith updatePath prefix
  else false.

(** [update.$source || update.source?.label]: the source label of an update. *)
Definition updateSourceLabel (update : SignalKUpdate.t) : option string :=
  Js.orElse (SignalKUpdate.dollar_source update)
            (option_map SignalKSource.label (SignalKUpdate.source update)).

(** [a === b] for a string and a possibly undefined string. *)
Definition strictEq (a : string) (b : option string) : bool :=
  match b with
  | Some s => String.eqb a s
  | None => false
  end.

(** The source check:
    [!r.source || !r.source.trim() || r.source === (update.$source || update.source?.label)]. *)
Definition sourceMatch (r : ExportRule.t) (update : SignalKUpdate.t) : bool :=
  match ExportRule.source r with
  | None => true
  | Some src =>
      negb (Js.truthy src)
      || negb (Js.truthy (Js.trim src))
      || strictEq src (updateSourceLabel update)
  end.

(** The exclusion check ("Check MMSI exclusion list"): [true] when the rule
    is rejected. *)
Definition contextHasExcludedMMSI (r : ExportRule.t) (delta : SignalKDelta.t) : bool :=
  match ExportRule.excludeMMSI r, SignalKDelta.context delta with
  | Some excludeMMSI, Some context =>
      if Js.truthy excludeMMSI && Js.truthy (Js.trim excludeMMSI) && Js.truthy context then
        let excludedMMSIs := List.map Js.trim (Js.split "," excludeMMSI) in
        existsb (fun mmsi => Js.includes context mmsi) excludedMMSIs
      else false
  | _, _ => false
  end.

(** The whole predicate, with its early returns. *)
Definition ruleMatches (delta : SignalKDelta.t) (update : SignalKUpdate.t)
    (valueUpdate : SignalKValue.t) (r : ExportRule.t) : bool :=
  if negb (ExportRule.enabled r) then false
  else if negb (pathMatch (ExportRule.path r) (SignalKValue.path valueUpdate)) then false
  else if negb (sourceMatch r update) then false
  else if contextHasExcludedMMSI r delta then false
  else true.

(** ** The change filter: [checkValueChange] *)

Definition valueKey (context path : string) : string :=
  context ++ ":" ++ path.

(** [state.lastSentValues.get(key)]: an absent key reads as [undefined]. *)
Definition lastSentGet (m : gmap string JsValue) (key : string) : JsValue :=
  default JUndefined (m !! key).

Definition checkValueChange (st : PluginState) (context path : string) (value : JsValue)
  : ValueChangeResult * PluginState :=
  let key := valueKey context path in
  let lastValue := lastSentGet (lastSentValues st) key in
  let currentValueString := Json.valueString value in
  let changed :=
    ({| hasChanged := true; currentValue := value; previousValue := lastValue |},
     withLastSentValues st (<[key := value]> (lastSentValues st))) in
  if Json.isDefined lastValue then
    let lastValueString := Json.valueString lastValue in
    if String.eqb currentValueString lastValueString then
      ({| hasChanged := false; currentValue := value; previousValue := lastValue |}, st)
    else changed
  else changed.

(** ** Topic and payload: the body of [publishToMQTT] *)

(** "Build MQTT topic". *)
Definition buildTopic (st : PluginState) (rule : ExportRule.t) (context path : string) : string :=
  let topic :=
    match currentConfig st with
    | Some config =>
        if Js.truthy (MQTTExportConfig.topicPrefix config)
        then MQTTExportConfig.topicPrefix config ++ "/"
        else ""
    | None => ""
    end in
  match ExportRule.topicTemplate rule with
  | Some topicTemplate =>
      if Js.truthy topicTemplate then
        topic ++ Js.replaceDots
                   (Js.replace (Js.replace topicTemplate "{context}" context) "{path}" path)
      else topic ++ Js.replaceDots (context ++ "/" ++ path)
  | None => topic ++ Js.replaceDots (context ++ "/" ++ path)
  end.

(** A property that is present only when the optional field is. *)
Definition optionalProperty (k : string) (o : option string) : list (string * JsValue) :=
  match o with
  | Some s => [(k, JString s)]
  | None => []
  end.

(** The delta as the object that [JSON.stringify(delta)] prints, with the
    properties in the order of their declaration in [types.ts]: the source,
    a value, an update, the delta. *)
Definition sourceToJs (s : SignalKSource.t) : JsValue :=
  JObject ([("label", JString (SignalKSource.label s))]
           ++ optionalProperty "type" (SignalKSource.type s)
           ++ optionalProperty "bus" (SignalKSource.bus s)
           ++ optionalProperty "src" (SignalKSource.src s)).

Definition valueToJs (v : SignalKValue.t) : JsValue :=
  JObject ([("path", JString (SignalKValue.path v)); ("value", SignalKValue.value v)]
           ++ optionalProperty "timestamp" (SignalKValue.timestamp v)).

Definition updateToJs (u : SignalKUpdate.t) : JsValue :=
  JObject (match SignalKUpdate.source u with
           | Some s => [("source", sourceToJs s)]
           | None => []
           end
           ++ [("timestamp", JString (SignalKUpdate.timestamp u))]
           ++ match SignalKUpdate.values u with
              | Some vs => [("values", JArray (List.map valueToJs vs))]
              | None => []
              end
           ++ optionalProperty "$source" (SignalKUpdate.dollar_source u)).

Definition deltaToJs (d : SignalKDelta.t) : JsValue :=
  JObject (optionalProperty "context" (SignalKDelta.context d)
           ++ match SignalKDelta.updates d with
              | Some us => [("updates", JArray (List.map updateToJs us))]
              | None => []
              end).

(** "Build payload". *)
Definition buildPayload (rule : ExportRule.t) (delta : SignalKDelta.t) (value : JsValue) : string :=
  match ExportRule.payloadFormat rule with
  | value_only => Json.valueString value
  | full => Json.textOf (Json.stringify (deltaToJs delta))
  end.

(** [rule.sendOnChange] in a condition: [undefined] and [false] are falsy. *)
Definition sendOnChangeSet (rule : ExportRule.t) : bool :=
  match ExportRule.sendOnChange rule with
  | Some b => b
  | None => false
  end.

(** The message of the publish call at the end of [publishToMQTT]:
    [rule.qos || 0] and [rule.retain || false] are the fields themselves. *)
Definition buildMessage (st : PluginState) (delta : SignalKDelta.t)
    (rule : ExportRule.t) (context path : string) (value : JsValue) : MqttPublish :=
  {| topic := buildTopic st rule context path;
     payload := buildPayload rule delta value;
     pub_qos := if (ExportRule.qos rule =? 0)%Z then 0%Z else ExportRule.qos rule;
     pub_retain := ExportRule.retain rule || false |}.

(** The publish call itself: [state.mqttClient!.publish(...)] throws on a
    null client, and the [catch] of [publishToMQTT] swallows the error. *)
Definition publishCall (st : PluginState) (m : MqttPublish) : option MqttPublish :=
  match mqttClient st with
  | Some _ => Some m
  | None => None
  end.

(** [publishToMQTT]: the state after the call, and the message handed to
    the MQTT client, if any. *)
Definition publishToMQTT (st : PluginState) (delta : SignalKDelta.t)
    (update : SignalKUpdate.t) (valueUpdate : SignalKValue.t) (rule : ExportRule.t)
  : PluginState * option MqttPublish :=
  let context := Js.orDefault (SignalKDelta.context delta) "vessels.self" in
  let path := SignalKValue.path valueUpdate in
  let value := SignalKValue.value valueUpdate in
  if sendOnChangeSet rule then
    let '(changeResult, st') := checkValueChange st context path value in
    if negb (hasChanged changeResult) then (st', None)
    else (st', publishCall st' (buildMessage st' delta rule context path value))
  else (st, publishCall st (buildMessage st delta rule context path value)).

(** ** [handleSignalKData] *)

(** "Find matching export rule". *)
Definition findRule (delta : SignalKDelta.t) (update : SignalKUpdate.t)
    (valueUpdate : SignalKValue.t) (contextRules : list ExportRule.t) : option ExportRule.t :=
  List.find (ruleMatches delta update valueUpdate) contextRules.

(** The body of [update.values.forEach]. *)
Definition handleValue (delta : SignalKDelta.t) (contextRules : list ExportRule.t)
    (update : SignalKUpdate.t) (acc : PluginState * list MqttPublish)
    (valueUpdate : SignalKValue.t) : PluginState * list MqttPublish :=
  match findRule delta update valueUpdate contextRules with
  | Some rule =>
      let '(st', sent) := publishToMQTT (fst acc) delta update valueUpdate rule in
      (st', (snd acc ++ match sent with Some m => [m] | None => [] end)%list)
  | None => acc
  end.

(** The body of [delta.updates.forEach]. *)
Definition handleUpdate (delta : SignalKDelta.t) (contextRules : list ExportRule.t)
    (acc : PluginState * list MqttPublish) (update : SignalKUpdate.t)
  : PluginState * list MqttPublish :=
  match SignalKUpdate.values update with
  | None => acc
  | Some values => fold_left (handleValue delta contextRules update) values acc
  end.

Definition handleSignalKData (st : PluginState) (delta : SignalKDelta.t)
    (contextRules : list ExportRule.t) : PluginState * list MqttPublish :=
  match SignalKDelta.updates delta, mqttClient st with
  | Some updates, Some client =>
      if connected client then fold_left (handleUpdate delta contextRules) updates (st, [])
      else (st, [])
  | _, _ => (st, [])
  end.

(** ** The subscription planner: [updateSubscriptions] *)

(** [rule.context || 'vessels.self'] *)
Definition ruleContext (rule : ExportRule.t) : string :=
  if Js.truthy (ExportRule.context rule) then ExportRule.context rule else "vessels.self".

(** The body of the grouping loop: create the group on first sight of the
    context, then push the rule onto the group's array. *)
Definition addToGroup (contextGroups : JsMap.t (list ExportRule.t)) (rule : ExportRule.t)
  : JsMap.t (list ExportRule.t) :=
  let context := ruleContext rule in
  let contextGroups :=
    if negb (JsMap.has contextGroups context) then JsMap.set contextGroups context []
    else contextGroups in
  match JsMap.get contextGroups context with
  | Some rules => JsMap.set contextGroups context (rules ++ [rule])%list
  | None => contextGroups
  end.

(** "Group export rules by context for efficient subscriptions". *)
Definition groupByContext (rules : list ExportRule.t) : JsMap.t (list ExportRule.t) :=
  fold_left addToGroup (List.filter ExportRule.enabled rules) [].

(** [{ path: rule.path, period: rule.period || 1000 }] *)
Definition subscriptionItem (rule : ExportRule.t) : SignalKSubscriptionItem :=
  {| item_path := ExportRule.path rule;
     item_period := if (ExportRule.period rule =? 0)%Z then 1000%Z else ExportRule.period rule |}.

Definition subscriptionFor (context : string) (rules : list ExportRule.t) : SignalKSubscription :=
  {| sub_context := context;
     subscribe := List.map subscriptionItem rules |}.

(** The body of [contextGroups.forEach]: install the subscription, record
    the group. *)
Definition installGroup (st : PluginState) (group : string * list ExportRule.t) : PluginState :=
  let '(context, rules) := group in
  mkState (mqttClient st) (exportRules st)
          (JsMap.set (activeSubscriptions st) context rules)
          (lastSentValues st) (currentConfig st)
          (unsubscribes st ++ [{| request := subscriptionFor context rules;
                                  callbackRules := rules |}])%list.

Definition updateSubscriptions (st : PluginState) : PluginState :=
  let cleared :=
    mkState (mqttClient st) (exportRules st) [] (lastSentValues st) (currentConfig st) [] in
  fold_left installGroup (groupByContext (exportRules st)) cleared.

(** ** The rule-update route: [router.post('/api/rules')] *)

(** What [app.savePluginOptions(plugin.config, callback)] does: call back
    without an error, call back with one, or throw. *)
Inductive SaveOutcome : Type :=
| Saved
| SaveFailed
| SaveThrew (message : string).

Record ApiResponse : Type := {
  status : Z;
  success : bool;
  message : option string;
  error : option string
}.

(** The two assignments before the save: [state.exportRules = newRules]
    and [plugin.config.exportRules = newRules]. *)
Definition assignRules (st : PluginState) (newRules : list ExportRule.t) : PluginState :=
  mkState (mqttClient st) newRules (activeSubscriptions st) (lastSentValues st)
          (option_map (fun c => MQTTExportConfig.withExportRules c newRules)
                      (currentConfig st))
          (unsubscribes st).

(** The assignment under a result of the engine. *)
Definition liftAssign {A : Type} (newRules : list ExportRule.t) (acc : PluginState * A)
  : PluginState * A :=
  (assignRules (fst acc) newRules, snd acc).

(** [rules] is the field [req.body.rules] when it is an array, [None]
    otherwise. *)
Definition postRules (st : PluginState) (rules : option (list ExportRule.t))
    (save : SaveOutcome) : PluginState * ApiResponse :=
  match rules with
  | None =>
      (st, {| status := 400; success := false; message := None;
              error := Some "Rules must be an array" |})
  | Some newRules =>
      let st1 := assignRules st newRules in
      match save with
      | SaveFailed =>
          (st1, {| status := 500; success := false; message := None;
                   error := Some "Failed to save configuration" |})
      | Saved =>
          (updateSubscriptions st1,
           {| status := 200; success := true;
              message := Some "Export rules updated and saved"; error := None |})
      | SaveThrew msg =>
          (st1, {| status := 500; success := false; message := None; error := Some msg |})
      end
  end.

(** [getDefaultExportRules] *)
Definition defaultRule (id name context path source : string) (excludeMMSI : option string)
  : ExportRule.t :=
  ExportRule.mk id name context path (Some source) true 1000 0 false full (Some true)
                None excludeMMSI.

Definition getDefaultExportRules : list ExportRule.t :=
  [ defaultRule "all-navigation" "All Navigation Data" "vessels.self" "navigation*" "" None;
    defaultRule "derived-data" "Derived Data" "vessels.self" "*" "derived-data" None;
    defaultRule "pypilot" "PyPilot Data" "vessels.self" "*" "pypilot" None;
    defaultRule "anchoralarm" "Anchor Alarm" "vessels.self" "*" "anchoralarm" None;
    defaultRule "all-vessels" "All Vessels (AIS)" "vessels.*" "*" "" (Some "368396230");
    defaultRule "ais-vessels" "AIS Vessels" "vessels.urn:*" "*" "" (Some "368396230") ].

(** ** The lifecycle: [plugin.start], [initializeMQTTClient], [plugin.stop] *)

Module PartialConfig.
(** [Partial<MQTTExportConfig>]: every field may be missing. *)
Record t : Type := mk {
  enabled : option bool;
  mqttBroker : option string;
  mqttClientId : option string;
  mqttUsername : option string;
  mqttPassword : option string;
  topicPrefix : option string;
  exportRules : option (list ExportRule.t)
}.
End PartialConfig.

Module MQTTClientOptions.
Record t : Type := mk {
  clientId : string;
  clean : bool;
  reconnectPeriod : Z;
  keepalive : Z;
  username : option string;
  password : option string
}.
End MQTTClientOptions.

(** The closure state before [start]. *)
Definition initialState : PluginState := mkState None [] [] ∅ None [].

(** [options?.field]: [options] itself may be undefined. *)
Definition optionalField {A : Type} (options : option PartialConfig.t)
    (field : PartialConfig.t -> option A) : option A :=
  match options with
  | Some o => field o
  | None => None
  end.

(** The [config] object that [start] builds: [field || default] for the
    strings, [enabled !== false], and the default rules for a missing rule
    array (an array, even an empty one, is truthy). *)
Definition startConfig (options : option PartialConfig.t) : MQTTExportConfig.t :=
  MQTTExportConfig.mk
    (match optionalField options PartialConfig.enabled with
     | Some false => false
     | _ => true
     end)
    (Js.orDefault (optionalField options PartialConfig.mqttBroker) "mqtt://localhost:1883")
    (Js.orDefault (optionalField options PartialConfig.mqttClientId) "signalk-mqtt-export")
    (Js.orDefault (optionalField options PartialConfig.mqttUsername) "")
    (Js.orDefault (optionalField options PartialConfig.mqttPassword) "")
    (Js.orDefault (optionalField options PartialConfig.topicPrefix) "")
    (match optionalField options PartialConfig.exportRules with
     | Some rules => rules
     | None => getDefaultExportRules
     end).

(** The [mqttOptions] of [initializeMQTTClient]: the credentials are set
    only under [config.mqttUsername && config.mqttPassword]. *)
Definition mqttOptions (config : MQTTExportConfig.t) : MQTTClientOptions.t :=
  let withCredentials :=
    Js.truthy (MQTTExportConfig.mqttUsername config)
    && Js.truthy (MQTTExportConfig.mqttPassword config) in
  MQTTClientOptions.mk
    (MQTTExportConfig.mqttClientId config) true 5000 60
    (if withCredentials then Some (MQTTExportConfig.mqttUsername config) else None)
    (if withCredentials then Some (MQTTExportConfig.mqttPassword config) else None).

(** What [connect(config.mqttBroker, mqttOptions)] does: return a client, or
    throw. *)
Inductive ConnectOutcome : Type :=
| ClientCreated (client : MqttClient)
| ConnectThrew.

(** The arguments of the [connect] call. *)
Definition connectCall (config : MQTTExportConfig.t) : string * MQTTClientOptions.t :=
  (MQTTExportConfig.mqttBroker config, mqttOptions config).

(** [initializeMQTTClient]: the client is stored when [connect] returns
    one; the [catch] leaves the state as it is. *)
Definition initializeMQTTClient (st : PluginState) (config : MQTTExportConfig.t)
    (outcome : ConnectOutcome) : PluginState :=
  match outcome with
  | ClientCreated client =>
      mkState (Some client) (exportRules st) (activeSubscriptions st) (lastSentValues st)
              (currentConfig st) (unsubscribes st)
  | ConnectThrew => st
  end.

(** [plugin.start] *)
Definition start (st : PluginState) (options : option PartialConfig.t)
    (outcome : ConnectOutcome) : PluginState :=
  let config := startConfig options in
  let st1 :=
    mkState (mqttClient st) (MQTTExportConfig.exportRules config) (activeSubscriptions st)
            (lastSentValues st) (Some config) (unsubscribes st) in
  if negb (MQTTExportConfig.enabled config) then st1
  else updateSubscriptions (initializeMQTTClient st1 config outcome).

(** [plugin.stop]: the client is ended and dropped, every subscription is
    unsubscribed, both maps are cleared; the rule list and the configuration
    stay. *)
Definition stop (st : PluginState) : PluginState :=
  mkState None (exportRules st) [] ∅ (currentConfig st) [].

(** The MQTT library's connection events, which flip [client.connected]. *)
Definition setConnected (st : PluginState) (flag : bool) : PluginState :=
  match mqttClient st with
  | Some _ =>
      mkState (Some {| connected := flag |}) (exportRules st) (activeSubscriptions st)
              (lastSentValues st) (currentConfig st) (unsubscribes st)
  | None => st
  end.

(** ** The read-only routes and the test route *)

Module RulesApiResponse.
Record t : Type := mk {
  success : bool;
  rules : list ExportRule.t;
  activeSubscriptions : nat;
  mqttConnected : bool
}.
End RulesApiResponse.

Module MQTTStatusApiResponse.
Record t : Type := mk {
  success : bool;
  connected : bool;
  broker : option string;
  clientId : option string
}.
End MQTTStatusApiResponse.

(** [state.mqttClient ? state.mqttClient.connected : false] *)
Definition clientConnected (st : PluginState) : bool :=
  match mqttClient st with
  | Some client => connected client
  | None => false
  end.

(** [router.get('/api/rules')] *)
Definition getRules (st : PluginState) : RulesApiResponse.t :=
  RulesApiResponse.mk true (exportRules st) (JsMap.size (activeSubscriptions st))
                      (clientConnected st).

(** [router.get('/api/mqtt-status')] *)
Definition getMqttStatus (st : PluginState) : MQTTStatusApiResponse.t :=
  MQTTStatusApiResponse.mk true (clientConnected st)
    (option_map MQTTExportConfig.mqttBroker (currentConfig st))
    (option_map MQTTExportConfig.mqttClientId (currentConfig st)).

Module TestResponse.
(** The [ApiResponse] of the test route, which also carries [topic]. *)
Record t : Type := mk {
  status : Z;
  success : bool;
  message : option string;
  error : option string;
  topic : option string
}.
End TestResponse.

(** [`${state.currentConfig?.topicPrefix || 'test'}/signalk-mqtt-export-test`] *)
Definition testTopic (st : PluginState) : string :=
  Js.orDefault (option_map MQTTExportConfig.topicPrefix (currentConfig st)) "test"
  ++ "/signalk-mqtt-export-test".

(** [JSON.stringify({ test: true, timestamp: new Date().toISOString(), message: ... })],
    [now] being the text of the date. *)
Definition testPayload (now : string) : string :=
  Json.textOf (Json.stringify
                 (JObject [("test", JBool true);
                           ("timestamp", JString now);
                           ("message",
                            JString "Test message from SignalK MQTT Export Manager")])).

(** [router.post('/api/test-mqtt')]: [publishThrew] is the message of the
    error that the publish call throws, if it throws. The message goes out
    with [{ qos: 0 }], hence not retained. *)
Definition postTestMqtt (st : PluginState) (now : string) (publishThrew : option string)
  : TestResponse.t * option MqttPublish :=
  if negb (clientConnected st) then
    (TestResponse.mk 503 false None (Some "MQTT not connected") None, None)
  else
    match publishThrew with
    | Some msg => (TestResponse.mk 500 false None (Some msg) None, None)
    | None =>
        (TestResponse.mk 200 true (Some "Test message published") None (Some (testTopic st)),
         Some {| topic := testTopic st; payload := testPayload now;
                 pub_qos := 0; pub_retain := false |})
    end.

(** ** Notions used in the statements *)

(** A string of white space only. *)
Fixpoint blank (s : string) : bool :=
  match s with
  | EmptyString => true
  | String c s' => Js.isWhiteSpace c && blank s'
  end.

(** No code unit of the string is [u]. *)
Fixpoint withoutU (s : string) : bool :=
  match s with
  | EmptyString => true
  | String c s' => negb (Ascii.eqb c "u") && withoutU s'
  end.

(** No code unit of the string is a dollar sign. *)
Fixpoint withoutDollar (s : string) : bool :=
  match s with
  | EmptyString => true
  | String c s' => negb (Ascii.eqb c "$") && withoutDollar s'
  end.

(** [s.indexOf(pattern)], [None] standing for [-1]. *)
Fixpoint indexOf (s pattern : string) : option nat :=
  if Js.startsWith s pattern then Some O
  else match s with
       | EmptyString => None
       | String _ s' => option_map S (indexOf s' pattern)
       end.

(** The text [s] with the first occurrence of [token] replaced by [value],
    what follows the occurrence being copied as it is. *)
Definition replaceFirst (s token value : string) : string :=
  match indexOf s token with
  | None => s
  | Some i => substring 0 i s ++ value ++ Js.drop (i + String.length token) s
  end.

(** The change filter applied to the successive values of one key: the
    flags it returns, in order, and the final state. *)
Fixpoint checkValues (st : PluginState) (context path : string) (values : list JsValue)
  : list bool * PluginState :=
  match values with
  | [] => ([], st)
  | value :: rest =>
      let '(result, st') := checkValueChange st context path value in
      let '(flags, st'') := checkValues st' context path rest in
      (hasChanged result :: flags, st'')
  end.

(** A rule with its [sendOnChange] field replaced. *)
Definition withSendOnChange (r : ExportRule.t) (flag : option bool) : ExportRule.t :=
  ExportRule.mk (ExportRule.id r) (ExportRule.name r) (ExportRule.context r)
                (ExportRule.path r) (ExportRule.source r) (ExportRule.enabled r)
                (ExportRule.period r) (ExportRule.qos r) (ExportRule.retain r)
                (ExportRule.payloadFormat r) flag (ExportRule.topicTemplate r)
                (ExportRule.excludeMMSI r).

(** The [topicPrefix/] part of a topic. *)
Definition topicPrefixPart (st : PluginState) : string :=
  match currentConfig st with
  | Some config =>
      if Js.truthy (MQTTExportConfig.topicPrefix config)
      then MQTTExportConfig.topicPrefix config ++ "/"
      else ""
  | None => ""
  end.

(** The installed subscription of a group. *)
Definition installedFor (group : string * list ExportRule.t) : InstalledSubscription :=
  {| request := subscriptionFor (fst group) (snd group);
     callbackRules := snd group |}.

(** The enabled rules of a context, in stored order. *)
Definition enabledRulesOf (context : string) (rules : list ExportRule.t) : list ExportRule.t :=
  List.filter (fun r => ExportRule.enabled r && String.eqb (ruleContext r) context) rules.

(** ** Sample data *)

Definition fortyTwoAndHalf : JsValue := JNumber (Finite false 425 2).
Definition fortyThree : JsValue := JNumber (Finite false 43 2).

Definition positionValue : SignalKValue.t :=
  SignalKValue.mk "navigation.position" fortyTwoAndHalf None.

Definition undefinedValue : SignalKValue.t :=
  SignalKValue.mk "navigation.position" JUndefined None.

Definition depthValue : SignalKValue.t :=
  SignalKValue.mk "environment.depth.belowKeel" fortyTwoAndHalf None.

Definition positionRule (id : string) (period : Z) : ExportRule.t :=
  ExportRule.mk id id "vessels.self" "navigation.position" None true period 0 false full
                (Some true) None None.

(** A rule with the given topic template. *)
Definition templateRule (topicTemplate : option string) : ExportRule.t :=
  ExportRule.mk "position" "Position" "vessels.self" "navigation.position" None true 1000 0
                false full (Some true) topicTemplate None.

(** A rule whose exclusion list is one space. *)
Definition blankExclusionRule : ExportRule.t :=
  ExportRule.mk "blank-exclusion" "Blank exclusion" "vessels.*" "*" None true 1000 0 false
                full (Some true) None (Some " ").

(** A rule whose exclusion list has an empty entry. *)
Definition emptyEntryRule : ExportRule.t :=
  ExportRule.mk "ais" "AIS" "vessels.*" "*" None true 1000 0 false full (Some true) None
                (Some "12345,, 368396230 ").

(** A rule with [sendOnChange = false]. *)
Definition everyUpdateRule : ExportRule.t :=
  ExportRule.mk "wind" "Wind" "vessels.self" "environment.wind*" (Some "  ") true 1000 0 false
                value_only (Some false) (Some "") None.

(** A rule that came without a [sendOnChange] field. *)
Definition unsetSendOnChangeRule : ExportRule.t :=
  ExportRule.mk "depth" "Depth" "vessels.self" "environment.depth*" None true 1000 1 true
                value_only None None None.

Definition selfNavigationDelta : SignalKDelta.t :=
  SignalKDelta.mk (Some "vessels.self") None.

Definition aisDelta : SignalKDelta.t :=
  SignalKDelta.mk (Some "vessels.urn:mrn:imo:mmsi:368396230") None.

Definition otherVesselDelta : SignalKDelta.t :=
  SignalKDelta.mk (Some "vessels.urn:mrn:imo:mmsi:244670316") None.

Definition noContextDelta : SignalKDelta.t := SignalKDelta.mk None None.

(** One update from [pypilot] with one value, the position. *)
Definition positionDelta : SignalKDelta.t :=
  SignalKDelta.mk (Some "vessels.self")
    (Some [SignalKUpdate.mk (Some (SignalKSource.mk "pypilot" None None None))
                            "2024-01-01T00:00:00.000Z"
                            (Some [SignalKValue.mk "navigation.position"
                                                   (JNumber (Finite false 425 2)) None])
                            None]).

Definition pypilotUpdate : SignalKUpdate.t :=
  SignalKUpdate.mk (Some (SignalKSource.mk "pypilot" None None None))
                   "2024-01-01T00:00:00.000Z" None None.

Definition gpsUpdate : SignalKUpdate.t :=
  SignalKUpdate.mk (Some (SignalKSource.mk "gps0" None None None))
                   "2024-01-01T00:00:00.000Z" None None.

Definition mixedCaseUpdate : SignalKUpdate.t :=
  SignalKUpdate.mk (Some (SignalKSource.mk "gps0" None None None))
                   "2024-01-01T00:00:00.000Z" None (Some "PyPilot").

Definition sampleConfig : MQTTExportConfig.t :=
  MQTTExportConfig.mk true "mqtt://localhost:1883" "signalk-mqtt-export" "" "" ""
                      getDefaultExportRules.

(** The state after [start] with the default options, before any
    subscription is installed, the client being connected. *)
Definition connectedState : PluginState :=
  mkState (Some {| connected := true |}) getDefaultExportRules [] ∅ (Some sampleConfig) [].

(** The running plugin: the default rules with their subscriptions
    installed. *)
Definition runningState : PluginState := updateSubscriptions connectedState.

(** A connected state whose configuration has the given topic prefix. *)
Definition prefixState (topicPrefix : string) : PluginState :=
  mkState (Some {| connected := true |}) getDefaultExportRules [] ∅
          (Some (MQTTExportConfig.mk true "mqtt://localhost:1883" "signalk-mqtt-export"
                                     "" "" topicPrefix getDefaultExportRules))
          [].

(** Two enabled rules of one context with the same path and different
    periods. *)
Definition samePathState : PluginState :=
  mkState (Some {| connected := true |})
          [positionRule "slow" 1000; positionRule "fast" 500] [] ∅ None [].

(** The state once 42.5 has been sent for the position of the self vessel. *)
Definition storedState : PluginState :=
  snd (checkValueChange connectedState "vessels.self" "navigation.position" fortyTwoAndHalf).

(** The state once [undefined] has been sent for that key. *)
Definition storedUndefinedState : PluginState :=
  snd (checkValueChange connectedState "vessels.self" "navigation.position" JUndefined).

(** The value updates of a delta, each with its update, in the order in
    which [handleSignalKData] visits them. *)
Definition deltaValues (delta : SignalKDelta.t) : list (SignalKUpdate.t * SignalKValue.t) :=
  match SignalKDelta.updates delta with
  | None => []
  | Some updates =>
      List.flat_map
        (fun update =>
           match SignalKUpdate.values update with
           | None => []
           | Some values => List.map (pair update) values
           end) updates
  end.

(** The context under which a delta is published and filtered. *)
Definition deltaContext (delta : SignalKDelta.t) : string :=
  Js.orDefault (SignalKDelta.context delta) "vessels.self".

(** The message that a value update gives under a rule. *)
Definition messageFor (st : PluginState) (delta : SignalKDelta.t) (rule : ExportRule.t)
    (valueUpdate : SignalKValue.t) : MqttPublish :=
  buildMessage st delta rule (deltaContext delta) (SignalKValue.path valueUpdate)
               (SignalKValue.value valueUpdate).

(** The printed form of the value stored under a key, if a defined value
    is stored. *)
Definition storedText (st : PluginState) (context path : string) : option string :=
  let lastValue := lastSentGet (lastSentValues st) (valueKey context path) in
  if Json.isDefined lastValue then Some (Json.valueString lastValue) else None.

(** For a run of printed forms, whether each differs from the one before
    it, [last] being the form before the run. *)
Fixpoint changeFlags (last : option string) (texts : list string) : list bool :=
  match texts with
  | [] => []
  | text :: rest =>
      match last with
      | Some l => negb (String.eqb text l)
      | None => true
      end :: changeFlags (Some text) rest
  end.

(** The members of [l] in order, without those in [seen] and without
    repetitions: each at its first appearance. *)
Fixpoint distinctFrom (seen l : list string) : list string :=
  match l with
  | [] => []
  | c :: rest =>
      if existsb (fun s => String.eqb s c) seen then distinctFrom seen rest
      else c :: distinctFrom (seen ++ [c]) rest
  end.

(** ** The plugin as a machine *)

(** What happens to the plugin: the server starts and stops it, the web
    routes are called, the server calls back the [i]-th installed
    subscription with a delta, the MQTT library reports the connection up
    or down. *)
Inductive Event : Type :=
| OnStart (options : option PartialConfig.t) (outcome : ConnectOutcome)
| OnStop
| OnPostRules (rules : option (list ExportRule.t)) (save : SaveOutcome)
| OnTestMqtt (now : string) (publishThrew : option string)
| OnDelta (i : nat) (delta : SignalKDelta.t)
| OnConnection (flag : bool).

(** The state after an event, and the messages handed to the MQTT client. *)
Definition step (st : PluginState) (ev : Event) : PluginState * list MqttPublish :=
  match ev with
  | OnStart options outcome => (start st options outcome, [])
  | OnStop => (stop st, [])
  | OnPostRules rules save => (fst (postRules st rules save), [])
  | OnTestMqtt now publishThrew =>
      (st, match snd (postTestMqtt st now publishThrew) with
           | Some m => [m]
           | None => []
           end)
  | OnDelta i delta =>
      match unsubscribes st !! i with
      | Some installed => handleSignalKData st delta (callbackRules installed)
      | None => (st, [])
      end
  | OnConnection flag => (setConnected st flag, [])
  end.

Fixpoint run (st : PluginState) (events : list Event) : PluginState * list MqttPublish :=
  match events with
  | [] => (st, [])
  | ev :: rest =>
      let '(st1, sent1) := step st ev in
      let '(st2, sent2) := run st1 rest in
      (st2, (sent1 ++ sent2)%list)
  end.

(** An event that gives the plugin an MQTT client: a start that is not
    disabled and whose [connect] returns. *)
Definition createsClient (ev : Event) : bool :=
  match ev with
  | OnStart options (ClientCreated _) => MQTTExportConfig.enabled (startConfig options)
  | _ => false
  end.

(** What holds of the subscriptions and of the configuration in every state
    the plugin can be in. *)
Record Consistent (st : PluginState) : Prop := {
  subscriptions_mirror :
    unsubscribes st = List.map installedFor (activeSubscriptions st);
  subscriptions_distinct : NoDup (JsMap.keys (activeSubscriptions st));
  subscriptions_enabled :
    forall context group,
      In (context, group) (activeSubscriptions st) ->
      group <> []
      /\ forall rule, In rule group ->
                      ExportRule.enabled rule = true /\ ruleContext rule = context;
  config_rules :
    forall config,
      currentConfig st = Some config ->
      MQTTExportConfig.exportRules config = exportRules st;
  config_broker :
    forall config,
      currentConfig st = Some config ->
      MQTTExportConfig.mqttBroker config <> ""
      /\ MQTTExportConfig.mqttClientId config <> ""
}.

(** The no-break space U+00A0, which [trim] strips. *)
Definition noBreakSpace : string := String "160" EmptyString.

(** A rule whose source is one no-break space. *)
Definition noBreakSourceRule : ExportRule.t :=
  ExportRule.mk "nbsp-source" "No-break source" "vessels.self" "*" (Some noBreakSpace) true
                1000 0 false full (Some true) None None.

(** A rule whose exclusion list pads its second entry with a no-break
    space. *)
Definition paddedExclusionRule : ExportRule.t :=
  ExportRule.mk "padded" "Padded exclusion" "vessels.*" "*" None true 1000 0 false full
                (Some true) None (Some ("12345," ++ noBreakSpace ++ "368396230")).

(** A rule whose exclusion list is one no-break space. *)
Definition noBreakExclusionRule : ExportRule.t :=
  ExportRule.mk "nbsp-exclusion" "No-break exclusion" "vessels.*" "*" None true 1000 0 false
                full (Some true) None (Some noBreakSpace).

(** * Properties *)

(** ** String primitives *)

#[local] Arguments String.append : simpl nomatch.

Section StringFacts.

Lemma startsWith_app (p t : string) : Js.startsWith (p ++ t) p = true.
Proof.
  induction p as [|c p IH]; simpl; [reflexivity|].
  rewrite Ascii.eqb_refl. exact IH.
Qed.

Lemma startsWith_inv (s p : string) :
  Js.startsWith s p = true -> exists t, s = p ++ t.
Proof.
  revert s. induction p as [|c p IH]; intros s H.
  - exists s. reflexivity.
  - destruct s as [|d s]; simpl in H; [discriminate|].
    apply andb_true_iff in H as [Hc Hs].
    apply Ascii.eqb_eq in Hc. subst d.
    destruct (IH _ Hs) as [t ->]. exists t. reflexivity.
Qed.

Lemma startsWith_spec (s p : string) :
  Js.startsWith s p = true <-> exists t, s = p ++ t.
Proof.
  split; [apply startsWith_inv|].
  intros [t ->]. apply startsWith_app.
Qed.

Lemma endsWith_spec (s suffix : string) :
  Js.endsWith s suffix = true <-> exists pre, s = pre ++ suffix.
Proof.
  induction s as [|c s IH].
  - change (Js.endsWith "" suffix) with (String.eqb "" suffix || false).
    rewrite orb_false_r, String.eqb_eq. split.
    + intros <-. exists "". reflexivity.
    + intros [pre H]. destruct pre; simpl in H; [exact H | discriminate].
  - change (Js.endsWith (String c s) suffix)
      with (String.eqb (String c s) suffix || Js.endsWith s suffix).
    rewrite orb_true_iff, String.eqb_eq, IH. split.
    + intros [<- | [pre ->]]; [exists "" | exists (String c pre)]; reflexivity.
    + intros [pre H]. destruct pre as [|d pre]; simpl in H.
      * left. exact H.
      * right. injection H as _ ->. exists pre. reflexivity.
Qed.

Lemma sliceDropLast_snoc (pre : string) (c : ascii) :
  Js.sliceDropLast (pre ++ String c "") = pre.
Proof.
  induction pre as [|d pre IH]; [reflexivity|].
  simpl. simpl in IH. rewrite IH.
  destruct pre; reflexivity.
Qed.

Lemma append_assoc (a b c : string) : (a ++ b) ++ c = a ++ (b ++ c).
Proof. induction a as [|x a IH]; simpl; [reflexivity | now rewrite IH]. Qed.

Lemma append_empty_r (a : string) : a ++ "" = a.
Proof. induction a as [|x a IH]; simpl; [reflexivity | now rewrite IH]. Qed.

Lemma includes_spec (s sub : string) :
  Js.includes s sub = true <-> exists a b, s = a ++ sub ++ b.
Proof.
  induction s as [|c s IH]; simpl.
  - rewrite orb_false_r. split.
    + intros H. apply startsWith_inv in H as [t ->]. exists "", t. reflexivity.
    + intros [a [b H]]. destruct a; simpl in H; [|discriminate].
      rewrite H. apply startsWith_app.
  - rewrite orb_true_iff, IH. split.
    + intros [H | [a [b ->]]].
      * apply startsWith_inv in H as [t ->]. exists "", t. reflexivity.
      * exists (String c a), b. reflexivity.
    + intros [a [b H]]. destruct a as [|d a]; simpl in H.
      * left. rewrite H. apply startsWith_app.
      * right. injection H as _ ->. exists a, b. reflexivity.
Qed.

End StringFacts.

(** ** The path check *)

Lemma pathMatch_true_iff (rulePath updatePath : string) :
  pathMatch rulePath updatePath = true <->
  rulePath = updatePath
  \/ rulePath = "*"
  \/ exists pre, rulePath = pre ++ "*" /\ exists rest, updatePath = pre ++ rest.
Proof.
  unfold pathMatch.
  destruct (String.eqb_spec rulePath "*") as [Hstar | Hstar].
  { split; auto. }
  destruct (String.eqb_spec rulePath updatePath) as [Heq | Hneq].
  { split; auto. }
  destruct (Js.endsWith rulePath "*") eqn:Hends.
  - apply endsWith_spec in Hends as [pre ->].
    rewrite sliceDropLast_snoc, startsWith_spec. split.
    + intros Hp. right. right. exists pre. split; [reflexivity | exact Hp].
    + intros [H | [H | [pre' [H1 H2]]]]; [contradiction | contradiction |].
      assert (pre' = pre) as ->; [|exact H2].
      rewrite <- (sliceDropLast_snoc pre' "*"), <- H1. apply sliceDropLast_snoc.
  - split; [discriminate|].
    intros [H | [H | [pre [H1 _]]]]; [contradiction | contradiction |].
    assert (Js.endsWith rulePath "*" = true) as E
      by (apply endsWith_spec; exists pre; exact H1).
    congruence.
Qed.

(** C5. The path check passes exactly when the rule path equals the update
    path, or the rule path is ["*"], or the rule path ends in ['*'] and the
    update path starts with what precedes that ['*']; ["navigation*"]
    matches ["navigation.position"] and ["navigation"] and does not match
    ["electrical.navigation"]. *)
Theorem path_check_wildcards :
  (forall rulePath updatePath : string,
      pathMatch rulePath updatePath = true <->
      rulePath = updatePath
      \/ rulePath = "*"
      \/ exists pre, rulePath = pre ++ "*" /\ exists rest, updatePath = pre ++ rest)
  /\ (forall rulePath updatePath : string,
        pathMatch rulePath updatePath = true <->
        rulePath = updatePath
        \/ rulePath = "*"
        \/ (Js.endsWith rulePath "*" = true
            /\ Js.startsWith updatePath (Js.sliceDropLast rulePath) = true))
  /\ pathMatch "navigation*" "navigation.position" = true
  /\ pathMatch "navigation*" "navigation" = true
  /\ pathMatch "navigation*" "electrical.navigation" = false.
Proof.
  split; [exact pathMatch_true_iff|].
  split; [|repeat split; reflexivity].
  intros rulePath updatePath. rewrite pathMatch_true_iff.
  split; (intros [H | [H | H]]; [auto | auto |]); right; right.
  - destruct H as [pre [-> [rest ->]]]. split.
    + apply endsWith_spec. now exists pre.
    + rewrite sliceDropLast_snoc. apply startsWith_app.
  - destruct H as [Hends Hstarts].
    apply endsWith_spec in Hends as [pre ->].
    rewrite sliceDropLast_snoc in Hstarts.
    exists pre. split; [reflexivity | now apply startsWith_spec].
Qed.

(** ** Truthiness, trimming and splitting *)

Lemma truthy_true_iff (s : string) : Js.truthy s = true <-> s <> "".
Proof.
  unfold Js.truthy. destruct (String.eqb_spec s ""); simpl; split; intros; congruence.
Qed.

Lemma truthy_false_iff (s : string) : Js.truthy s = false <-> s = "".
Proof.
  unfold Js.truthy. destruct (String.eqb_spec s ""); simpl; split; intros; congruence.
Qed.

Lemma strictEq_true_iff (a : string) (b : option string) :
  strictEq a b = true <-> b = Some a.
Proof.
  destruct b as [s|]; simpl; [|split; discriminate].
  rewrite String.eqb_eq. split; [intros ->; reflexivity | intros [= ->]; reflexivity].
Qed.

Lemma trimStart_blank (s : string) : blank (Js.trimStart s) = blank s.
Proof.
  induction s as [|c s IH]; [reflexivity|]. simpl.
  destruct (Js.isWhiteSpace c) eqn:E; simpl; [exact IH | now rewrite E].
Qed.

Lemma trimEnd_empty_iff (s : string) : Js.trimEnd s = "" <-> blank s = true.
Proof.
  induction s as [|c s IH]; simpl; [tauto|].
  destruct (Js.trimEnd s) eqn:E.
  - destruct (Js.isWhiteSpace c); simpl.
    + apply IH.
    + split; discriminate.
  - rewrite andb_true_iff. split; [discriminate|].
    intros [_ H]. apply IH in H. discriminate.
Qed.

Lemma trim_empty_iff (s : string) : Js.trim s = "" <-> blank s = true.
Proof. unfold Js.trim. rewrite trimEnd_empty_iff, trimStart_blank. reflexivity. Qed.

Lemma split_blank (sep : ascii) (s piece : string) :
  blank s = true -> In piece (Js.split sep s) -> blank piece = true.
Proof.
  revert piece. induction s as [|c s IH]; intros piece Hs Hin; simpl in *.
  - destruct Hin as [<- | []]. reflexivity.
  - apply andb_true_iff in Hs as [Hc Hs].
    destruct (Ascii.eqb c sep).
    + destruct Hin as [<- | Hin]; [reflexivity | now apply IH].
    + destruct (Js.split sep s) as [|p ps] eqn:E.
      * destruct Hin as [<- | []]. simpl. now rewrite Hc.
      * destruct Hin as [<- | Hin].
        -- simpl. rewrite Hc. apply IH; [exact Hs | now left].
        -- apply IH; [exact Hs | now right].
Qed.

(** An entry that is not empty after trimming shows that the whole list is
    not blank. *)
Lemma entry_not_blank (excludeMMSI mmsi : string) :
  In mmsi (List.map Js.trim (Js.split "," excludeMMSI)) ->
  mmsi <> "" ->
  Js.trim excludeMMSI <> "".
Proof.
  intros Hin Hne Htrim.
  apply in_map_iff in Hin as [piece [<- Hpiece]].
  apply Hne, trim_empty_iff.
  apply (split_blank "," excludeMMSI); [|exact Hpiece].
  now apply trim_empty_iff.
Qed.

(** ** The four checks of the match predicate *)

Lemma ruleMatches_checks (delta : SignalKDelta.t) (update : SignalKUpdate.t)
    (valueUpdate : SignalKValue.t) (r : ExportRule.t) :
  ruleMatches delta update valueUpdate r =
  ExportRule.enabled r
  && pathMatch (ExportRule.path r) (SignalKValue.path valueUpdate)
  && sourceMatch r update
  && negb (contextHasExcludedMMSI r delta).
Proof.
  unfold ruleMatches.
  destruct (ExportRule.enabled r); simpl; [|reflexivity].
  destruct (pathMatch _ _); simpl; [|reflexivity].
  destruct (sourceMatch r update); simpl; [|reflexivity].
  destruct (contextHasExcludedMMSI r delta); reflexivity.
Qed.

Lemma contextHasExcludedMMSI_true_iff (r : ExportRule.t) (delta : SignalKDelta.t) :
  contextHasExcludedMMSI r delta = true <->
  exists excludeMMSI context,
    ExportRule.excludeMMSI r = Some excludeMMSI
    /\ SignalKDelta.context delta = Some context
    /\ Js.trim excludeMMSI <> ""
    /\ context <> ""
    /\ exists mmsi, In mmsi (List.map Js.trim (Js.split "," excludeMMSI))
                    /\ exists a b, context = a ++ mmsi ++ b.
Proof.
  unfold contextHasExcludedMMSI.
  destruct (ExportRule.excludeMMSI r) as [ex|];
    [|split; [discriminate | intros (? & ? & ? & _); discriminate]].
  destruct (SignalKDelta.context delta) as [ctx|];
    [|split; [discriminate | intros (? & ? & _ & ? & _); discriminate]].
  destruct (Js.truthy ex) eqn:Hex; simpl.
  - destruct (Js.truthy (Js.trim ex)) eqn:Htrim; simpl.
    + destruct (Js.truthy ctx) eqn:Hctx; simpl.
      * rewrite existsb_exists. apply truthy_true_iff in Htrim, Hctx. split.
        -- intros [mmsi [Hin Hinc]]. exists ex, ctx. repeat split; try assumption.
           exists mmsi. split; [exact Hin | now apply includes_spec].
        -- intros (? & ? & [= <-] & [= <-] & _ & _ & mmsi & Hin & Hsub).
           exists mmsi. split; [exact Hin | now apply includes_spec].
      * apply truthy_false_iff in Hctx. split; [discriminate|].
        intros (? & ? & _ & [= <-] & _ & H & _). contradiction.
    + apply truthy_false_iff in Htrim. split; [discriminate|].
      intros (? & ? & [= <-] & _ & H & _). contradiction.
  - apply truthy_false_iff in Hex. subst ex. split; [discriminate|].
    intros (? & ? & [= <-] & _ & H & _). now contradiction H.
Qed.

(** ** First match wins *)

Lemma findRule_first (delta : SignalKDelta.t) (update : SignalKUpdate.t)
    (valueUpdate : SignalKValue.t) (before after : list ExportRule.t) (rule : ExportRule.t) :
  ruleMatches delta update valueUpdate rule = true ->
  Forall (fun r => ruleMatches delta update valueUpdate r = false) before ->
  findRule delta update valueUpdate (before ++ rule :: after) = Some rule.
Proof.
  intros Hrule Hbefore. unfold findRule.
  induction Hbefore as [|r before Hr _ IH]; simpl.
  - now rewrite Hrule.
  - rewrite Hr. exact IH.
Qed.

Lemma findRule_result (delta : SignalKDelta.t) (update : SignalKUpdate.t)
    (valueUpdate : SignalKValue.t) (contextRules : list ExportRule.t) :
  match findRule delta update valueUpdate contextRules with
  | Some rule =>
      exists before after,
        contextRules = (before ++ rule :: after)%list
        /\ ruleMatches delta update valueUpdate rule = true
        /\ Forall (fun r => ruleMatches delta update valueUpdate r = false) before
  | None => Forall (fun r => ruleMatches delta update valueUpdate r = false) contextRules
  end.
Proof.
  unfold findRule.
  induction contextRules as [|r rules IH]; simpl; [constructor|].
  destruct (ruleMatches delta update valueUpdate r) eqn:Hr.
  - exists [], rules. repeat split; [exact Hr | constructor].
  - destruct (find _ rules) as [rule|].
    + destruct IH as (before & after & -> & Hrule & Hbefore).
      exists (r :: before), after. repeat split; [exact Hrule | now constructor].
    + now constructor.
Qed.

(** The rules after a matching rule have no part in the selection. *)
Lemma findRule_shadow (delta : SignalKDelta.t) (update : SignalKUpdate.t)
    (valueUpdate : SignalKValue.t) (before after : list ExportRule.t) (rule : ExportRule.t) :
  ruleMatches delta update valueUpdate rule = true ->
  findRule delta update valueUpdate (before ++ rule :: after)
  = findRule delta update valueUpdate (before ++ [rule]).
Proof.
  intros Hrule. unfold findRule.
  induction before as [|r before IH]; simpl.
  - now rewrite Hrule.
  - destruct (ruleMatches delta update valueUpdate r); [reflexivity | exact IH].
Qed.

Lemma handleValue_selected (delta : SignalKDelta.t) (contextRules : list ExportRule.t)
    (update : SignalKUpdate.t) (valueUpdate : SignalKValue.t) (rule : ExportRule.t)
    (acc : PluginState * list MqttPublish) :
  findRule delta update valueUpdate contextRules = Some rule ->
  handleValue delta contextRules update acc valueUpdate =
  (fst (publishToMQTT (fst acc) delta update valueUpdate rule),
   (snd acc ++ match snd (publishToMQTT (fst acc) delta update valueUpdate rule) with
               | Some m => [m]
               | None => []
               end)%list).
Proof.
  intros H. unfold handleValue. rewrite H.
  destruct (publishToMQTT _ _ _ _ _). reflexivity.
Qed.

(** C1. For every sequence of context rules and every value update, the
    rule selected is the first one in the sequence that passes the four
    checks (enabled, path, source, exclusion), or none when no rule passes;
    the dispatch is the publication under the selected rule alone, the same
    as if the sequence held only that rule, and it hands at most one message
    to the client; when two rules both match and no rule before the earlier
    one matches, the earlier one is selected, and in any case the rules that
    follow a matching rule have no part in the selection. *)
Theorem first_match_wins (delta : SignalKDelta.t) (update : SignalKUpdate.t)
    (valueUpdate : SignalKValue.t) (contextRules : list ExportRule.t) :
  match findRule delta update valueUpdate contextRules with
  | Some rule =>
      (exists before after,
          contextRules = (before ++ rule :: after)%list
          /\ Forall (fun r => ruleMatches delta update valueUpdate r = false) before)
      /\ (ExportRule.enabled rule = true
          /\ pathMatch (ExportRule.path rule) (SignalKValue.path valueUpdate) = true
          /\ sourceMatch rule update = true
          /\ contextHasExcludedMMSI rule delta = false)
      /\ forall acc,
          handleValue delta contextRules update acc valueUpdate
          = handleValue delta [rule] update acc valueUpdate
          /\ handleValue delta contextRules update acc valueUpdate
            = (fst (publishToMQTT (fst acc) delta update valueUpdate rule),
               (snd acc ++ match snd (publishToMQTT (fst acc) delta update valueUpdate rule) with
                           | Some m => [m]
                           | None => []
                           end)%list)
  | None =>
      Forall (fun r => ruleMatches delta update valueUpdate r = false) contextRules
      /\ forall acc, handleValue delta contextRules update acc valueUpdate = acc
  end
  /\ (forall before r1 middle r2 after,
      contextRules = (before ++ r1 :: middle ++ r2 :: after)%list ->
      Forall (fun r => ruleMatches delta update valueUpdate r = false) before ->
      ruleMatches delta update valueUpdate r1 = true ->
      ruleMatches delta update valueUpdate r2 = true ->
      findRule delta update valueUpdate contextRules = Some r1)
  /\ (forall before rule after,
        contextRules = (before ++ rule :: after)%list ->
        ruleMatches delta update valueUpdate rule = true ->
        findRule delta update valueUpdate contextRules
        = findRule delta update valueUpdate (before ++ [rule])).
Proof.
  split; [|split].
  - pose proof (findRule_result delta update valueUpdate contextRules) as H.
    destruct (findRule delta update valueUpdate contextRules) as [rule|] eqn:Hfind.
    + destruct H as (before & after & Heq & Hrule & Hbefore).
      split; [exists before, after; split; assumption|].
      split.
      * rewrite ruleMatches_checks in Hrule.
        repeat (apply andb_true_iff in Hrule as [Hrule ?]).
        repeat split; try assumption. now apply negb_true_iff.
      * intros acc.
        assert (findRule delta update valueUpdate [rule] = Some rule) as Hone
          by (apply (findRule_first _ _ _ [] []); [exact Hrule | constructor]).
        rewrite (handleValue_selected _ _ _ _ _ _ Hfind).
        rewrite (handleValue_selected _ _ _ _ _ _ Hone). split; reflexivity.
    + split; [exact H|]. intros acc. unfold handleValue. now rewrite Hfind.
  - intros before r1 middle r2 after -> Hbefore H1 _.
    now apply findRule_first.
  - intros before rule after -> Hrule. now apply findRule_shadow.
Qed.

Lemma first_match_wins_witness :
  findRule selfNavigationDelta pypilotUpdate positionValue getDefaultExportRules
  = Some (defaultRule "all-navigation" "All Navigation Data" "vessels.self" "navigation*" "" None)
  /\ findRule selfNavigationDelta pypilotUpdate positionValue getDefaultExportRules
     = findRule selfNavigationDelta pypilotUpdate positionValue ([] ++ [(defaultRule "all-navigation" "All Navigation Data" "vessels.self" "navigation*" "" None)]).
Proof.
  split.
  - apply (proj1 (proj2 (first_match_wins selfNavigationDelta pypilotUpdate positionValue
                                          getDefaultExportRules))
                 []
                 (defaultRule "all-navigation" "All Navigation Data" "vessels.self" "navigation*" "" None)
                 [defaultRule "derived-data" "Derived Data" "vessels.self" "*" "derived-data"
                              None]
                 (defaultRule "pypilot" "PyPilot Data" "vessels.self" "*" "pypilot" None)
                 [defaultRule "anchoralarm" "Anchor Alarm" "vessels.self" "*" "anchoralarm"
                              None;
                  defaultRule "all-vessels" "All Vessels (AIS)" "vessels.*" "*" ""
                              (Some "368396230");
                  defaultRule "ais-vessels" "AIS Vessels" "vessels.urn:*" "*" ""
                              (Some "368396230")]).
    + reflexivity.
    + constructor.
    + reflexivity.
    + reflexivity.
  - apply (proj2 (proj2 (first_match_wins selfNavigationDelta pypilotUpdate positionValue
                                          getDefaultExportRules))
                 []
                 (defaultRule "all-navigation" "All Navigation Data" "vessels.self" "navigation*" "" None)
                 (List.tl getDefaultExportRules)).
    + reflexivity.
    + reflexivity.
Defined.

(** A delta of the self vessel whose one value two default rules match is
    published once, under the first of them. *)
Example default_rules_one_dispatch :
  List.map (fun m => (topic m, pub_qos m, pub_retain m))
           (snd (handleSignalKData connectedState positionDelta
                                   (enabledRulesOf "vessels.self" getDefaultExportRules)))
  = [("vessels/self/navigation/position", 0%Z, false)].
Proof. reflexivity. Qed.

(** ** The source check *)

(** C7. For a rule with a non-blank source, the source check passes exactly
    when the update's source label ([update.$source || update.source?.label])
    is that very string, compared code unit by code unit; a rule whose
    source is absent, empty or blank passes for every update; a rule with
    source ["pypilot"] never matches an update whose label is ["gps0"]. *)
Theorem source_check_exact (r : ExportRule.t) (update : SignalKUpdate.t) :
  (forall src,
      ExportRule.source r = Some src -> Js.trim src <> "" ->
      (sourceMatch r update = true <-> updateSourceLabel update = Some src))
  /\ (forall src,
        ExportRule.source r = Some src -> Js.trim src = "" -> sourceMatch r update = true)
  /\ (ExportRule.source r = None -> sourceMatch r update = true)
  /\ (ExportRule.source r = Some "pypilot" ->
      updateSourceLabel update = Some "gps0" ->
      forall delta valueUpdate, ruleMatches delta update valueUpdate r = false)
  /\ (ExportRule.source r = Some "pypilot" ->
      updateSourceLabel update = Some "PyPilot" ->
      sourceMatch r update = false).
Proof.
  assert (forall src, ExportRule.source r = Some src -> Js.trim src <> "" ->
                      sourceMatch r update = strictEq src (updateSourceLabel update)) as Hexact.
  { intros src Hsrc Htrim. unfold sourceMatch. rewrite Hsrc.
    assert (src <> "") as Hne by (intros ->; now apply Htrim).
    apply truthy_true_iff in Hne, Htrim. now rewrite Hne, Htrim. }
  split; [|split; [|split; [|split]]].
  - intros src Hsrc Htrim. rewrite (Hexact src Hsrc Htrim). apply strictEq_true_iff.
  - intros src Hsrc Htrim. unfold sourceMatch. rewrite Hsrc.
    apply truthy_false_iff in Htrim. rewrite Htrim.
    destruct (Js.truthy src); reflexivity.
  - intros Hsrc. unfold sourceMatch. now rewrite Hsrc.
  - intros Hsrc Hlabel delta valueUpdate.
    rewrite ruleMatches_checks, (Hexact "pypilot" Hsrc), Hlabel; [|discriminate].
    simpl. now rewrite andb_false_r.
  - intros Hsrc Hlabel. rewrite (Hexact "pypilot" Hsrc), Hlabel; [reflexivity | discriminate].
Qed.

Lemma source_check_exact_witness :
  (sourceMatch (defaultRule "pypilot" "PyPilot Data" "vessels.self" "*" "pypilot" None) pypilotUpdate = true <-> updateSourceLabel pypilotUpdate = Some "pypilot")
  /\ sourceMatch everyUpdateRule gpsUpdate = true
  /\ sourceMatch blankExclusionRule gpsUpdate = true
  /\ ruleMatches selfNavigationDelta gpsUpdate positionValue (defaultRule "pypilot" "PyPilot Data" "vessels.self" "*" "pypilot" None) = false
  /\ sourceMatch (defaultRule "pypilot" "PyPilot Data" "vessels.self" "*" "pypilot" None) mixedCaseUpdate = false.
Proof.
  split; [|split; [|split; [|split]]].
  - apply (proj1 (source_check_exact (defaultRule "pypilot" "PyPilot Data" "vessels.self" "*" "pypilot" None) pypilotUpdate) "pypilot").
    + reflexivity.
    + vm_compute. discriminate.
  - apply (proj1 (proj2 (source_check_exact everyUpdateRule gpsUpdate)) "  ");
      reflexivity.
  - apply (proj1 (proj2 (proj2 (source_check_exact blankExclusionRule gpsUpdate)))).
    reflexivity.
  - apply (proj1 (proj2 (proj2 (proj2 (source_check_exact (defaultRule "pypilot" "PyPilot Data" "vessels.self" "*" "pypilot" None) gpsUpdate)))));
      reflexivity.
  - apply (proj2 (proj2 (proj2 (proj2 (source_check_exact (defaultRule "pypilot" "PyPilot Data" "vessels.self" "*" "pypilot" None) mixedCaseUpdate)))));
      reflexivity.
Defined.

(** ** The exclusion check *)

Lemma append_not_empty (a m b : string) : m <> "" -> a ++ m ++ b <> "".
Proof.
  intros Hm. destruct a; simpl; [|discriminate].
  destruct m; [contradiction | discriminate].
Qed.

(** C6, as the code has it. A rule with an exclusion list never matches an
    update whose context identifier contains a comma-separated, trimmed
    entry of the list, whatever the path and source checks say, when that
    entry is not empty, or when the list is not blank and the identifier is
    not empty; a list ["12345"] rejects every identifier that contains
    ["12345"]. A blank list, and an absent or empty identifier, leave the
    check out. *)
Theorem exclusion_rejects (r : ExportRule.t) (delta : SignalKDelta.t)
    (update : SignalKUpdate.t) (valueUpdate : SignalKValue.t) :
  (forall excludeMMSI context mmsi,
      ExportRule.excludeMMSI r = Some excludeMMSI ->
      SignalKDelta.context delta = Some context ->
      In mmsi (List.map Js.trim (Js.split "," excludeMMSI)) ->
      (exists a b, context = a ++ mmsi ++ b) ->
      mmsi <> "" \/ (Js.trim excludeMMSI <> "" /\ context <> "") ->
      ruleMatches delta update valueUpdate r = false)
  /\ (forall a b,
        ExportRule.excludeMMSI r = Some "12345" ->
        SignalKDelta.context delta = Some (a ++ "12345" ++ b) ->
        ruleMatches delta update valueUpdate r = false)
  /\ (forall excludeMMSI,
        ExportRule.excludeMMSI r = Some excludeMMSI ->
        Js.trim excludeMMSI = "" ->
        contextHasExcludedMMSI r delta = false)
  /\ (SignalKDelta.context delta = None \/ SignalKDelta.context delta = Some "" ->
      contextHasExcludedMMSI r delta = false).
Proof.
  assert (forall excludeMMSI context mmsi,
      ExportRule.excludeMMSI r = Some excludeMMSI ->
      SignalKDelta.context delta = Some context ->
      In mmsi (List.map Js.trim (Js.split "," excludeMMSI)) ->
      (exists a b, context = a ++ mmsi ++ b) ->
      mmsi <> "" \/ (Js.trim excludeMMSI <> "" /\ context <> "") ->
      ruleMatches delta update valueUpdate r = false) as Hmain.
  { intros ex ctx mmsi Hex Hctx Hin Hsub Hcase.
    assert (contextHasExcludedMMSI r delta = true) as Hrej.
    { apply contextHasExcludedMMSI_true_iff. exists ex, ctx.
      assert (Js.trim ex <> "" /\ ctx <> "") as [Ht Hc].
      { destruct Hcase as [Hm | H]; [|exact H]. split.
        - now apply (entry_not_blank ex mmsi).
        - destruct Hsub as (a & b & ->). now apply append_not_empty. }
      repeat split; try assumption. exists mmsi. split; assumption. }
    rewrite ruleMatches_checks, Hrej. apply andb_false_r. }
  split; [exact Hmain|]. split; [|split].
  - intros a b Hex Hctx.
    apply (Hmain "12345" (a ++ "12345" ++ b) "12345" Hex Hctx).
    + left. reflexivity.
    + exists a, b. reflexivity.
    + left. discriminate.
  - intros ex Hex Htrim.
    destruct (contextHasExcludedMMSI r delta) eqn:E; [|reflexivity].
    apply contextHasExcludedMMSI_true_iff in E
      as (? & ? & H1 & _ & H2 & _). congruence.
  - intros Hctx.
    destruct (contextHasExcludedMMSI r delta) eqn:E; [|reflexivity].
    apply contextHasExcludedMMSI_true_iff in E
      as (? & ? & _ & H1 & _ & H2 & _).
    destruct Hctx as [Hctx | Hctx]; congruence.
Qed.

Lemma exclusion_rejects_witness :
  ruleMatches aisDelta gpsUpdate positionValue
              (defaultRule "all-vessels" "All Vessels (AIS)" "vessels.*" "*" ""
                           (Some "368396230"))
  = false
  /\ ruleMatches otherVesselDelta gpsUpdate positionValue emptyEntryRule = false
  /\ contextHasExcludedMMSI blankExclusionRule aisDelta = false
  /\ contextHasExcludedMMSI emptyEntryRule noContextDelta = false.
Proof.
  split; [|split; [|split]].
  - apply (proj1 (exclusion_rejects
                    (defaultRule "all-vessels" "All Vessels (AIS)" "vessels.*" "*" ""
                                 (Some "368396230"))
                    aisDelta gpsUpdate positionValue)
                 "368396230" "vessels.urn:mrn:imo:mmsi:368396230" "368396230").
    + reflexivity.
    + reflexivity.
    + left. reflexivity.
    + exists "vessels.urn:mrn:imo:mmsi:", "". reflexivity.
    + left. discriminate.
  - apply (proj1 (exclusion_rejects emptyEntryRule otherVesselDelta gpsUpdate positionValue)
                 "12345,, 368396230 " "vessels.urn:mrn:imo:mmsi:244670316" "").
    + reflexivity.
    + reflexivity.
    + right. left. reflexivity.
    + exists "", "vessels.urn:mrn:imo:mmsi:244670316". reflexivity.
    + right. split; [vm_compute; discriminate | discriminate].
  - apply (proj1 (proj2 (proj2 (exclusion_rejects blankExclusionRule aisDelta gpsUpdate
                                                  positionValue))) " ").
    + reflexivity.
    + reflexivity.
  - apply (proj2 (proj2 (proj2 (exclusion_rejects emptyEntryRule noContextDelta gpsUpdate
                                                  positionValue)))).
    left. reflexivity.
Defined.

(** The exclusion as the specification words it ("if [excludeKeys] is
    non-empty, split on commas, trim each") fails on a list that is not empty
    but blank: the list [" "] has the trimmed entry [""], every identifier
    contains [""], and the rule still matches. *)
Lemma exclusion_blank_list_counterexample :
  ExportRule.excludeMMSI blankExclusionRule = Some " "
  /\ " " <> ""
  /\ In "" (List.map Js.trim (Js.split "," " "))
  /\ Js.includes "vessels.urn:mrn:imo:mmsi:368396230" "" = true
  /\ SignalKDelta.context aisDelta = Some "vessels.urn:mrn:imo:mmsi:368396230"
  /\ ruleMatches aisDelta gpsUpdate positionValue blankExclusionRule = true.
Proof.
  repeat split; try reflexivity.
  - discriminate.
  - left. reflexivity.
Qed.

(** The no-break space is white space to [trim], as the tabulation and
    the space are: a source made of it is blank and passes for every update,
    an exclusion entry padded with it is trimmed before the containment
    test, and an exclusion list made of it is blank and rejects nothing. *)
Example no_break_space_is_trimmed :
  Js.trim noBreakSpace = ""
  /\ Js.trim (noBreakSpace ++ "368396230" ++ noBreakSpace) = "368396230"
  /\ sourceMatch noBreakSourceRule gpsUpdate = true
  /\ ruleMatches aisDelta gpsUpdate positionValue paddedExclusionRule = false
  /\ ruleMatches otherVesselDelta gpsUpdate positionValue paddedExclusionRule = true
  /\ ruleMatches aisDelta gpsUpdate positionValue noBreakExclusionRule = true.
Proof. repeat split; reflexivity. Qed.

(** ** The change filter *)

Lemma isDefined_true_iff (v : JsValue) : Json.isDefined v = true <-> v <> JUndefined.
Proof. destruct v; simpl; split; intros; congruence. Qed.

Lemma lastSentGet_insert (m : gmap string JsValue) (key : string) (v : JsValue) :
  lastSentGet (<[key := v]> m) key = v.
Proof. unfold lastSentGet. now rewrite lookup_insert_eq. Qed.

(** No baseline: the key is absent, or [undefined] is stored under it. *)
Lemma checkValueChange_no_baseline (st : PluginState) (context path : string) (value : JsValue) :
  lastSentGet (lastSentValues st) (valueKey context path) = JUndefined ->
  checkValueChange st context path value
  = ({| hasChanged := true; currentValue := value; previousValue := JUndefined |},
     withLastSentValues st (<[valueKey context path := value]> (lastSentValues st))).
Proof. intros H. unfold checkValueChange. rewrite H. reflexivity. Qed.

Lemma checkValueChange_same (st : PluginState) (context path : string) (value : JsValue) :
  lastSentGet (lastSentValues st) (valueKey context path) <> JUndefined ->
  Json.valueString value
  = Json.valueString (lastSentGet (lastSentValues st) (valueKey context path)) ->
  checkValueChange st context path value
  = ({| hasChanged := false; currentValue := value;
        previousValue := lastSentGet (lastSentValues st) (valueKey context path) |}, st).
Proof.
  intros Hdef Heq. unfold checkValueChange.
  apply isDefined_true_iff in Hdef. rewrite Hdef, Heq, String.eqb_refl. reflexivity.
Qed.

Lemma checkValueChange_differs (st : PluginState) (context path : string) (value : JsValue) :
  Json.valueString value
  <> Json.valueString (lastSentGet (lastSentValues st) (valueKey context path)) ->
  checkValueChange st context path value
  = ({| hasChanged := true; currentValue := value;
        previousValue := lastSentGet (lastSentValues st) (valueKey context path) |},
     withLastSentValues st (<[valueKey context path := value]> (lastSentValues st))).
Proof.
  intros Hne. unfold checkValueChange.
  apply String.eqb_neq in Hne. rewrite Hne.
  destruct (Json.isDefined _); reflexivity.
Qed.

(** Whatever the first call answers, the value it leaves under the key
    prints as the value just seen, and is defined when that value is. *)
Lemma checkValueChange_baseline (st : PluginState) (context path : string) (value : JsValue) :
  value <> JUndefined ->
  let st1 := snd (checkValueChange st context path value) in
  lastSentGet (lastSentValues st1) (valueKey context path) <> JUndefined
  /\ Json.valueString value
     = Json.valueString (lastSentGet (lastSentValues st1) (valueKey context path)).
Proof.
  intros Hv. unfold checkValueChange.
  destruct (Json.isDefined (lastSentGet _ _)) eqn:Hdef.
  - destruct (String.eqb_spec (Json.valueString value)
                (Json.valueString (lastSentGet (lastSentValues st) (valueKey context path))));
      simpl.
    + split; [now apply isDefined_true_iff | assumption].
    + rewrite lastSentGet_insert. split; [assumption | reflexivity].
  - simpl. rewrite lastSentGet_insert. split; [assumption | reflexivity].
Qed.

Lemma publishToMQTT_no_filter (st : PluginState) (delta : SignalKDelta.t)
    (update : SignalKUpdate.t) (valueUpdate : SignalKValue.t) (rule : ExportRule.t) :
  sendOnChangeSet rule = false ->
  publishToMQTT st delta update valueUpdate rule
  = (st, publishCall st (buildMessage st delta rule
                           (Js.orDefault (SignalKDelta.context delta) "vessels.self")
                           (SignalKValue.path valueUpdate) (SignalKValue.value valueUpdate))).
Proof. intros H. unfold publishToMQTT. now rewrite H. Qed.

Lemma publishToMQTT_filtered (st : PluginState) (delta : SignalKDelta.t)
    (update : SignalKUpdate.t) (valueUpdate : SignalKValue.t) (rule : ExportRule.t) :
  sendOnChangeSet rule = true ->
  publishToMQTT st delta update valueUpdate rule
  = let context := Js.orDefault (SignalKDelta.context delta) "vessels.self" in
    let path := SignalKValue.path valueUpdate in
    let value := SignalKValue.value valueUpdate in
    let st' := snd (checkValueChange st context path value) in
    if hasChanged (fst (checkValueChange st context path value))
    then (st', publishCall st' (buildMessage st' delta rule context path value))
    else (st', None).
Proof.
  intros H. unfold publishToMQTT. rewrite H. simpl.
  destruct (checkValueChange _ _ _ _) as [result st']. simpl.
  destruct (hasChanged result); reflexivity.
Qed.

(** C4, as the code has it. Under [sendOnChange = true], per key
    [context:path]: the first observation of a key reports a change and
    records the value; a value other than [undefined] that is sent again
    at once reports no change, so that two identical sends give one dispatch;
    a value whose printed form differs from that of the stored value reports
    a change, records the value and gives a further dispatch; a rule with
    [sendOnChange = false] dispatches every update and leaves the filter
    alone. *)
Theorem change_filter_dispatch (st : PluginState) (context path : string) (value : JsValue) :
  (lastSentValues st !! valueKey context path = None ->
   checkValueChange st context path value
   = ({| hasChanged := true; currentValue := value; previousValue := JUndefined |},
      withLastSentValues st (<[valueKey context path := value]> (lastSentValues st))))
  /\ (value <> JUndefined ->
      let st1 := snd (checkValueChange st context path value) in
      hasChanged (fst (checkValueChange st1 context path value)) = false
      /\ snd (checkValueChange st1 context path value) = st1)
  /\ (forall stored,
        lastSentValues st !! valueKey context path = Some stored ->
        Json.valueString value <> Json.valueString stored ->
        checkValueChange st context path value
        = ({| hasChanged := true; currentValue := value; previousValue := stored |},
           withLastSentValues st (<[valueKey context path := value]> (lastSentValues st))))
  /\ (forall delta update valueUpdate rule,
        ExportRule.sendOnChange rule = Some false ->
        publishToMQTT st delta update valueUpdate rule
        = (st, publishCall st (buildMessage st delta rule
                                 (Js.orDefault (SignalKDelta.context delta) "vessels.self")
                                 (SignalKValue.path valueUpdate)
                                 (SignalKValue.value valueUpdate))))
  /\ (forall delta update timestamp rule client other,
        ExportRule.sendOnChange rule = Some true ->
        mqttClient st = Some client ->
        context = Js.orDefault (SignalKDelta.context delta) "vessels.self" ->
        lastSentValues st !! valueKey context path = None ->
        value <> JUndefined ->
        Json.valueString other <> Json.valueString value ->
        let first := publishToMQTT st delta update (SignalKValue.mk path value timestamp) rule in
        let second :=
          publishToMQTT (fst first) delta update (SignalKValue.mk path value timestamp) rule in
        let third :=
          publishToMQTT (fst second) delta update (SignalKValue.mk path other timestamp) rule in
        is_Some (snd first) /\ snd second = None /\ is_Some (snd third)).
Proof.
  assert (value <> JUndefined ->
          let st1 := snd (checkValueChange st context path value) in
          checkValueChange st1 context path value
          = ({| hasChanged := false; currentValue := value;
                previousValue := lastSentGet (lastSentValues st1) (valueKey context path) |},
             st1)) as Hrepeat.
  { intros Hv st1.
    destruct (checkValueChange_baseline st context path value Hv) as [Hdef Hsame].
    now apply checkValueChange_same. }
  split; [|split; [|split; [|split]]].
  - intros Habsent. apply checkValueChange_no_baseline.
    unfold lastSentGet. now rewrite Habsent.
  - intros Hv st1. subst st1. rewrite (Hrepeat Hv). split; reflexivity.
  - intros stored Hstored Hne.
    assert (lastSentGet (lastSentValues st) (valueKey context path) = stored) as Hget
      by (unfold lastSentGet; now rewrite Hstored).
    rewrite <- Hget. apply checkValueChange_differs. now rewrite Hget.
  - intros delta update valueUpdate rule Hrule.
    apply publishToMQTT_no_filter. unfold sendOnChangeSet. now rewrite Hrule.
  - intros delta update timestamp rule client other Hrule Hclient Hctx Habsent Hv Hother.
    assert (sendOnChangeSet rule = true) as Hset
      by (unfold sendOnChangeSet; now rewrite Hrule).
    assert (lastSentGet (lastSentValues st) (valueKey context path) = JUndefined) as Hget
      by (unfold lastSentGet; now rewrite Habsent).
    pose proof (checkValueChange_no_baseline st context path value Hget) as Hfirst.
    cbv zeta.
    rewrite (publishToMQTT_filtered st _ _ _ _ Hset). simpl. rewrite <- Hctx, Hfirst. simpl.
    set (st1 := withLastSentValues st _).
    assert (st1 = snd (checkValueChange st context path value)) as Hst1
      by (now rewrite Hfirst).
    rewrite (publishToMQTT_filtered st1 _ _ _ _ Hset). simpl. rewrite <- Hctx.
    pose proof (Hrepeat Hv) as Hsecond. cbv zeta in Hsecond.
    rewrite <- Hst1 in Hsecond. rewrite Hsecond. simpl.
    rewrite (publishToMQTT_filtered st1 _ _ _ _ Hset). simpl. rewrite <- Hctx.
    assert (Json.valueString other
            <> Json.valueString (lastSentGet (lastSentValues st1) (valueKey context path)))
      as Hdiff by (subst st1; simpl; now rewrite lastSentGet_insert).
    rewrite (checkValueChange_differs st1 context path other Hdiff). simpl.
    unfold publishCall. simpl. rewrite Hclient. repeat split; eauto.
Qed.

Lemma change_filter_dispatch_witness :
  checkValueChange connectedState "vessels.self" "navigation.position" fortyTwoAndHalf
  = ({| hasChanged := true; currentValue := fortyTwoAndHalf; previousValue := JUndefined |},
     storedState)
  /\ (hasChanged (fst (checkValueChange storedState "vessels.self" "navigation.position"
                                        fortyTwoAndHalf)) = false
      /\ snd (checkValueChange storedState "vessels.self" "navigation.position"
                               fortyTwoAndHalf) = storedState)
  /\ checkValueChange storedState "vessels.self" "navigation.position" fortyThree
     = ({| hasChanged := true; currentValue := fortyThree; previousValue := fortyTwoAndHalf |},
        withLastSentValues storedState
          (<[valueKey "vessels.self" "navigation.position" := fortyThree]>
             (lastSentValues storedState)))
  /\ publishToMQTT storedState selfNavigationDelta pypilotUpdate positionValue everyUpdateRule
     = (storedState,
        publishCall storedState
          (buildMessage storedState selfNavigationDelta everyUpdateRule "vessels.self"
                        "navigation.position" fortyTwoAndHalf))
  /\ (let first := publishToMQTT connectedState selfNavigationDelta pypilotUpdate
                     (SignalKValue.mk "navigation.position" fortyTwoAndHalf None)
                     (defaultRule "pypilot" "PyPilot Data" "vessels.self" "*" "pypilot" None) in
      let second := publishToMQTT (fst first) selfNavigationDelta pypilotUpdate
                      (SignalKValue.mk "navigation.position" fortyTwoAndHalf None)
                      (defaultRule "pypilot" "PyPilot Data" "vessels.self" "*" "pypilot" None) in
      let third := publishToMQTT (fst second) selfNavigationDelta pypilotUpdate
                     (SignalKValue.mk "navigation.position" fortyThree None)
                     (defaultRule "pypilot" "PyPilot Data" "vessels.self" "*" "pypilot" None) in
      is_Some (snd first) /\ snd second = None /\ is_Some (snd third)).
Proof.
  split; [|split; [|split; [|split]]].
  - apply (proj1 (change_filter_dispatch connectedState "vessels.self" "navigation.position"
                                         fortyTwoAndHalf)).
    reflexivity.
  - apply (proj1 (proj2 (change_filter_dispatch connectedState "vessels.self"
                                                "navigation.position" fortyTwoAndHalf))).
    discriminate.
  - apply (proj1 (proj2 (proj2 (change_filter_dispatch storedState "vessels.self"
                                                       "navigation.position" fortyThree)))).
    + reflexivity.
    + vm_compute. discriminate.
  - apply (proj1 (proj2 (proj2 (proj2
             (change_filter_dispatch storedState "vessels.self" "navigation.position"
                                     fortyThree))))).
    reflexivity.
  - apply (proj2 (proj2 (proj2 (proj2
             (change_filter_dispatch connectedState "vessels.self" "navigation.position"
                                     fortyTwoAndHalf))))
             selfNavigationDelta pypilotUpdate None (defaultRule "pypilot" "PyPilot Data" "vessels.self" "*" "pypilot" None)
             {| connected := true |} fortyThree).
    + reflexivity.
    + reflexivity.
    + reflexivity.
    + reflexivity.
    + discriminate.
    + vm_compute. discriminate.
Defined.

(** The second of two identical sends is not suppressed when the value is
    [undefined]: both calls report a change and both hand a message to the
    client. *)
Lemma change_filter_undefined_counterexample :
  let rule := defaultRule "pypilot" "PyPilot Data" "vessels.self" "*" "pypilot" None in
  let st1 := snd (checkValueChange connectedState "vessels.self" "navigation.position"
                                   JUndefined) in
  ExportRule.sendOnChange rule = Some true
  /\ hasChanged (fst (checkValueChange connectedState "vessels.self" "navigation.position"
                                      JUndefined)) = true
  /\ hasChanged (fst (checkValueChange st1 "vessels.self" "navigation.position"
                                      JUndefined)) = true
  /\ is_Some (snd (publishToMQTT connectedState selfNavigationDelta pypilotUpdate
                                 undefinedValue rule))
  /\ is_Some (snd (publishToMQTT
                     (fst (publishToMQTT connectedState selfNavigationDelta pypilotUpdate
                                         undefinedValue rule))
                     selfNavigationDelta pypilotUpdate undefinedValue rule)).
Proof.
  repeat split; try reflexivity; vm_compute; eauto.
Qed.

(** The key is the text [context:path]: two pairs with the same text share
    one entry of the map. *)
Example change_key_shared :
  valueKey "vessels.urn" "mrn:x" = valueKey "vessels.urn:mrn" "x"
  /\ hasChanged (fst (checkValueChange
                        (snd (checkValueChange connectedState "vessels.urn" "mrn:x"
                                               fortyTwoAndHalf))
                        "vessels.urn:mrn" "x" fortyTwoAndHalf)) = false.
Proof. split; reflexivity. Qed.

(** ** Which values print as [undefined] *)

Lemma withoutU_app (a b : string) : withoutU (a ++ b) = withoutU a && withoutU b.
Proof.
  induction a as [|c a IH]; simpl; [reflexivity|].
  rewrite IH. apply andb_assoc.
Qed.

Lemma withoutU_zeros (n : nat) : withoutU (Json.zeros n) = true.
Proof. induction n; simpl; [reflexivity | assumption]. Qed.

Lemma withoutU_substring (s : string) : forall i n, withoutU s = true -> withoutU (substring i n s) = true.
Proof.
  induction s as [|c s IH]; intros i n H.
  - destruct i, n; reflexivity.
  - simpl in H. apply andb_true_iff in H as [Hc Hs].
    destruct i as [|i]; simpl.
    + destruct n as [|n]; simpl; [reflexivity|].
      rewrite Hc. simpl. now apply IH.
    + now apply IH.
Qed.

Lemma withoutU_drop (s : string) : forall n, withoutU s = true -> withoutU (Js.drop n s) = true.
Proof.
  induction s as [|c s IH]; intros n H.
  - destruct n; reflexivity.
  - destruct n as [|n]; simpl; [exact H|].
    simpl in H. apply andb_true_iff in H as [_ Hs]. now apply IH.
Qed.

Lemma withoutU_string_of_uint (d : Decimal.uint) : withoutU (NilEmpty.string_of_uint d) = true.
Proof. induction d; simpl; assumption || reflexivity. Qed.

Lemma withoutU_digitsOf (p : positive) : withoutU (Json.digitsOf p) = true.
Proof. apply withoutU_string_of_uint. Qed.

Lemma withoutU_numberToString (x : JsNumber) : withoutU (Json.numberToString x) = true.
Proof.
  destruct x as [| negative | | negative s n]; try reflexivity.
  - destruct negative; reflexivity.
  - unfold Json.numberToString.
    pose proof (withoutU_digitsOf s) as Hds.
    assert (withoutU (Json.sign negative) = true) as Hsign by (destruct negative; reflexivity).
    cbv zeta. rewrite withoutU_app, Hsign, andb_true_l.
    repeat match goal with
           | |- withoutU (if ?b then _ else _) = true => destruct b
           end;
      repeat rewrite withoutU_app;
      repeat (apply andb_true_intro; split);
      auto using withoutU_zeros, withoutU_substring, withoutU_drop, withoutU_digitsOf;
      destruct (n - 1 <? 0)%Z; reflexivity.
Qed.

Lemma valueString_undefined (v : JsValue) :
  Json.valueString v = "undefined" -> v = JUndefined \/ v = JString "undefined".
Proof.
  destruct v as [| | b | n | s | items | properties]; unfold Json.valueString; simpl.
  - now left.
  - discriminate.
  - destruct b; discriminate.
  - intros H. pose proof (withoutU_numberToString n) as Hn.
    rewrite H in Hn. discriminate.
  - intros ->. now right.
  - discriminate.
  - discriminate.
Qed.

(** ** The value [undefined] in the change filter *)

Lemma withLastSentValues_twice (st : PluginState) (m1 m2 : gmap string JsValue) :
  withLastSentValues (withLastSentValues st m1) m2 = withLastSentValues st m2.
Proof. reflexivity. Qed.

Lemma checkValueChange_undefined (st : PluginState) (context path : string) :
  lastSentGet (lastSentValues st) (valueKey context path) <> JString "undefined" ->
  checkValueChange st context path JUndefined
  = ({| hasChanged := true; currentValue := JUndefined;
        previousValue := lastSentGet (lastSentValues st) (valueKey context path) |},
     withLastSentValues st (<[valueKey context path := JUndefined]> (lastSentValues st))).
Proof.
  intros Hstored.
  destruct (Json.isDefined (lastSentGet (lastSentValues st) (valueKey context path))) eqn:Hdef.
  - apply checkValueChange_differs.
    intros Heq. symmetry in Heq. apply valueString_undefined in Heq as [Heq | Heq].
    + rewrite Heq in Hdef. discriminate.
    + contradiction.
  - assert (lastSentGet (lastSentValues st) (valueKey context path) = JUndefined) as Hget
      by (destruct (lastSentGet _ _); try discriminate; reflexivity).
    rewrite Hget. now apply checkValueChange_no_baseline.
Qed.

Lemma checkValues_undefined (n : nat) :
  forall (st : PluginState) (context path : string),
    lastSentGet (lastSentValues st) (valueKey context path) <> JString "undefined" ->
    checkValues st context path (repeat JUndefined (S n))
    = (repeat true (S n),
       withLastSentValues st (<[valueKey context path := JUndefined]> (lastSentValues st))).
Proof.
  induction n as [|n IH]; intros st context path Hstored.
  - simpl. rewrite (checkValueChange_undefined st context path Hstored). reflexivity.
  - change (repeat JUndefined (S (S n))) with (JUndefined :: repeat JUndefined (S n)).
    change (checkValues st context path (JUndefined :: repeat JUndefined (S n)))
      with (let '(result, st') := checkValueChange st context path JUndefined in
            let '(flags, st'') := checkValues st' context path (repeat JUndefined (S n)) in
            (hasChanged result :: flags, st'')).
    rewrite (checkValueChange_undefined st context path Hstored).
    rewrite IH.
    + rewrite withLastSentValues_twice. simpl lastSentValues.
      rewrite insert_insert_eq. reflexivity.
    + simpl lastSentValues. rewrite lastSentGet_insert. discriminate.
Qed.

(** C9, as the code has it. When the value is [undefined], the change
    filter reports a change unless the value stored under the key is the
    string ["undefined"], whose printed form is that of [undefined]; apart
    from that case every call in a run of consecutive [undefined] values
    reports a change, because a stored [undefined] reads as an absent entry:
    with [undefined] stored, any value at all reports a change. *)
Theorem undefined_never_baselines (st : PluginState) (context path : string) :
  (hasChanged (fst (checkValueChange st context path JUndefined)) = true
   <-> lastSentGet (lastSentValues st) (valueKey context path) <> JString "undefined")
  /\ (lastSentGet (lastSentValues st) (valueKey context path) <> JString "undefined" ->
      forall n, fst (checkValues st context path (repeat JUndefined n)) = repeat true n)
  /\ (forall value,
        lastSentValues st !! valueKey context path = Some JUndefined ->
        checkValueChange st context path value
        = ({| hasChanged := true; currentValue := value; previousValue := JUndefined |},
           withLastSentValues st (<[valueKey context path := value]> (lastSentValues st))))
  /\ (forall delta update timestamp rule client,
        ExportRule.sendOnChange rule = Some true ->
        mqttClient st = Some client ->
        context = Js.orDefault (SignalKDelta.context delta) "vessels.self" ->
        lastSentGet (lastSentValues st) (valueKey context path) <> JString "undefined" ->
        let first :=
          publishToMQTT st delta update (SignalKValue.mk path JUndefined timestamp) rule in
        let second :=
          publishToMQTT (fst first) delta update (SignalKValue.mk path JUndefined timestamp)
                        rule in
        is_Some (snd first) /\ is_Some (snd second)).
Proof.
  split; [|split; [|split]].
  - split.
    + intros Hchanged Hstored.
      rewrite checkValueChange_same in Hchanged.
      * discriminate.
      * rewrite Hstored. discriminate.
      * rewrite Hstored. reflexivity.
    + intros Hstored. now rewrite checkValueChange_undefined.
  - intros Hstored [|n]; [reflexivity|].
    now rewrite checkValues_undefined.
  - intros value Hstored. apply checkValueChange_no_baseline.
    unfold lastSentGet. now rewrite Hstored.
  - intros delta update timestamp rule client Hrule Hclient Hctx Hstored.
    assert (sendOnChangeSet rule = true) as Hset
      by (unfold sendOnChangeSet; now rewrite Hrule).
    cbv zeta.
    rewrite (publishToMQTT_filtered st _ _ _ _ Hset). simpl. rewrite <- Hctx.
    rewrite (checkValueChange_undefined st context path Hstored). simpl.
    set (st1 := withLastSentValues st _).
    assert (lastSentGet (lastSentValues st1) (valueKey context path) <> JString "undefined")
      as Hstored1 by (subst st1; simpl; rewrite lastSentGet_insert; discriminate).
    rewrite (publishToMQTT_filtered st1 _ _ _ _ Hset). simpl. rewrite <- Hctx.
    rewrite (checkValueChange_undefined st1 context path Hstored1). simpl.
    unfold publishCall. simpl. rewrite Hclient. split; eauto.
Qed.

Lemma undefined_never_baselines_witness :
  fst (checkValues storedState "vessels.self" "navigation.position" (repeat JUndefined 3))
  = repeat true 3
  /\ checkValueChange storedUndefinedState "vessels.self" "navigation.position"
                      fortyTwoAndHalf
     = ({| hasChanged := true; currentValue := fortyTwoAndHalf; previousValue := JUndefined |},
        withLastSentValues storedUndefinedState
          (<[valueKey "vessels.self" "navigation.position" := fortyTwoAndHalf]>
             (lastSentValues storedUndefinedState))).
Proof.
  split.
  - apply (proj1 (proj2 (undefined_never_baselines storedState "vessels.self"
                                                   "navigation.position"))).
    vm_compute. discriminate.
  - apply (proj1 (proj2 (proj2 (undefined_never_baselines storedUndefinedState "vessels.self"
                                                          "navigation.position")))).
    reflexivity.
Defined.

(** Once the string ["undefined"] is the stored value of a key, two
    consecutive [undefined] values are both suppressed. *)
Lemma undefined_after_string_counterexample :
  fst (checkValues connectedState "vessels.self" "navigation.position"
                   [JString "undefined"; JUndefined; JUndefined])
  = [true; false; false].
Proof. vm_compute. reflexivity. Qed.

(** ** An unset [sendOnChange] *)

(** C10. A rule whose [sendOnChange] field is absent is published exactly
    as the same rule with [sendOnChange = false]: the update is handed to the
    client whatever was sent before, the state and with it the last-value
    map stay as they were, and the outcome does not depend on what the map
    holds. *)
Theorem send_on_change_unset_is_off (st : PluginState) (delta : SignalKDelta.t)
    (update : SignalKUpdate.t) (valueUpdate : SignalKValue.t) (rule : ExportRule.t) :
  ExportRule.sendOnChange rule = None ->
  let message :=
    buildMessage st delta rule (Js.orDefault (SignalKDelta.context delta) "vessels.self")
                 (SignalKValue.path valueUpdate) (SignalKValue.value valueUpdate) in
  publishToMQTT st delta update valueUpdate rule
  = publishToMQTT st delta update valueUpdate (withSendOnChange rule (Some false))
  /\ publishToMQTT st delta update valueUpdate rule = (st, publishCall st message)
  /\ (forall client, mqttClient st = Some client ->
        publishToMQTT st delta update valueUpdate rule = (st, Some message))
  /\ (forall values,
        publishToMQTT (withLastSentValues st values) delta update valueUpdate rule
        = (withLastSentValues st values, publishCall st message))
  /\ (forall client contextRules sent,
        mqttClient st = Some client ->
        findRule delta update valueUpdate contextRules = Some rule ->
        handleValue delta contextRules update
                    (handleValue delta contextRules update (st, sent) valueUpdate)
                    valueUpdate
        = (st, (sent ++ [message; message])%list)).
Proof.
  intros Hunset message.
  assert (sendOnChangeSet rule = false) as Hoff
    by (unfold sendOnChangeSet; now rewrite Hunset).
  assert (forall st', publishToMQTT st' delta update valueUpdate rule
                      = (st', publishCall st'
                                (buildMessage st' delta rule
                                   (Js.orDefault (SignalKDelta.context delta) "vessels.self")
                                   (SignalKValue.path valueUpdate)
                                   (SignalKValue.value valueUpdate)))) as Hpub
    by (intros st'; now apply publishToMQTT_no_filter).
  split; [|split; [|split; [|split]]].
  - rewrite Hpub.
    rewrite (publishToMQTT_no_filter st delta update valueUpdate
               (withSendOnChange rule (Some false)) eq_refl).
    reflexivity.
  - apply Hpub.
  - intros client Hclient. rewrite Hpub. unfold publishCall. now rewrite Hclient.
  - intros values. rewrite Hpub. reflexivity.
  - intros client contextRules sent Hclient Hfind.
    rewrite !(handleValue_selected _ _ _ _ _ _ Hfind). simpl.
    rewrite !Hpub. unfold publishCall. simpl. rewrite !Hclient. simpl.
    rewrite <- app_assoc. reflexivity.
Qed.

Lemma send_on_change_unset_is_off_witness :
  handleValue selfNavigationDelta [unsetSendOnChangeRule] pypilotUpdate
              (handleValue selfNavigationDelta [unsetSendOnChangeRule] pypilotUpdate
                           (connectedState, []) depthValue)
              depthValue
  = (connectedState,
     [ {| topic := "vessels/self/environment/depth/belowKeel"; payload := "42.5";
          pub_qos := 1; pub_retain := true |};
       {| topic := "vessels/self/environment/depth/belowKeel"; payload := "42.5";
          pub_qos := 1; pub_retain := true |} ]).
Proof.
  apply (proj2 (proj2 (proj2 (proj2
           (send_on_change_unset_is_off connectedState selfNavigationDelta pypilotUpdate
                                        depthValue unsetSendOnChangeRule eq_refl))))
           {| connected := true |} [unsetSendOnChangeRule] []).
  - reflexivity.
  - reflexivity.
Defined.

(** ** Topic rendering *)

#[local] Arguments Ascii.eqb : simpl never.

Lemma replaceDots_app (a b : string) :
  Js.replaceDots (a ++ b) = Js.replaceDots a ++ Js.replaceDots b.
Proof. induction a as [|c a IH]; simpl; [reflexivity | now rewrite IH]. Qed.

Lemma replaceDots_no_dot (s : string) : Js.includes (Js.replaceDots s) "." = false.
Proof.
  induction s as [|c s IH]; [reflexivity|].
  simpl. rewrite IH, orb_false_r.
  destruct (Ascii.eqb_spec c ".") as [Hc | Hc].
  - reflexivity.
  - apply andb_false_iff. left. apply Ascii.eqb_neq. congruence.
Qed.

Lemma getSubstitution_plain (matched before after replacement : string) :
  withoutDollar replacement = true ->
  Js.getSubstitution matched before after replacement = replacement.
Proof.
  induction replacement as [|c replacement IH]; intros H; [reflexivity|].
  simpl in H. apply andb_true_iff in H as [Hc Hrest].
  apply negb_true_iff in Hc. simpl. rewrite Hc, IH; [reflexivity | exact Hrest].
Qed.

Lemma replaceFrom_indexOf (s : string) :
  forall before pattern replacement,
    Js.replaceFrom before s pattern replacement
    = match indexOf s pattern with
      | None => s
      | Some i =>
          substring 0 i s
          ++ Js.getSubstitution pattern (before ++ substring 0 i s)
                                (Js.drop (i + String.length pattern) s) replacement
          ++ Js.drop (i + String.length pattern) s
      end.
Proof.
  induction s as [|c s IH]; intros before pattern replacement.
  - simpl. destruct (Js.startsWith "" pattern) eqn:E; [|reflexivity].
    simpl. now rewrite append_empty_r.
  - change (Js.replaceFrom before (String c s) pattern replacement)
      with (if Js.startsWith (String c s) pattern
            then Js.getSubstitution pattern before
                   (Js.drop (String.length pattern) (String c s)) replacement
                 ++ Js.drop (String.length pattern) (String c s)
            else String c (Js.replaceFrom (before ++ String c "") s pattern replacement)).
    change (indexOf (String c s) pattern)
      with (if Js.startsWith (String c s) pattern then Some O
            else option_map S (indexOf s pattern)).
    destruct (Js.startsWith (String c s) pattern) eqn:E.
    + simpl. now rewrite append_empty_r.
    + rewrite IH. destruct (indexOf s pattern) as [i|]; simpl; [|reflexivity].
      rewrite append_assoc. reflexivity.
Qed.

Lemma buildTopic_default (st : PluginState) (rule : ExportRule.t) (context path : string) :
  Js.truthyOpt (ExportRule.topicTemplate rule) = false ->
  buildTopic st rule context path
  = topicPrefixPart st ++ Js.replaceDots context ++ "/" ++ Js.replaceDots path.
Proof.
  intros H. unfold buildTopic, topicPrefixPart.
  assert (Js.replaceDots (context ++ "/" ++ path)
          = Js.replaceDots context ++ "/" ++ Js.replaceDots path) as ->
    by (now rewrite !replaceDots_app).
  destruct (ExportRule.topicTemplate rule) as [t|]; [|reflexivity].
  simpl in H. now rewrite H.
Qed.

Lemma replace_indexOf (s token value : string) :
  Js.replace s token value
  = match indexOf s token with
    | None => s
    | Some i =>
        substring 0 i s
        ++ Js.getSubstitution token (substring 0 i s)
                              (Js.drop (i + String.length token) s) value
        ++ Js.drop (i + String.length token) s
    end.
Proof. unfold Js.replace. now rewrite replaceFrom_indexOf. Qed.

Lemma replace_plain (s token value : string) :
  withoutDollar value = true -> Js.replace s token value = replaceFirst s token value.
Proof.
  intros H. rewrite replace_indexOf. unfold replaceFirst.
  destruct (indexOf s token); [|reflexivity].
  now rewrite getSubstitution_plain.
Qed.

(** C8, as the code has it. The topic starts with the configured prefix
    and a ['/'] when the prefix is not empty, the prefix being copied as it
    is; without a template (or with an empty one) the rest is the context, a
    ['/'] and the path with every ['.'] replaced by ['/']; with a template,
    for a context and a path that hold no ['$'], the rest is the template in
    which the first [{context}] and then the first [{path}] are replaced by
    their values, once each, and in which every ['.'] is then replaced by
    ['/']. *)
Theorem topic_rendering (st : PluginState) (rule : ExportRule.t) (context path : string) :
  (ExportRule.topicTemplate rule = None \/ ExportRule.topicTemplate rule = Some "" ->
   buildTopic st rule context path
   = topicPrefixPart st ++ Js.replaceDots context ++ "/" ++ Js.replaceDots path)
  /\ (forall template,
        ExportRule.topicTemplate rule = Some template -> template <> "" ->
        withoutDollar context = true -> withoutDollar path = true ->
        buildTopic st rule context path
        = topicPrefixPart st
          ++ Js.replaceDots
               (replaceFirst (replaceFirst template "{context}" context) "{path}" path))
  /\ (forall s, Js.includes (Js.replaceDots s) "." = false)
  /\ buildTopic (prefixState "") (templateRule None) "vessels.self" "navigation.position"
     = "vessels/self/navigation/position"
  /\ buildTopic (prefixState "marine") (templateRule None) "vessels.self" "navigation.position"
     = "marine/vessels/self/navigation/position"
  /\ buildTopic (prefixState "") (templateRule (Some "m/{context}/{path}"))
                "vessels.self" "navigation.position"
     = "m/vessels/self/navigation/position"
  /\ buildTopic (prefixState "") (templateRule (Some "{context}/{context}/{path}/{path}"))
                "vessels.self" "navigation.position"
     = "vessels/self/{context}/navigation/position/{path}".
Proof.
  split; [|split; [|split]].
  - intros H. apply buildTopic_default. destruct H as [-> | ->]; reflexivity.
  - intros template Htemplate Hne Hcontext Hpath. unfold buildTopic, topicPrefixPart.
    rewrite Htemplate. apply truthy_true_iff in Hne. rewrite Hne.
    now rewrite !replace_plain.
  - apply replaceDots_no_dot.
  - repeat split; reflexivity.
Qed.

Lemma topic_rendering_witness :
  buildTopic (prefixState "marine") (templateRule (Some "m/{context}/{path}"))
             "vessels.self" "navigation.position"
  = "marine/" ++ Js.replaceDots
                   (replaceFirst (replaceFirst "m/{context}/{path}" "{context}" "vessels.self")
                                 "{path}" "navigation.position")
  /\ buildTopic (prefixState "marine") (templateRule (Some "")) "vessels.self"
                "navigation.position"
     = "marine/" ++ "vessels/self" ++ "/" ++ "navigation/position".
Proof.
  split.
  - apply (proj1 (proj2 (topic_rendering (prefixState "marine")
                                         (templateRule (Some "m/{context}/{path}"))
                                         "vessels.self" "navigation.position"))
                 "m/{context}/{path}").
    + reflexivity.
    + discriminate.
    + reflexivity.
    + reflexivity.
  - apply (proj1 (topic_rendering (prefixState "marine") (templateRule (Some ""))
                                  "vessels.self" "navigation.position")).
    right. reflexivity.
Defined.

(** A ['.'] of the topic prefix is not replaced: the topic is not the text
    [prefix/context/path] with every ['.'] replaced by ['/']. *)
Lemma topic_prefix_dot_counterexample :
  buildTopic (prefixState "boat.one") (templateRule None) "vessels.self" "navigation.position"
  = "boat.one/vessels/self/navigation/position"
  /\ Js.replaceDots ("boat.one" ++ "/" ++ "vessels.self" ++ "/" ++ "navigation.position")
     = "boat/one/vessels/self/navigation/position"
  /\ buildTopic (prefixState "boat.one") (templateRule None) "vessels.self"
                "navigation.position"
     <> Js.replaceDots ("boat.one" ++ "/" ++ "vessels.self" ++ "/" ++ "navigation.position").
Proof.
  split; [reflexivity|]. split; [reflexivity|]. vm_compute. discriminate.
Qed.

(** A context that holds ['$&'] is not inserted as it is. *)
Example topic_replacement_pattern :
  buildTopic (prefixState "") (templateRule (Some "m/{context}/{path}")) "a$&b" "p"
  = "m/a{context}b/p".
Proof. reflexivity. Qed.

(** ** The subscription planner *)

Section JsMapFacts.
Context {V : Type}.
Implicit Types (m : JsMap.t V) (k : string) (v : V).

Lemma get_set_eq m k v : JsMap.get (JsMap.set m k v) k = Some v.
Proof.
  induction m as [|[k' v'] m IH]; simpl.
  - now rewrite String.eqb_refl.
  - destruct (String.eqb_spec k' k) as [-> | Hne]; simpl.
    + now rewrite String.eqb_refl.
    + apply String.eqb_neq in Hne. now rewrite Hne.
Qed.

Lemma get_set_ne m k k' v : k <> k' -> JsMap.get (JsMap.set m k v) k' = JsMap.get m k'.
Proof.
  intros Hne. induction m as [|[k0 v0] m IH]; simpl.
  - apply String.eqb_neq in Hne. now rewrite Hne.
  - destruct (String.eqb_spec k0 k) as [-> | Hk]; simpl.
    + apply String.eqb_neq in Hne. now rewrite Hne.
    + now rewrite IH.
Qed.

Lemma set_present m k v :
  In k (JsMap.keys m) -> JsMap.keys (JsMap.set m k v) = JsMap.keys m.
Proof.
  induction m as [|[k' v'] m IH]; simpl; [tauto|].
  intros Hin. destruct (String.eqb_spec k' k) as [-> | Hne]; simpl; [reflexivity|].
  destruct Hin as [Heq | Hin]; [contradiction|]. now rewrite IH.
Qed.

Lemma set_absent m k v : ~ In k (JsMap.keys m) -> JsMap.set m k v = (m ++ [(k, v)])%list.
Proof.
  induction m as [|[k' v'] m IH]; simpl; [reflexivity|].
  intros Hin. destruct (String.eqb_spec k' k) as [-> | Hne].
  - exfalso. apply Hin. now left.
  - rewrite IH; [reflexivity | tauto].
Qed.

Lemma set_keys_NoDup m k v : NoDup (JsMap.keys m) -> NoDup (JsMap.keys (JsMap.set m k v)).
Proof.
  intros Hm. destruct (in_dec string_dec k (JsMap.keys m)) as [Hin | Hin].
  - now rewrite set_present.
  - rewrite set_absent by assumption. unfold JsMap.keys.
    rewrite map_app. simpl. apply NoDup_app. split; [assumption|]. split.
    + intros x Hx Hk. apply list_elem_of_In in Hx, Hk.
      destruct Hk as [<- | []]. contradiction.
    + apply NoDup_singleton.
Qed.

(** Setting, one after the other, the entries of a map with distinct keys
    into a map that has none of them appends the entries. *)
Lemma fold_set_fresh (entries : JsMap.t V) :
  forall m,
    NoDup (JsMap.keys entries) ->
    (forall k, In k (JsMap.keys entries) -> ~ In k (JsMap.keys m)) ->
    fold_left (fun acc kv => JsMap.set acc (fst kv) (snd kv)) entries m
    = (m ++ entries)%list.
Proof.
  induction entries as [|[k v] entries IH]; intros m Hnd Hfresh; simpl.
  - now rewrite app_nil_r.
  - simpl in Hnd. apply NoDup_cons in Hnd as [Hk Hnd]. rewrite list_elem_of_In in Hk.
    rewrite set_absent by (apply Hfresh; now left).
    rewrite IH.
    + now rewrite <- app_assoc.
    + exact Hnd.
    + intros k' Hk'. unfold JsMap.keys. rewrite map_app, in_app_iff. simpl.
      intros [Hin | [<- | []]].
      * apply (Hfresh k'); [now right | exact Hin].
      * contradiction.
Qed.
End JsMapFacts.

Lemma addToGroup_get (groups : JsMap.t (list ExportRule.t)) (rule : ExportRule.t)
    (context : string) :
  JsMap.get (addToGroup groups rule) context
  = if String.eqb (ruleContext rule) context
    then Some (default [] (JsMap.get groups context) ++ [rule])%list
    else JsMap.get groups context.
Proof.
  unfold addToGroup, JsMap.has.
  destruct (JsMap.get groups (ruleContext rule)) as [rules|] eqn:Hget; simpl.
  - rewrite Hget.
    destruct (String.eqb_spec (ruleContext rule) context) as [<- | Hne].
    + now rewrite get_set_eq, Hget.
    + now rewrite get_set_ne.
  - rewrite get_set_eq.
    destruct (String.eqb_spec (ruleContext rule) context) as [<- | Hne].
    + now rewrite get_set_eq, Hget.
    + now rewrite !get_set_ne.
Qed.

Lemma addToGroup_keys_NoDup (groups : JsMap.t (list ExportRule.t)) (rule : ExportRule.t) :
  NoDup (JsMap.keys groups) -> NoDup (JsMap.keys (addToGroup groups rule)).
Proof.
  intros H. unfold addToGroup.
  destruct (negb (JsMap.has groups (ruleContext rule)));
    destruct (JsMap.get _ (ruleContext rule));
    auto using @set_keys_NoDup.
Qed.

Lemma fold_addToGroup_keys_NoDup (rules : list ExportRule.t) :
  forall groups, NoDup (JsMap.keys groups) ->
                 NoDup (JsMap.keys (fold_left addToGroup rules groups)).
Proof.
  induction rules as [|r rules IH]; intros groups H; simpl; [exact H|].
  apply IH. now apply addToGroup_keys_NoDup.
Qed.

Lemma fold_addToGroup_get (rules : list ExportRule.t) :
  forall (groups : JsMap.t (list ExportRule.t)) (context : string),
    JsMap.get (fold_left addToGroup rules groups) context
    = match JsMap.get groups context,
            List.filter (fun r => String.eqb (ruleContext r) context) rules with
      | None, [] => None
      | present, added => Some (default [] present ++ added)%list
      end.
Proof.
  induction rules as [|r rules IH]; intros groups context; simpl.
  - destruct (JsMap.get groups context); simpl; [now rewrite app_nil_r | reflexivity].
  - rewrite IH, addToGroup_get.
    destruct (String.eqb (ruleContext r) context).
    + destruct (JsMap.get groups context);
        destruct (List.filter _ rules); simpl;
        rewrite <- ?app_assoc; reflexivity.
    + reflexivity.
Qed.

Lemma filter_enabled_context (context : string) (rules : list ExportRule.t) :
  List.filter (fun r => String.eqb (ruleContext r) context)
              (List.filter ExportRule.enabled rules)
  = enabledRulesOf context rules.
Proof.
  unfold enabledRulesOf. induction rules as [|r rules IH]; simpl; [reflexivity|].
  destruct (ExportRule.enabled r); simpl; [|exact IH].
  destruct (String.eqb (ruleContext r) context); now rewrite IH.
Qed.

Lemma groupByContext_get (rules : list ExportRule.t) (context : string) :
  JsMap.get (groupByContext rules) context
  = match enabledRulesOf context rules with
    | [] => None
    | group => Some group
    end.
Proof.
  unfold groupByContext. rewrite fold_addToGroup_get, filter_enabled_context. reflexivity.
Qed.

Lemma groupByContext_keys_NoDup (rules : list ExportRule.t) :
  NoDup (JsMap.keys (groupByContext rules)).
Proof. apply fold_addToGroup_keys_NoDup. constructor. Qed.

Lemma fold_installGroup (groups : JsMap.t (list ExportRule.t)) :
  forall st,
    fold_left installGroup groups st
    = mkState (mqttClient st) (exportRules st)
              (fold_left (fun acc kv => JsMap.set acc (fst kv) (snd kv)) groups
                         (activeSubscriptions st))
              (lastSentValues st) (currentConfig st)
              (unsubscribes st ++ List.map installedFor groups)%list.
Proof.
  induction groups as [|[context rules] groups IH]; intros st; simpl.
  - rewrite app_nil_r. now destruct st.
  - rewrite IH. simpl. now rewrite <- app_assoc.
Qed.

Lemma updateSubscriptions_plan (st : PluginState) :
  updateSubscriptions st
  = mkState (mqttClient st) (exportRules st) (groupByContext (exportRules st))
            (lastSentValues st) (currentConfig st)
            (List.map installedFor (groupByContext (exportRules st))).
Proof.
  unfold updateSubscriptions. rewrite fold_installGroup. simpl.
  rewrite fold_set_fresh; [reflexivity | apply groupByContext_keys_NoDup |].
  intros k _ [].
Qed.

(** C2, as the code has it. The planner groups the enabled rules by
    context (["vessels.self"] for an empty context), each group holding its
    rules in stored order, and installs one subscription per group, which
    requests one item per rule of the group, in order, with that rule's path
    and that rule's period (1000 when the period is 0): two enabled rules of
    one context with the same path give two items, each with its own
    period. *)
Theorem subscription_plan (st : PluginState) :
  let groups := groupByContext (exportRules st) in
  let st' := updateSubscriptions st in
  NoDup (JsMap.keys groups)
  /\ (forall context,
        JsMap.get groups context
        = match enabledRulesOf context (exportRules st) with
          | [] => None
          | group => Some group
          end)
  /\ activeSubscriptions st' = groups
  /\ unsubscribes st' = List.map installedFor groups
  /\ exportRules st' = exportRules st
  /\ (forall installed,
        In installed (unsubscribes st') ->
        callbackRules installed
        = enabledRulesOf (sub_context (request installed)) (exportRules st)
        /\ subscribe (request installed)
           = List.map subscriptionItem (callbackRules installed)
        /\ List.length (subscribe (request installed))
           = List.length (callbackRules installed))
  /\ (forall rule,
        subscriptionItem rule
        = {| item_path := ExportRule.path rule;
             item_period := if (ExportRule.period rule =? 0)%Z then 1000%Z
                            else ExportRule.period rule |}).
Proof.
  intros groups st'. subst st'. rewrite updateSubscriptions_plan. simpl. fold groups.
  split; [apply groupByContext_keys_NoDup|].
  split; [apply groupByContext_get|].
  repeat (split; [reflexivity|]).
  split; [|reflexivity].
  intros installed Hin. apply in_map_iff in Hin as [[context rules] [<- Hgroup]]. simpl.
  assert (JsMap.get groups context = Some rules) as Hget.
  { pose proof (groupByContext_keys_NoDup (exportRules st)) as Hnd. fold groups in Hnd.
    clear -Hgroup Hnd. induction groups as [|[k v] m IH]; [destruct Hgroup|].
    simpl in *. apply NoDup_cons in Hnd as [Hk Hnd].
    destruct Hgroup as [[= -> ->] | Hin].
    - now rewrite String.eqb_refl.
    - destruct (String.eqb_spec k context) as [-> | Hne]; [|now apply IH].
      exfalso. apply Hk. apply list_elem_of_In.
      apply in_map_iff. exists (context, rules). split; [reflexivity | exact Hin]. }
  unfold groups in Hget. rewrite groupByContext_get in Hget.
  repeat split.
  - destruct (enabledRulesOf context (exportRules st)); congruence.
  - now rewrite length_map.
Qed.

Lemma subscription_plan_witness :
  subscribe (request (installedFor ("vessels.self",
                                    [positionRule "slow" 1000; positionRule "fast" 500])))
  = List.map subscriptionItem [positionRule "slow" 1000; positionRule "fast" 500].
Proof.
  apply (proj1 (proj2 (proj2 (proj2 (proj2 (proj2 (subscription_plan samePathState))))))
               (installedFor ("vessels.self",
                              [positionRule "slow" 1000; positionRule "fast" 500]))).
  left. reflexivity.
Defined.

(** Two enabled rules of one context with the same path are requested as
    two items, the first with the larger period: not as the single item of
    the path with the smaller period. *)
Lemma subscription_same_path_counterexample :
  List.map (fun installed => (sub_context (request installed), subscribe (request installed)))
           (unsubscribes (updateSubscriptions samePathState))
  = [("vessels.self",
      [ {| item_path := "navigation.position"; item_period := 1000 |};
        {| item_path := "navigation.position"; item_period := 500 |} ])]
  /\ List.map (fun installed => subscribe (request installed))
              (unsubscribes (updateSubscriptions samePathState))
     <> [[ {| item_path := "navigation.position"; item_period := 500 |} ]].
Proof. split; [reflexivity | discriminate]. Qed.

(** The default rules already repeat a path within a group. *)
Example default_rules_plan :
  List.map (fun installed =>
              (sub_context (request installed),
               List.map item_path (subscribe (request installed))))
           (unsubscribes (updateSubscriptions connectedState))
  = [("vessels.self", ["navigation*"; "*"; "*"; "*"]);
     ("vessels.*", ["*"]);
     ("vessels.urn:*", ["*"])].
Proof. reflexivity. Qed.

(** ** The rule-update route *)

(** The engine reads the client, the last-value map and the topic prefix
    of the state, none of which the assignment of a new rule list touches:
    handling a delta commutes with that assignment. *)

Lemma checkValueChange_assignRules (st : PluginState) (newRules : list ExportRule.t)
    (context path : string) (value : JsValue) :
  checkValueChange (assignRules st newRules) context path value
  = (fst (checkValueChange st context path value),
     assignRules (snd (checkValueChange st context path value)) newRules).
Proof.
  unfold checkValueChange. simpl.
  destruct (Json.isDefined _); [|reflexivity].
  destruct (String.eqb _ _); reflexivity.
Qed.

Lemma buildMessage_assignRules (st : PluginState) (newRules : list ExportRule.t)
    (delta : SignalKDelta.t) (rule : ExportRule.t) (context path : string) (value : JsValue) :
  buildMessage (assignRules st newRules) delta rule context path value
  = buildMessage st delta rule context path value.
Proof.
  unfold buildMessage, buildTopic. simpl.
  destruct (currentConfig st); reflexivity.
Qed.

Lemma publishToMQTT_assignRules (st : PluginState) (newRules : list ExportRule.t)
    (delta : SignalKDelta.t) (update : SignalKUpdate.t) (valueUpdate : SignalKValue.t)
    (rule : ExportRule.t) :
  publishToMQTT (assignRules st newRules) delta update valueUpdate rule
  = liftAssign newRules (publishToMQTT st delta update valueUpdate rule).
Proof.
  unfold publishToMQTT, liftAssign.
  destruct (sendOnChangeSet rule).
  - rewrite checkValueChange_assignRules.
    destruct (checkValueChange st _ _ _) as [result st']. simpl.
    destruct (hasChanged result); simpl; [|reflexivity].
    now rewrite buildMessage_assignRules.
  - simpl. now rewrite buildMessage_assignRules.
Qed.

Lemma handleValue_assignRules (newRules : list ExportRule.t) (delta : SignalKDelta.t)
    (contextRules : list ExportRule.t) (update : SignalKUpdate.t)
    (acc : PluginState * list MqttPublish) (valueUpdate : SignalKValue.t) :
  handleValue delta contextRules update (liftAssign newRules acc) valueUpdate
  = liftAssign newRules (handleValue delta contextRules update acc valueUpdate).
Proof.
  unfold handleValue.
  destruct (findRule delta update valueUpdate contextRules) as [rule|]; [|reflexivity].
  simpl. rewrite publishToMQTT_assignRules.
  destruct (publishToMQTT (fst acc) delta update valueUpdate rule). reflexivity.
Qed.

Lemma handleUpdate_assignRules (newRules : list ExportRule.t) (delta : SignalKDelta.t)
    (contextRules : list ExportRule.t) (acc : PluginState * list MqttPublish)
    (update : SignalKUpdate.t) :
  handleUpdate delta contextRules (liftAssign newRules acc) update
  = liftAssign newRules (handleUpdate delta contextRules acc update).
Proof.
  unfold handleUpdate.
  destruct (SignalKUpdate.values update) as [values|]; [|reflexivity].
  revert acc. induction values as [|v values IH]; intros acc; simpl; [reflexivity|].
  now rewrite handleValue_assignRules, IH.
Qed.

Lemma handleSignalKData_assignRules (st : PluginState) (newRules : list ExportRule.t)
    (delta : SignalKDelta.t) (contextRules : list ExportRule.t) :
  handleSignalKData (assignRules st newRules) delta contextRules
  = liftAssign newRules (handleSignalKData st delta contextRules).
Proof.
  unfold handleSignalKData. simpl.
  destruct (SignalKDelta.updates delta) as [updates|]; [|reflexivity].
  destruct (mqttClient st) as [client|]; [|reflexivity].
  destruct (connected client); [|reflexivity].
  change (assignRules st newRules, @nil MqttPublish)
    with (liftAssign newRules (st, @nil MqttPublish)).
  generalize (st, @nil MqttPublish).
  induction updates as [|u updates IH]; intros acc; simpl; [reflexivity|].
  now rewrite handleUpdate_assignRules, IH.
Qed.

(** The assignments come first: whatever the save does, the rule list of
    the state and of the configuration is the new one afterwards. *)
Lemma postRules_assigns_first (st : PluginState) (newRules : list ExportRule.t)
    (save : SaveOutcome) :
  exportRules (fst (postRules st (Some newRules) save)) = newRules
  /\ currentConfig (fst (postRules st (Some newRules) save))
     = option_map (fun c => MQTTExportConfig.withExportRules c newRules) (currentConfig st).
Proof.
  destruct save; simpl; try (split; reflexivity).
  rewrite updateSubscriptions_plan. split; reflexivity.
Qed.

(** C3, as the code has it. When persisting fails (the save calls back
    with an error, or throws), the active subscriptions, the installed
    subscriptions with the rule arrays their callbacks use, the last-value
    map and the client are left as they were, no rebuild takes place, every
    delta is dispatched as before the request, and the caller gets status
    500 with [success = false]; the rebuild takes place when the save
    succeeds. A body whose [rules] is not an array changes nothing and gets
    status 400. *)
Theorem rules_update_persist_failure (st : PluginState) (newRules : list ExportRule.t) :
  let failed := postRules st (Some newRules) SaveFailed in
  activeSubscriptions (fst failed) = activeSubscriptions st
  /\ unsubscribes (fst failed) = unsubscribes st
  /\ lastSentValues (fst failed) = lastSentValues st
  /\ mqttClient (fst failed) = mqttClient st
  /\ (forall delta contextRules,
        snd (handleSignalKData (fst failed) delta contextRules)
        = snd (handleSignalKData st delta contextRules)
        /\ lastSentValues (fst (handleSignalKData (fst failed) delta contextRules))
           = lastSentValues (fst (handleSignalKData st delta contextRules)))
  /\ snd failed
     = {| status := 500; success := false; message := None;
          error := Some "Failed to save configuration" |}
  /\ (forall msg,
        fst (postRules st (Some newRules) (SaveThrew msg)) = fst failed
        /\ snd (postRules st (Some newRules) (SaveThrew msg))
           = {| status := 500; success := false; message := None; error := Some msg |})
  /\ postRules st (Some newRules) Saved
     = (updateSubscriptions (assignRules st newRules),
        {| status := 200; success := true;
           message := Some "Export rules updated and saved"; error := None |})
  /\ (forall save,
        postRules st None save
        = (st, {| status := 400; success := false; message := None;
                  error := Some "Rules must be an array" |})).
Proof.
  intros failed. subst failed. simpl.
  repeat (split; [reflexivity|]).
  split; [|repeat split].
  intros delta contextRules. rewrite handleSignalKData_assignRules. split; reflexivity.
Qed.

(** After a failed save the rule list in memory is the new one: the prior
    rule set is no longer the rule set of the state, although the
    subscriptions still are those of the prior rules. *)
Lemma rules_update_memory_counterexample :
  let newRules := [positionRule "fast" 500] in
  let failed := postRules runningState (Some newRules) SaveFailed in
  exportRules runningState = getDefaultExportRules
  /\ exportRules (fst failed) = newRules
  /\ exportRules (fst failed) <> exportRules runningState
  /\ option_map MQTTExportConfig.exportRules (currentConfig (fst failed)) = Some newRules
  /\ activeSubscriptions (fst failed) = groupByContext getDefaultExportRules
  /\ success (snd failed) = false.
Proof. repeat split; try reflexivity. discriminate. Qed.

(** * Further properties *)

(** ** [handleSignalKData] as one pass over the values of the delta *)

Lemma handleSignalKData_fold (st : PluginState) (delta : SignalKDelta.t)
    (contextRules : list ExportRule.t) :
  clientConnected st = true ->
  handleSignalKData st delta contextRules
  = fold_left (fun acc uv => handleValue delta contextRules (fst uv) acc (snd uv))
              (deltaValues delta) (st, []).
Proof.
  unfold clientConnected, handleSignalKData, deltaValues. intros Hconnected.
  destruct (mqttClient st) as [client|]; [|discriminate]. rewrite Hconnected.
  destruct (SignalKDelta.updates delta) as [updates|]; [|reflexivity].
  generalize (st, @nil MqttPublish).
  induction updates as [|u updates IH]; intros acc; simpl; [reflexivity|].
  rewrite fold_left_app, <- IH. f_equal.
  unfold handleUpdate. destruct (SignalKUpdate.values u) as [values|]; [|reflexivity].
  clear. revert acc. induction values as [|v values IH]; intros acc; simpl; [reflexivity|].
  apply IH.
Qed.

Lemma handleSignalKData_idle (st : PluginState) (delta : SignalKDelta.t)
    (contextRules : list ExportRule.t) :
  clientConnected st = false -> handleSignalKData st delta contextRules = (st, []).
Proof.
  unfold clientConnected, handleSignalKData. intros H.
  destruct (SignalKDelta.updates delta); [|reflexivity].
  destruct (mqttClient st) as [client|]; [|reflexivity]. now rewrite H.
Qed.

Lemma withLastSentValues_same (st : PluginState) :
  withLastSentValues st (lastSentValues st) = st.
Proof. now destruct st. Qed.

Lemma checkValueChange_frame (st : PluginState) (context path : string) (value : JsValue) :
  snd (checkValueChange st context path value)
  = withLastSentValues st (lastSentValues (snd (checkValueChange st context path value))).
Proof.
  unfold checkValueChange.
  destruct (Json.isDefined _); [destruct (String.eqb _ _)|]; simpl;
    try reflexivity; now rewrite withLastSentValues_same.
Qed.

Lemma publishToMQTT_frame (st : PluginState) (delta : SignalKDelta.t)
    (update : SignalKUpdate.t) (valueUpdate : SignalKValue.t) (rule : ExportRule.t) :
  fst (publishToMQTT st delta update valueUpdate rule)
  = withLastSentValues st
      (lastSentValues (fst (publishToMQTT st delta update valueUpdate rule))).
Proof.
  unfold publishToMQTT. destruct (sendOnChangeSet rule).
  - pose proof (checkValueChange_frame st
                  (Js.orDefault (SignalKDelta.context delta) "vessels.self")
                  (SignalKValue.path valueUpdate) (SignalKValue.value valueUpdate)) as H.
    destruct (checkValueChange st _ _ _) as [result st']. simpl in *.
    destruct (hasChanged result); simpl; exact H.
  - simpl. now rewrite withLastSentValues_same.
Qed.

Lemma handleValue_frame (delta : SignalKDelta.t) (contextRules : list ExportRule.t)
    (update : SignalKUpdate.t) (acc : PluginState * list MqttPublish)
    (valueUpdate : SignalKValue.t) :
  fst (handleValue delta contextRules update acc valueUpdate)
  = withLastSentValues (fst acc)
      (lastSentValues (fst (handleValue delta contextRules update acc valueUpdate))).
Proof.
  unfold handleValue.
  destruct (findRule delta update valueUpdate contextRules) as [rule|].
  - pose proof (publishToMQTT_frame (fst acc) delta update valueUpdate rule) as H.
    destruct (publishToMQTT (fst acc) delta update valueUpdate rule). exact H.
  - now rewrite withLastSentValues_same.
Qed.

(** X1. Handling a delta changes nothing in the state but the last-value
    map: the client, the rule list, the subscriptions and the configuration
    come out as they went in; with no client, or a client that is not
    connected, the map stays too and nothing is published. *)
Theorem handleSignalKData_touches_only_last_values (st : PluginState)
    (delta : SignalKDelta.t) (contextRules : list ExportRule.t) :
  fst (handleSignalKData st delta contextRules)
  = withLastSentValues st (lastSentValues (fst (handleSignalKData st delta contextRules)))
  /\ (clientConnected st = false -> handleSignalKData st delta contextRules = (st, [])).
Proof.
  split; [|apply handleSignalKData_idle].
  destruct (clientConnected st) eqn:Hconnected.
  - rewrite handleSignalKData_fold by assumption.
    assert (forall (pairs : list (SignalKUpdate.t * SignalKValue.t)) acc,
               fst (fold_left (fun acc uv => handleValue delta contextRules (fst uv) acc (snd uv))
                              pairs acc)
               = withLastSentValues (fst acc)
                   (lastSentValues
                      (fst (fold_left
                              (fun acc uv => handleValue delta contextRules (fst uv) acc (snd uv))
                              pairs acc)))) as Hfold.
    { induction pairs as [|uv pairs IH]; intros acc; simpl.
      - now rewrite withLastSentValues_same.
      - rewrite IH at 1. rewrite (handleValue_frame delta contextRules (fst uv) acc (snd uv)) at 1.
        reflexivity. }
    apply (Hfold _ (st, [])).
  - rewrite handleSignalKData_idle by assumption. simpl.
    now rewrite withLastSentValues_same.
Qed.

Lemma handleSignalKData_touches_only_last_values_witness :
  handleSignalKData (stop connectedState) positionDelta getDefaultExportRules
  = (stop connectedState, []).
Proof.
  apply (proj2 (handleSignalKData_touches_only_last_values
                  (stop connectedState) positionDelta getDefaultExportRules)).
  reflexivity.
Defined.


(** ** What a delta can change in the last-value map *)

Lemma checkValueChange_lookup (st : PluginState) (context path : string) (value : JsValue)
    (k : string) :
  lastSentValues (snd (checkValueChange st context path value)) !! k = lastSentValues st !! k
  \/ (k = valueKey context path
      /\ lastSentValues (snd (checkValueChange st context path value)) !! k = Some value).
Proof.
  unfold checkValueChange.
  assert (lastSentValues
            (withLastSentValues st (<[valueKey context path := value]> (lastSentValues st))) !! k
          = lastSentValues st !! k
          \/ (k = valueKey context path
              /\ lastSentValues
                   (withLastSentValues st
                      (<[valueKey context path := value]> (lastSentValues st))) !! k
                 = Some value)) as Hinsert.
  { simpl. destruct (decide (valueKey context path = k)) as [<- | Hne].
    - right. split; [reflexivity | apply lookup_insert_eq].
    - left. now apply lookup_insert_ne. }
  destruct (Json.isDefined _); [destruct (String.eqb _ _)|]; simpl; auto.
Qed.

Lemma handleValue_lookup (delta : SignalKDelta.t) (contextRules : list ExportRule.t)
    (update : SignalKUpdate.t) (acc : PluginState * list MqttPublish)
    (valueUpdate : SignalKValue.t) (k : string) :
  lastSentValues (fst (handleValue delta contextRules update acc valueUpdate)) !! k
  = lastSentValues (fst acc) !! k
  \/ (k = valueKey (deltaContext delta) (SignalKValue.path valueUpdate)
      /\ lastSentValues (fst (handleValue delta contextRules update acc valueUpdate)) !! k
         = Some (SignalKValue.value valueUpdate)).
Proof.
  unfold handleValue.
  destruct (findRule delta update valueUpdate contextRules) as [rule|]; [|now left].
  unfold publishToMQTT. destruct (sendOnChangeSet rule); [|now left].
  pose proof (checkValueChange_lookup (fst acc) (deltaContext delta)
                (SignalKValue.path valueUpdate) (SignalKValue.value valueUpdate) k) as H.
  unfold deltaContext in *.
  destruct (checkValueChange (fst acc) _ _ _) as [result st']. simpl in *.
  destruct (hasChanged result); exact H.
Qed.

(** X2. The last-value map only grows while deltas are handled: a key
    that has a value keeps one (nothing is evicted), and a key that is not
    [context:path] for the context of the delta and the path of one of its
    values keeps exactly the value it had. *)
Theorem handleSignalKData_last_values_grow (st : PluginState) (delta : SignalKDelta.t)
    (contextRules : list ExportRule.t) (k : string) :
  (is_Some (lastSentValues st !! k) ->
   is_Some (lastSentValues (fst (handleSignalKData st delta contextRules)) !! k))
  /\ ((forall uv, In uv (deltaValues delta) ->
                  k <> valueKey (deltaContext delta) (SignalKValue.path (snd uv))) ->
      lastSentValues (fst (handleSignalKData st delta contextRules)) !! k
      = lastSentValues st !! k).
Proof.
  destruct (clientConnected st) eqn:Hconnected;
    [|rewrite handleSignalKData_idle by assumption; split; auto].
  rewrite handleSignalKData_fold by assumption.
  assert (forall (pairs : list (SignalKUpdate.t * SignalKValue.t)) acc,
             let st' := fst (fold_left
                               (fun acc uv => handleValue delta contextRules (fst uv) acc (snd uv))
                               pairs acc) in
             lastSentValues st' !! k = lastSentValues (fst acc) !! k
             \/ ((exists uv, In uv pairs
                             /\ k = valueKey (deltaContext delta) (SignalKValue.path (snd uv)))
                 /\ is_Some (lastSentValues st' !! k))) as Hfold.
  { induction pairs as [|uv pairs IH]; intros acc; simpl; [now left|].
    destruct (IH (handleValue delta contextRules (fst uv) acc (snd uv))) as [Heq | [[uv' [Hin Hk]] Hsome]].
    - rewrite Heq.
      destruct (handleValue_lookup delta contextRules (fst uv) acc (snd uv) k)
        as [Hsame | [Hk Hnew]].
      + now left.
      + right. split; [exists uv; auto|]. rewrite Hnew. eauto.
    - right. split; [exists uv'; auto | exact Hsome]. }
  destruct (Hfold (deltaValues delta) (st, [])) as [Heq | [[uv [Hin Hk]] Hsome]]; simpl in *.
  - rewrite Heq. split; auto.
  - split; [intros _; exact Hsome|]. intros Hfresh. exfalso. now apply (Hfresh uv).
Qed.

Lemma handleSignalKData_last_values_grow_witness :
  is_Some (lastSentValues (fst (handleSignalKData storedState positionDelta
                                                  getDefaultExportRules))
             !! valueKey "vessels.self" "navigation.position")
  /\ lastSentValues (fst (handleSignalKData storedState positionDelta getDefaultExportRules))
       !! valueKey "vessels.self" "environment.depth.belowKeel"
     = lastSentValues storedState !! valueKey "vessels.self" "environment.depth.belowKeel".
Proof.
  split.
  - apply (proj1 (handleSignalKData_last_values_grow
                    storedState positionDelta getDefaultExportRules
                    (valueKey "vessels.self" "navigation.position"))).
    vm_compute. eauto.
  - apply (proj2 (handleSignalKData_last_values_grow
                    storedState positionDelta getDefaultExportRules
                    (valueKey "vessels.self" "environment.depth.belowKeel"))).
    intros uv [<- | []]. vm_compute. discriminate.
Defined.

(** ** Where published messages come from *)

Lemma buildMessage_last_values (st : PluginState) (m : gmap string JsValue)
    (delta : SignalKDelta.t) (rule : ExportRule.t) (context path : string) (value : JsValue) :
  buildMessage (withLastSentValues st m) delta rule context path value
  = buildMessage st delta rule context path value.
Proof. reflexivity. Qed.

Lemma publishToMQTT_message (st : PluginState) (delta : SignalKDelta.t)
    (update : SignalKUpdate.t) (valueUpdate : SignalKValue.t) (rule : ExportRule.t)
    (m : MqttPublish) :
  snd (publishToMQTT st delta update valueUpdate rule) = Some m ->
  m = messageFor st delta rule valueUpdate.
Proof.
  unfold publishToMQTT, messageFor, deltaContext, publishCall.
  destruct (sendOnChangeSet rule).
  - pose proof (checkValueChange_frame st
                  (Js.orDefault (SignalKDelta.context delta) "vessels.self")
                  (SignalKValue.path valueUpdate) (SignalKValue.value valueUpdate)) as Hframe.
    destruct (checkValueChange st _ _ _) as [result st']. simpl in *.
    destruct (hasChanged result); simpl; [|discriminate].
    rewrite Hframe. simpl. destruct (mqttClient st); [|discriminate].
    intros [= <-]. reflexivity.
  - simpl. destruct (mqttClient st); [|discriminate]. now intros [= <-].
Qed.

Lemma handle_fold_messages (delta : SignalKDelta.t) (contextRules : list ExportRule.t)
    (st0 : PluginState) (pairs : list (SignalKUpdate.t * SignalKValue.t)) :
  forall acc,
    (exists m, fst acc = withLastSentValues st0 m) ->
    exists extra,
      snd (fold_left (fun acc uv => handleValue delta contextRules (fst uv) acc (snd uv))
                     pairs acc)
      = (snd acc ++ extra)%list
      /\ (List.length extra <= List.length pairs)%nat
      /\ Forall (fun message =>
                   exists uv rule,
                     In uv pairs
                     /\ findRule delta (fst uv) (snd uv) contextRules = Some rule
                     /\ message = messageFor st0 delta rule (snd uv)) extra.
Proof.
  induction pairs as [|uv pairs IH]; intros acc [m0 Hacc]; simpl.
  - exists []. rewrite app_nil_r. split; [reflexivity|]. split; [simpl; lia | constructor].
  - destruct (IH (handleValue delta contextRules (fst uv) acc (snd uv)))
      as (extra & Hout & Hlen & Hall).
    { rewrite handleValue_frame, Hacc. eexists. reflexivity. }
    rewrite Hout. unfold handleValue at 1.
    destruct (findRule delta (fst uv) (snd uv) contextRules) as [rule|] eqn:Hfind.
    + destruct (publishToMQTT (fst acc) delta (fst uv) (snd uv) rule) as [st' sent] eqn:Hpub.
      simpl. rewrite <- app_assoc.
      exists ((match sent with Some x => [x] | None => [] end) ++ extra)%list.
      split; [reflexivity|]. split.
      * rewrite length_app. destruct sent; simpl; lia.
      * apply Forall_app. split.
        -- destruct sent as [x|]; [|constructor]. constructor; [|constructor].
           exists uv, rule. split; [now left|]. split; [exact Hfind|].
           assert (x = messageFor (fst acc) delta rule (snd uv)) as ->
             by (apply (publishToMQTT_message _ _ (fst uv)); now rewrite Hpub).
           rewrite Hacc. reflexivity.
        -- eapply Forall_impl; [exact Hall|]. simpl.
           intros message (uv' & rule' & Hin & Hrest). exists uv', rule'. auto.
    + exists extra. split; [reflexivity|]. split; [lia|].
      eapply Forall_impl; [exact Hall|]. simpl.
      intros message (uv' & rule' & Hin & Hrest). exists uv', rule'. auto.
Qed.

Lemma handleSignalKData_message_origin (st : PluginState) (delta : SignalKDelta.t)
    (contextRules : list ExportRule.t) (message : MqttPublish) :
  In message (snd (handleSignalKData st delta contextRules)) ->
  exists update valueUpdate rule,
    In (update, valueUpdate) (deltaValues delta)
    /\ findRule delta update valueUpdate contextRules = Some rule
    /\ message = messageFor st delta rule valueUpdate.
Proof.
  destruct (clientConnected st) eqn:Hconnected.
  - rewrite handleSignalKData_fold by assumption.
    destruct (handle_fold_messages delta contextRules st (deltaValues delta) (st, []))
      as (extra & Hout & _ & Hall).
    { exists (lastSentValues st). simpl. now rewrite withLastSentValues_same. }
    rewrite Hout. simpl. intros Hin. rewrite Forall_forall in Hall.
    apply list_elem_of_In in Hin.
    destruct (Hall message Hin) as ([update valueUpdate] & rule & Huv & Hfind & ->).
    simpl in *. now exists update, valueUpdate, rule.
  - rewrite handleSignalKData_idle by assumption. intros [].
Qed.

(** X3. Every message that the handling of a delta hands to the client is
    the message of one value update of the delta under a rule of the
    sequence that is enabled and matches that update; there are no more
    messages than the delta has value updates. *)
Theorem handleSignalKData_messages (st : PluginState) (delta : SignalKDelta.t)
    (contextRules : list ExportRule.t) :
  (List.length (snd (handleSignalKData st delta contextRules))
   <= List.length (deltaValues delta))%nat
  /\ forall message,
      In message (snd (handleSignalKData st delta contextRules)) ->
      exists update valueUpdate rule,
        In (update, valueUpdate) (deltaValues delta)
        /\ In rule contextRules
        /\ ExportRule.enabled rule = true
        /\ ruleMatches delta update valueUpdate rule = true
        /\ findRule delta update valueUpdate contextRules = Some rule
        /\ message = messageFor st delta rule valueUpdate.
Proof.
  destruct (clientConnected st) eqn:Hconnected.
  - rewrite handleSignalKData_fold by assumption.
    destruct (handle_fold_messages delta contextRules st (deltaValues delta) (st, []))
      as (extra & Hout & Hlen & Hall).
    { exists (lastSentValues st). simpl. now rewrite withLastSentValues_same. }
    rewrite Hout. simpl. split; [exact Hlen|].
    intros message Hin. rewrite Forall_forall in Hall.
    apply list_elem_of_In in Hin.
    destruct (Hall message Hin) as ([update valueUpdate] & rule & Huv & Hfind & ->).
    simpl in *. exists update, valueUpdate, rule.
    pose proof Hfind as Hfound. unfold findRule in Hfound.
    apply find_some in Hfound as [Hrule Hmatches].
    repeat split; try assumption.
    rewrite ruleMatches_checks in Hmatches.
    repeat (apply andb_true_iff in Hmatches as [Hmatches ?]). exact Hmatches.
  - rewrite handleSignalKData_idle by assumption. simpl. split; [lia|]. intros ? [].
Qed.


Lemma handleSignalKData_messages_witness :
  exists update valueUpdate rule,
    In (update, valueUpdate) (deltaValues positionDelta)
    /\ In rule getDefaultExportRules
    /\ ExportRule.enabled rule = true
    /\ ruleMatches positionDelta update valueUpdate rule = true
    /\ findRule positionDelta update valueUpdate getDefaultExportRules = Some rule
    /\ messageFor connectedState positionDelta
                  (defaultRule "all-navigation" "All Navigation Data" "vessels.self"
                               "navigation*" "" None)
                  positionValue
       = messageFor connectedState positionDelta rule valueUpdate.
Proof.
  apply (proj2 (handleSignalKData_messages connectedState positionDelta
                                           getDefaultExportRules)).
  left. reflexivity.
Defined.

Lemma buildTopic_shape (st : PluginState) (rule : ExportRule.t) (context path : string) :
  exists text, buildTopic st rule context path = topicPrefixPart st ++ Js.replaceDots text.
Proof.
  unfold buildTopic, topicPrefixPart.
  destruct (ExportRule.topicTemplate rule) as [template|]; [destruct (Js.truthy template)|];
    eexists; reflexivity.
Qed.

(** X4. Whatever the rules and their templates, the topic of every
    published message is the configured prefix part followed by a text that
    holds no ['.']. *)
Theorem published_topics_have_no_dot (st : PluginState) (delta : SignalKDelta.t)
    (contextRules : list ExportRule.t) (message : MqttPublish) :
  In message (snd (handleSignalKData st delta contextRules)) ->
  exists rest,
    topic message = topicPrefixPart st ++ rest /\ Js.includes rest "." = false.
Proof.
  intros Hin.
  destruct (handleSignalKData_message_origin st delta contextRules message Hin)
    as (update & valueUpdate & rule & _ & _ & ->).
  unfold messageFor, buildMessage. simpl.
  destruct (buildTopic_shape st rule (deltaContext delta) (SignalKValue.path valueUpdate))
    as [text ->].
  exists (Js.replaceDots text). split; [reflexivity | apply replaceDots_no_dot].
Qed.

Lemma published_topics_have_no_dot_witness :
  exists rest,
    topic (messageFor connectedState positionDelta
                      (defaultRule "all-navigation" "All Navigation Data" "vessels.self"
                                   "navigation*" "" None)
                      positionValue)
    = topicPrefixPart connectedState ++ rest
    /\ Js.includes rest "." = false.
Proof.
  apply (published_topics_have_no_dot connectedState positionDelta getDefaultExportRules).
  left. reflexivity.
Defined.

(** ** Rules that do not filter *)

(** X5. When no rule of the sequence asks for send-on-change and the
    client is connected, a delta gives one message for each of its value
    updates that a rule matches, in the order of the delta, each under the
    first matching rule, and the state is left as it was. *)
Theorem handleSignalKData_without_filter (st : PluginState) (delta : SignalKDelta.t)
    (contextRules : list ExportRule.t) :
  clientConnected st = true ->
  Forall (fun r => sendOnChangeSet r = false) contextRules ->
  handleSignalKData st delta contextRules
  = (st,
     List.flat_map
       (fun uv =>
          match findRule delta (fst uv) (snd uv) contextRules with
          | Some rule => [messageFor st delta rule (snd uv)]
          | None => []
          end) (deltaValues delta)).
Proof.
  intros Hconnected Hoff. rewrite handleSignalKData_fold by assumption.
  assert (forall (pairs : list (SignalKUpdate.t * SignalKValue.t)) (sent : list MqttPublish),
             fold_left (fun acc uv => handleValue delta contextRules (fst uv) acc (snd uv))
                       pairs (st, sent)
             = (st, (sent ++ List.flat_map
                               (fun uv =>
                                  match findRule delta (fst uv) (snd uv) contextRules with
                                  | Some rule => [messageFor st delta rule (snd uv)]
                                  | None => []
                                  end) pairs)%list)) as Hfold.
  { induction pairs as [|uv pairs IH]; intros sent; simpl.
    - now rewrite app_nil_r.
    - unfold handleValue at 2.
      destruct (findRule delta (fst uv) (snd uv) contextRules) as [rule|] eqn:Hfind.
      + assert (sendOnChangeSet rule = false) as Hrule.
        { unfold findRule in Hfind. apply find_some in Hfind as [Hin _].
          rewrite Forall_forall in Hoff. apply Hoff. now apply list_elem_of_In. }
        simpl. rewrite (publishToMQTT_no_filter _ _ _ _ _ Hrule).
        unfold publishCall. unfold clientConnected in Hconnected.
        destruct (mqttClient st); [|discriminate].
        rewrite IH, <- app_assoc. reflexivity.
      + apply IH. }
  apply (Hfold _ []).
Qed.

Lemma handleSignalKData_without_filter_witness :
  handleSignalKData connectedState
    (SignalKDelta.mk (Some "vessels.self")
       (Some [SignalKUpdate.mk None "2024-01-01T00:00:00.000Z"
                               (Some [depthValue; positionValue; depthValue]) None]))
    [unsetSendOnChangeRule]
  = (connectedState,
     [ {| topic := "vessels/self/environment/depth/belowKeel"; payload := "42.5";
          pub_qos := 1; pub_retain := true |};
       {| topic := "vessels/self/environment/depth/belowKeel"; payload := "42.5";
          pub_qos := 1; pub_retain := true |} ]).
Proof.
  apply (handleSignalKData_without_filter connectedState
           (SignalKDelta.mk (Some "vessels.self")
              (Some [SignalKUpdate.mk None "2024-01-01T00:00:00.000Z"
                                      (Some [depthValue; positionValue; depthValue]) None]))
           [unsetSendOnChangeRule]).
  - reflexivity.
  - repeat constructor.
Defined.


(** ** The change filter over a run of values *)

Lemma storedText_after (st : PluginState) (context path : string) (value : JsValue) :
  value <> JUndefined ->
  storedText (snd (checkValueChange st context path value)) context path
  = Some (Json.valueString value).
Proof.
  intros Hv. unfold storedText.
  destruct (checkValueChange_baseline st context path value Hv) as [Hdef Hsame].
  apply isDefined_true_iff in Hdef. rewrite Hdef. now rewrite <- Hsame.
Qed.

Lemma checkValueChange_flag (st : PluginState) (context path : string) (value : JsValue) :
  hasChanged (fst (checkValueChange st context path value))
  = match storedText st context path with
    | Some l => negb (String.eqb (Json.valueString value) l)
    | None => true
    end.
Proof.
  unfold storedText, checkValueChange.
  destruct (Json.isDefined _); [|reflexivity].
  destruct (String.eqb _ _); reflexivity.
Qed.

(** X6. Over a run of values of one key, none of them [undefined], the
    change filter answers for each value whether its printed form differs
    from the printed form of the value before it (for the first value: from
    the printed form of what is stored, a change when nothing is): it drops
    immediate repetitions only, so that a value that comes back after another
    one is reported again. *)
Theorem change_filter_run (values : list JsValue) :
  forall (st : PluginState) (context path : string),
    Forall (fun v => v <> JUndefined) values ->
    fst (checkValues st context path values)
    = changeFlags (storedText st context path) (List.map Json.valueString values).
Proof.
  induction values as [|v values IH]; intros st context path Hdefined; [reflexivity|].
  apply Forall_cons in Hdefined as [Hv Hdefined].
  simpl.
  pose proof (checkValueChange_flag st context path v) as Hflag.
  pose proof (storedText_after st context path v Hv) as Hstored.
  destruct (checkValueChange st context path v) as [result st']. simpl in *.
  specialize (IH st' context path Hdefined). rewrite Hstored in IH.
  destruct (checkValues st' context path values) as [flags st'']. simpl in *.
  now rewrite Hflag, IH.
Qed.

Lemma change_filter_run_witness :
  fst (checkValues connectedState "vessels.self" "navigation.position"
                   [fortyTwoAndHalf; fortyTwoAndHalf; fortyThree; fortyTwoAndHalf])
  = [true; false; true; true].
Proof.
  apply (change_filter_run [fortyTwoAndHalf; fortyTwoAndHalf; fortyThree; fortyTwoAndHalf]
                           connectedState "vessels.self" "navigation.position").
  repeat constructor; discriminate.
Defined.

(** X7. The change filter tells values apart by their printed form alone:
    after a value that is not [undefined], a value of another type with the
    same printed form (the number 42.5 and the string ["42.5"], an array and
    the string of its JSON text) is not reported as a change and is not
    stored. *)
Theorem change_filter_compares_text (st : PluginState) (context path : string)
    (first second : JsValue) :
  first <> JUndefined ->
  Json.valueString second = Json.valueString first ->
  let st1 := snd (checkValueChange st context path first) in
  hasChanged (fst (checkValueChange st1 context path second)) = false
  /\ snd (checkValueChange st1 context path second) = st1.
Proof.
  intros Hfirst Htext st1.
  destruct (checkValueChange_baseline st context path first Hfirst) as [Hdef Hsame].
  fold st1 in Hdef, Hsame.
  rewrite (checkValueChange_same st1 context path second Hdef); [split; reflexivity|].
  now rewrite Htext.
Qed.

Lemma change_filter_compares_text_witness :
  hasChanged (fst (checkValueChange storedState "vessels.self" "navigation.position"
                                    (JString "42.5"))) = false
  /\ snd (checkValueChange storedState "vessels.self" "navigation.position" (JString "42.5"))
     = storedState.
Proof.
  apply (change_filter_compares_text connectedState "vessels.self" "navigation.position"
                                     fortyTwoAndHalf (JString "42.5")).
  - discriminate.
  - reflexivity.
Defined.


(** ** The subscription plan as a partition of the enabled rules *)

Lemma has_keys {V : Type} (m : JsMap.t V) (k : string) :
  JsMap.has m k = existsb (fun s => String.eqb s k) (JsMap.keys m).
Proof.
  unfold JsMap.has. induction m as [|[k' v] m IH]; simpl; [reflexivity|].
  destruct (String.eqb k' k); [reflexivity | exact IH].
Qed.

Lemma has_true_In {V : Type} (m : JsMap.t V) (k : string) :
  JsMap.has m k = true <-> In k (JsMap.keys m).
Proof.
  rewrite has_keys, existsb_exists. split.
  - intros [s [Hin Heq]]. apply String.eqb_eq in Heq. now subst.
  - intros Hin. exists k. split; [exact Hin | apply String.eqb_refl].
Qed.

Lemma get_None_In {V : Type} (m : JsMap.t V) (k : string) :
  JsMap.get m k = None -> ~ In k (JsMap.keys m).
Proof.
  intros Hget Hin. apply has_true_In in Hin. unfold JsMap.has in Hin.
  rewrite Hget in Hin. discriminate.
Qed.

Lemma get_of_In {V : Type} (m : JsMap.t V) (k : string) (v : V) :
  NoDup (JsMap.keys m) -> In (k, v) m -> JsMap.get m k = Some v.
Proof.
  induction m as [|[k' v'] m IH]; intros Hnd Hin; [destruct Hin|].
  simpl in *. apply NoDup_cons in Hnd as [Hk Hnd].
  destruct Hin as [[= -> ->] | Hin].
  - now rewrite String.eqb_refl.
  - destruct (String.eqb_spec k' k) as [-> | Hne]; [|now apply IH].
    exfalso. apply Hk. apply list_elem_of_In.
    apply in_map_iff. exists (k, v). split; [reflexivity | exact Hin].
Qed.

Lemma set_append_members (m : JsMap.t (list ExportRule.t)) (k : string)
    (group : list ExportRule.t) (rule : ExportRule.t) :
  JsMap.get m k = Some group ->
  Permutation (List.concat (List.map snd (JsMap.set m k (group ++ [rule])%list)))
              (rule :: List.concat (List.map snd m)).
Proof.
  induction m as [|[k' v'] m IH]; intros Hget; [discriminate|].
  simpl in *. destruct (String.eqb k' k).
  - injection Hget as ->. simpl. rewrite <- app_assoc. simpl.
    symmetry. apply Permutation_middle.
  - simpl. rewrite (IH Hget).
    change (rule :: (v' ++ List.concat (List.map snd m))%list)
      with ([rule] ++ v' ++ List.concat (List.map snd m))%list.
    change (rule :: List.concat (List.map snd m))
      with ([rule] ++ List.concat (List.map snd m))%list.
    rewrite !app_assoc. apply Permutation_app_tail. apply Permutation_app_comm.
Qed.

Lemma addToGroup_members (groups : JsMap.t (list ExportRule.t)) (rule : ExportRule.t) :
  Permutation (List.concat (List.map snd (addToGroup groups rule)))
              (rule :: List.concat (List.map snd groups)).
Proof.
  unfold addToGroup, JsMap.has.
  destruct (JsMap.get groups (ruleContext rule)) as [group|] eqn:Hget; simpl.
  - rewrite Hget. now apply set_append_members.
  - rewrite get_set_eq.
    rewrite (set_append_members _ _ [] rule (get_set_eq _ _ _)).
    apply perm_skip.
    rewrite set_absent; [|now apply get_None_In].
    rewrite map_app, concat_app. simpl. now rewrite app_nil_r.
Qed.

Lemma groupByContext_members (rules : list ExportRule.t) :
  Permutation (List.concat (List.map snd (groupByContext rules)))
              (List.filter ExportRule.enabled rules).
Proof.
  unfold groupByContext.
  assert (forall (rs : list ExportRule.t) groups,
             Permutation (List.concat (List.map snd (fold_left addToGroup rs groups)))
                         (List.concat (List.map snd groups) ++ rs)) as Hfold.
  { induction rs as [|r rs IH]; intros groups; simpl.
    - now rewrite app_nil_r.
    - rewrite IH, addToGroup_members. simpl. apply Permutation_middle. }
  apply (Hfold _ []).
Qed.

Lemma group_not_empty (rules : list ExportRule.t) (context : string)
    (group : list ExportRule.t) :
  In (context, group) (groupByContext rules) ->
  group = enabledRulesOf context rules /\ group <> [].
Proof.
  intros Hin.
  apply get_of_In in Hin; [|apply groupByContext_keys_NoDup].
  rewrite groupByContext_get in Hin.
  destruct (enabledRulesOf context rules); [discriminate|].
  injection Hin as <-. split; [reflexivity | discriminate].
Qed.

(** X8. Rebuilding the subscriptions is idempotent and forgets what was
    installed before: the result depends on the rule list alone, two states
    that agree on everything but their subscriptions are rebuilt into the
    same state. *)
Theorem updateSubscriptions_idempotent (st : PluginState) :
  updateSubscriptions (updateSubscriptions st) = updateSubscriptions st
  /\ forall active installed,
      updateSubscriptions
        (mkState (mqttClient st) (exportRules st) active (lastSentValues st)
                 (currentConfig st) installed)
      = updateSubscriptions st.
Proof.
  split; [|intros active installed]; now rewrite !updateSubscriptions_plan.
Qed.

(** X9. The plan is a partition of the enabled rules: taken together, the
    rule arrays of the installed subscriptions hold every enabled rule of the
    rule list exactly once and no disabled rule, and the number of requested
    items is the number of enabled rules. *)
Theorem subscriptions_partition_enabled_rules (st : PluginState) :
  let installed := unsubscribes (updateSubscriptions st) in
  Permutation (List.concat (List.map callbackRules installed))
              (List.filter ExportRule.enabled (exportRules st))
  /\ List.length (List.concat (List.map (fun i => subscribe (request i)) installed))
     = List.length (List.filter ExportRule.enabled (exportRules st))
  /\ forall i rule, In i installed -> In rule (callbackRules i) ->
                    ExportRule.enabled rule = true
                    /\ ruleContext rule = sub_context (request i).
Proof.
  intros installed. subst installed. rewrite updateSubscriptions_plan. simpl.
  assert (List.map callbackRules (List.map installedFor (groupByContext (exportRules st)))
          = List.map snd (groupByContext (exportRules st))) as Hrules
    by (rewrite map_map; reflexivity).
  split; [|split].
  - rewrite Hrules. apply groupByContext_members.
  - rewrite <- (Permutation_length (groupByContext_members (exportRules st))).
    rewrite map_map. simpl. clear Hrules.
    induction (groupByContext (exportRules st)) as [|[c g] groups IH]; [reflexivity|].
    simpl. rewrite !length_app, length_map. now f_equal.
  - intros i rule Hi Hrule.
    apply in_map_iff in Hi as [[context group] [<- Hgroup]]. simpl in *.
    apply group_not_empty in Hgroup as [-> _].
    unfold enabledRulesOf in Hrule. apply filter_In in Hrule as [_ Hrule].
    apply andb_true_iff in Hrule as [Henabled Hcontext].
    split; [exact Henabled | now apply String.eqb_eq].
Qed.

Lemma subscriptions_partition_enabled_rules_witness :
  ExportRule.enabled (positionRule "fast" 500) = true
  /\ ruleContext (positionRule "fast" 500)
     = sub_context (request (installedFor ("vessels.self",
                                           [positionRule "slow" 1000;
                                            positionRule "fast" 500]))).
Proof.
  apply (proj2 (proj2 (subscriptions_partition_enabled_rules samePathState))
               (installedFor ("vessels.self",
                              [positionRule "slow" 1000; positionRule "fast" 500]))).
  - left. reflexivity.
  - right. left. reflexivity.
Defined.

(** X10. No subscription is ever requested without an item: every
    installed subscription has at least one item, and nothing at all is
    installed exactly when the rule list has no enabled rule. *)
Theorem subscriptions_never_empty (st : PluginState) :
  (forall i, In i (unsubscribes (updateSubscriptions st)) -> subscribe (request i) <> [])
  /\ (unsubscribes (updateSubscriptions st) = []
      <-> List.filter ExportRule.enabled (exportRules st) = [])
  /\ (List.length (unsubscribes (updateSubscriptions st))
      <= List.length (List.filter ExportRule.enabled (exportRules st)))%nat.
Proof.
  rewrite updateSubscriptions_plan. simpl.
  assert (forall context group,
             In (context, group) (groupByContext (exportRules st)) -> group <> []) as Hne
    by (intros context group Hin; now apply group_not_empty in Hin).
  split; [|split].
  - intros i Hi. apply in_map_iff in Hi as [[context group] [<- Hgroup]]. simpl.
    specialize (Hne _ _ Hgroup). destruct group; [contradiction | discriminate].
  - split.
    + intros Hnone. apply map_eq_nil in Hnone.
      pose proof (groupByContext_members (exportRules st)) as Hperm.
      rewrite Hnone in Hperm. simpl in Hperm.
      now apply Permutation_nil in Hperm.
    + intros Hnone. unfold groupByContext. now rewrite Hnone.
  - rewrite length_map.
    rewrite <- (Permutation_length (groupByContext_members (exportRules st))).
    induction (groupByContext (exportRules st)) as [|[c g] groups IH]; [simpl; lia|].
    simpl. rewrite length_app.
    assert (g <> []) as Hg by (apply (Hne c); now left).
    assert (List.length groups <= List.length (List.concat (List.map snd groups)))%nat
      by (apply IH; intros c' g' Hin; apply (Hne c'); now right).
    destruct g; [contradiction | simpl; lia].
Qed.

Lemma subscriptions_never_empty_witness :
  subscribe (request (installedFor ("vessels.self",
                                    [positionRule "slow" 1000; positionRule "fast" 500])))
  <> [].
Proof.
  apply (proj1 (subscriptions_never_empty samePathState)).
  left. reflexivity.
Defined.


(** ** The order of the subscriptions *)

Lemma addToGroup_keys (groups : JsMap.t (list ExportRule.t)) (rule : ExportRule.t) :
  JsMap.keys (addToGroup groups rule)
  = if existsb (fun s => String.eqb s (ruleContext rule)) (JsMap.keys groups)
    then JsMap.keys groups
    else (JsMap.keys groups ++ [ruleContext rule])%list.
Proof.
  rewrite <- has_keys. unfold addToGroup.
  destruct (JsMap.has groups (ruleContext rule)) eqn:Hhas; simpl.
  - pose proof Hhas as Hin. apply has_true_In in Hin.
    unfold JsMap.has in Hhas.
    destruct (JsMap.get groups (ruleContext rule)); [|discriminate].
    now apply set_present.
  - rewrite get_set_eq.
    assert (~ In (ruleContext rule) (JsMap.keys groups)) as Hout.
    { intros Hin. apply has_true_In in Hin. congruence. }
    rewrite set_present.
    + rewrite set_absent by exact Hout. unfold JsMap.keys. now rewrite map_app.
    + rewrite set_absent by exact Hout. unfold JsMap.keys. rewrite map_app.
      apply in_or_app. right. now left.
Qed.

Lemma fold_addToGroup_keys (rules : list ExportRule.t) :
  forall groups,
    JsMap.keys (fold_left addToGroup rules groups)
    = (JsMap.keys groups
       ++ distinctFrom (JsMap.keys groups) (List.map ruleContext rules))%list.
Proof.
  induction rules as [|rule rules IH]; intros groups; simpl.
  - now rewrite app_nil_r.
  - rewrite IH, addToGroup_keys.
    destruct (existsb _ (JsMap.keys groups)); [reflexivity|].
    now rewrite <- app_assoc.
Qed.

Lemma entries_of_keys {V : Type} (m : JsMap.t V) (f : string -> V) :
  NoDup (JsMap.keys m) ->
  (forall k, In k (JsMap.keys m) -> JsMap.get m k = Some (f k)) ->
  m = List.map (fun k => (k, f k)) (JsMap.keys m).
Proof.
  induction m as [|[k v] m IH]; intros Hnd Hget; [reflexivity|].
  simpl in Hnd. apply NoDup_cons in Hnd as [Hk Hnd]. simpl. f_equal.
  - specialize (Hget k (or_introl eq_refl)). simpl in Hget.
    rewrite String.eqb_refl in Hget. congruence.
  - apply IH; [exact Hnd|]. intros k' Hin.
    specialize (Hget k' (or_intror Hin)). simpl in Hget.
    destruct (String.eqb_spec k k') as [-> | Hne]; [|exact Hget].
    exfalso. apply Hk. now apply list_elem_of_In.
Qed.

Lemma groupByContext_closed_form (rules : list ExportRule.t) :
  groupByContext rules
  = List.map (fun context => (context, enabledRulesOf context rules))
             (distinctFrom [] (List.map ruleContext (List.filter ExportRule.enabled rules))).
Proof.
  assert (JsMap.keys (groupByContext rules)
          = distinctFrom [] (List.map ruleContext (List.filter ExportRule.enabled rules)))
    as Hkeys by (unfold groupByContext; now rewrite fold_addToGroup_keys).
  rewrite <- Hkeys. apply entries_of_keys; [apply groupByContext_keys_NoDup|].
  intros k Hin. apply has_true_In in Hin. unfold JsMap.has in Hin.
  rewrite groupByContext_get in *.
  destruct (enabledRulesOf k rules); [discriminate | reflexivity].
Qed.

(** X11. Subscriptions are installed in the order in which their contexts
    first appear among the enabled rules, one subscription per distinct
    context, each carrying that context's enabled rules in stored order. *)
Theorem subscriptions_in_order_of_first_use (st : PluginState) :
  let rules := exportRules st in
  let contexts :=
    distinctFrom [] (List.map ruleContext (List.filter ExportRule.enabled rules)) in
  unsubscribes (updateSubscriptions st)
  = List.map (fun context => installedFor (context, enabledRulesOf context rules)) contexts
  /\ List.map (fun i => sub_context (request i)) (unsubscribes (updateSubscriptions st))
     = contexts
  /\ JsMap.keys (activeSubscriptions (updateSubscriptions st)) = contexts.
Proof.
  intros rules contexts. subst rules contexts.
  rewrite updateSubscriptions_plan. simpl.
  rewrite groupByContext_closed_form. unfold JsMap.keys.
  rewrite !map_map. simpl. rewrite map_id. auto.
Qed.


(** ** The plugin over its lifetime *)

Lemma handleSignalKData_frame (st : PluginState) (delta : SignalKDelta.t)
    (contextRules : list ExportRule.t) :
  fst (handleSignalKData st delta contextRules)
  = withLastSentValues st (lastSentValues (fst (handleSignalKData st delta contextRules))).
Proof.
  destruct (clientConnected st) eqn:Hconnected.
  - rewrite handleSignalKData_fold by assumption.
    generalize (deltaValues delta) as pairs. intros pairs.
    change st with (fst (st, @nil MqttPublish)) at 2.
    generalize (st, @nil MqttPublish) as acc.
    induction pairs as [|uv pairs IH]; intros acc; simpl.
    + now rewrite withLastSentValues_same.
    + rewrite IH at 1.
      rewrite (handleValue_frame delta contextRules (fst uv) acc (snd uv)) at 1.
      reflexivity.
  - rewrite handleSignalKData_idle by assumption. simpl.
    now rewrite withLastSentValues_same.
Qed.

Lemma orDefault_not_empty (a : option string) (d : string) :
  d <> "" -> Js.orDefault a d <> "".
Proof.
  intros Hd. unfold Js.orDefault. destruct a as [s|]; [|exact Hd].
  destruct (Js.truthy s) eqn:Hs; [|exact Hd]. now apply truthy_true_iff.
Qed.

Lemma Consistent_initial : Consistent initialState.
Proof.
  constructor; simpl; try discriminate; try reflexivity.
  - constructor.
  - intros context group [].
Qed.

Lemma Consistent_same_subscriptions (st st' : PluginState) :
  Consistent st ->
  activeSubscriptions st' = activeSubscriptions st ->
  unsubscribes st' = unsubscribes st ->
  (forall config, currentConfig st' = Some config ->
                  MQTTExportConfig.exportRules config = exportRules st'
                  /\ MQTTExportConfig.mqttBroker config <> ""
                  /\ MQTTExportConfig.mqttClientId config <> "") ->
  Consistent st'.
Proof.
  intros [Hmirror Hdistinct Henabled _ _] Hactive Hinstalled Hconfig.
  constructor; rewrite ?Hactive, ?Hinstalled; try assumption.
  - intros config H. now apply Hconfig.
  - intros config H. now apply Hconfig.
Qed.

Lemma Consistent_updateSubscriptions (st : PluginState) :
  (forall config, currentConfig st = Some config ->
                  MQTTExportConfig.exportRules config = exportRules st
                  /\ MQTTExportConfig.mqttBroker config <> ""
                  /\ MQTTExportConfig.mqttClientId config <> "") ->
  Consistent (updateSubscriptions st).
Proof.
  intros Hconfig. rewrite updateSubscriptions_plan.
  constructor; simpl.
  - reflexivity.
  - apply groupByContext_keys_NoDup.
  - intros context group Hin. apply group_not_empty in Hin as [-> Hne].
    split; [exact Hne|]. intros rule Hrule.
    unfold enabledRulesOf in Hrule. apply filter_In in Hrule as [_ Hrule].
    apply andb_true_iff in Hrule as [Henabled Hcontext].
    split; [exact Henabled | now apply String.eqb_eq].
  - intros config H. now apply Hconfig.
  - intros config H. now apply Hconfig.
Qed.

Lemma startConfig_endpoints (options : option PartialConfig.t) :
  MQTTExportConfig.mqttBroker (startConfig options) <> ""
  /\ MQTTExportConfig.mqttClientId (startConfig options) <> "".
Proof. split; simpl; now apply orDefault_not_empty. Qed.

Lemma Consistent_start (st : PluginState) (options : option PartialConfig.t)
    (outcome : ConnectOutcome) :
  Consistent st -> Consistent (start st options outcome).
Proof.
  intros Hst. unfold start.
  destruct (negb (MQTTExportConfig.enabled (startConfig options))).
  - apply (Consistent_same_subscriptions st); [exact Hst | reflexivity | reflexivity |].
    simpl. intros config [= <-]. split; [reflexivity | apply startConfig_endpoints].
  - apply Consistent_updateSubscriptions.
    destruct outcome; simpl; intros config [= <-];
      (split; [reflexivity | apply startConfig_endpoints]).
Qed.

Lemma Consistent_stop (st : PluginState) : Consistent st -> Consistent (stop st).
Proof.
  intros [_ _ _ Hrules Hbroker]. constructor; simpl; try assumption.
  - reflexivity.
  - constructor.
  - intros context group [].
Qed.

Lemma Consistent_postRules (st : PluginState) (rules : option (list ExportRule.t))
    (save : SaveOutcome) :
  Consistent st -> Consistent (fst (postRules st rules save)).
Proof.
  intros Hst. destruct rules as [newRules|]; [|exact Hst].
  assert (forall config,
             currentConfig (assignRules st newRules) = Some config ->
             MQTTExportConfig.exportRules config = exportRules (assignRules st newRules)
             /\ MQTTExportConfig.mqttBroker config <> ""
             /\ MQTTExportConfig.mqttClientId config <> "") as Hconfig.
  { simpl. intros config H.
    destruct (currentConfig st) as [c|] eqn:Hc; [|discriminate].
    injection H as <-. simpl. split; [reflexivity|]. now apply (config_broker st Hst). }
  destruct save; simpl.
  - now apply Consistent_updateSubscriptions.
  - now apply (Consistent_same_subscriptions st).
  - now apply (Consistent_same_subscriptions st).
Qed.

Lemma Consistent_step (st : PluginState) (ev : Event) :
  Consistent st -> Consistent (fst (step st ev)).
Proof.
  intros Hst. destruct ev as [options outcome| |rules save|now thrown|i delta|flag]; simpl.
  - now apply Consistent_start.
  - now apply Consistent_stop.
  - now apply Consistent_postRules.
  - exact Hst.
  - destruct (unsubscribes st !! i) as [installed|]; [|exact Hst].
    rewrite handleSignalKData_frame.
    apply (Consistent_same_subscriptions st); try reflexivity; [exact Hst|].
    simpl. intros config H. split; [now apply (config_rules st Hst)|].
    now apply (config_broker st Hst).
  - unfold setConnected. destruct (mqttClient st); [|exact Hst].
    apply (Consistent_same_subscriptions st); try reflexivity; [exact Hst|].
    simpl. intros config H. split; [now apply (config_rules st Hst)|].
    now apply (config_broker st Hst).
Qed.

Lemma Consistent_run (events : list Event) :
  forall st, Consistent st -> Consistent (fst (run st events)).
Proof.
  induction events as [|ev events IH]; intros st Hst; simpl; [exact Hst|].
  pose proof (Consistent_step st ev Hst) as Hstep.
  destruct (step st ev) as [st1 sent1]. specialize (IH st1 Hstep).
  now destruct (run st1 events).
Qed.

(** X12. In every state the plugin reaches from its initial state, whatever
    the server, the routes, the broker and the deltas do: the installed
    subscriptions are those of the subscription map, one per context; no
    installed subscription is empty and each holds enabled rules of its own
    context only; the rule list of the configuration handed to the server
    for saving is the rule list in use; the broker address and the client
    identifier are not empty; and the rule route reports the number of
    installed subscriptions. *)
Theorem reachable_states_consistent (events : list Event) :
  let st := fst (run initialState events) in
  Consistent st
  /\ RulesApiResponse.activeSubscriptions (getRules st) = List.length (unsubscribes st)
  /\ List.map (fun i => sub_context (request i)) (unsubscribes st)
     = JsMap.keys (activeSubscriptions st).
Proof.
  intros st.
  assert (Consistent st) as Hst by (apply Consistent_run, Consistent_initial).
  split; [exact Hst|]. rewrite (subscriptions_mirror st Hst). split.
  - simpl. unfold JsMap.size. now rewrite length_map.
  - rewrite map_map. reflexivity.
Qed.


Lemma step_without_client (st : PluginState) (ev : Event) :
  mqttClient st = None -> createsClient ev = false ->
  snd (step st ev) = [] /\ mqttClient (fst (step st ev)) = None.
Proof.
  intros Hnone Hev.
  destruct ev as [options outcome| |rules save|now thrown|i delta|flag]; simpl.
  - split; [reflexivity|]. unfold start.
    destruct (negb (MQTTExportConfig.enabled (startConfig options))) eqn:Henabled;
      [exact Hnone|].
    rewrite updateSubscriptions_plan. simpl.
    destruct outcome as [client|]; [|exact Hnone].
    unfold createsClient in Hev. rewrite Hev in Henabled. discriminate.
  - split; reflexivity.
  - split; [reflexivity|].
    destruct rules as [newRules|]; [|exact Hnone].
    destruct save; simpl; try exact Hnone.
    rewrite updateSubscriptions_plan. exact Hnone.
  - split; [|exact Hnone]. unfold postTestMqtt, clientConnected. now rewrite Hnone.
  - destruct (unsubscribes st !! i) as [installed|]; [|now split].
    rewrite handleSignalKData_idle; [now split|].
    unfold clientConnected. now rewrite Hnone.
  - unfold setConnected. rewrite Hnone. now split.
Qed.

(** X13. Without an MQTT client nothing is ever published: from a state
    with no client (the initial state, or the state after a stop), a run of
    events none of which is an enabled start whose [connect] returns
    publishes no message, neither through the delta callbacks nor through
    the test route, and ends with no client. *)
Theorem nothing_published_without_client (st : PluginState) (events : list Event) :
  mqttClient st = None ->
  forallb (fun ev => negb (createsClient ev)) events = true ->
  snd (run st events) = [] /\ mqttClient (fst (run st events)) = None.
Proof.
  revert st. induction events as [|ev events IH]; intros st Hnone Hevents; simpl.
  - now split.
  - simpl in Hevents. apply andb_true_iff in Hevents as [Hev Hevents].
    apply negb_true_iff in Hev.
    destruct (step_without_client st ev Hnone Hev) as [Hsent Hclient].
    destruct (step st ev) as [st1 sent1]. simpl in *. subst sent1.
    destruct (IH st1 Hclient Hevents) as [Hsent' Hclient'].
    destruct (run st1 events) as [st2 sent2]. simpl in *. now subst sent2.
Qed.

Lemma nothing_published_without_client_witness :
  snd (run initialState
           [OnStart None ConnectThrew; OnDelta 0 positionDelta;
            OnTestMqtt "2024-01-01T00:00:00.000Z" None; OnConnection true]) = []
  /\ mqttClient (fst (run initialState
                          [OnStart None ConnectThrew; OnDelta 0 positionDelta;
                           OnTestMqtt "2024-01-01T00:00:00.000Z" None;
                           OnConnection true])) = None.
Proof.
  apply nothing_published_without_client; reflexivity.
Defined.

Lemma checkValueChange_by_last_values (st st' : PluginState) (context path : string)
    (value : JsValue) :
  lastSentValues st' = lastSentValues st ->
  fst (checkValueChange st' context path value)
  = fst (checkValueChange st context path value).
Proof.
  intros H. unfold checkValueChange. rewrite H.
  destruct (Json.isDefined _); [|reflexivity].
  destruct (String.eqb _ _); reflexivity.
Qed.

(** X14. The change filter's memory outlives rule updates and restarts:
    after a rule update, whatever the save does, and after a start that
    was not preceded by a stop, the filter answers as before for every key
    and value. A stop forgets it all: the first value of every key is then
    reported as changed, with no previous value. *)
Theorem change_memory_lifetime (st : PluginState) (context path : string)
    (value : JsValue) :
  (forall rules save,
      fst (checkValueChange (fst (postRules st rules save)) context path value)
      = fst (checkValueChange st context path value))
  /\ (forall options outcome,
        fst (checkValueChange (start st options outcome) context path value)
        = fst (checkValueChange st context path value))
  /\ fst (checkValueChange (stop st) context path value)
     = {| hasChanged := true; currentValue := value; previousValue := JUndefined |}.
Proof.
  split; [|split].
  - intros rules save. apply checkValueChange_by_last_values.
    destruct rules as [newRules|]; [|reflexivity].
    destruct save; simpl; try reflexivity.
    now rewrite updateSubscriptions_plan.
  - intros options outcome. apply checkValueChange_by_last_values.
    unfold start. destruct (negb _); [reflexivity|].
    rewrite updateSubscriptions_plan. now destruct outcome.
  - rewrite checkValueChange_no_baseline; [reflexivity|].
    unfold lastSentGet. simpl. now rewrite lookup_empty.
Qed.

(** X15. A start that is not disabled installs the plan of the configured
    rules whether or not [connect] throws; when it throws, the client is the
    one the state had before. A disabled start stores the configuration
    and the rules and touches neither the client nor the subscriptions:
    what an earlier start installed stays installed. In both cases an
    explicit rule array, even an empty one, is taken as it is, and a missing
    one gives the default rules. *)
Theorem start_installs_plan (st : PluginState) (options : option PartialConfig.t)
    (outcome : ConnectOutcome) :
  let config := startConfig options in
  let rules := default getDefaultExportRules (optionalField options PartialConfig.exportRules) in
  let st' := start st options outcome in
  exportRules st' = rules
  /\ currentConfig st' = Some config
  /\ MQTTExportConfig.exportRules config = rules
  /\ (MQTTExportConfig.enabled config = true ->
      activeSubscriptions st' = groupByContext rules
      /\ unsubscribes st' = List.map installedFor (groupByContext rules)
      /\ mqttClient st' = match outcome with
                          | ClientCreated client => Some client
                          | ConnectThrew => mqttClient st
                          end)
  /\ (MQTTExportConfig.enabled config = false ->
      activeSubscriptions st' = activeSubscriptions st
      /\ unsubscribes st' = unsubscribes st
      /\ mqttClient st' = mqttClient st)
  /\ (MQTTExportConfig.enabled config = false
      <-> optionalField options PartialConfig.enabled = Some false).
Proof.
  intros config rules st'. subst config rules st'.
  assert (MQTTExportConfig.exportRules (startConfig options)
          = default getDefaultExportRules
                    (optionalField options PartialConfig.exportRules)) as Hrules.
  { simpl. now destruct (optionalField options PartialConfig.exportRules). }
  assert (MQTTExportConfig.enabled (startConfig options) = false
          <-> optionalField options PartialConfig.enabled = Some false) as Hflag.
  { simpl. destruct (optionalField options PartialConfig.enabled) as [[|]|];
      split; congruence. }
  unfold start.
  destruct (MQTTExportConfig.enabled (startConfig options)) eqn:Henabled; simpl negb; cbv iota.
  - rewrite updateSubscriptions_plan.
    split; [destruct outcome; exact Hrules|].
    split; [now destruct outcome|].
    split; [exact Hrules|].
    split; [|split; [discriminate | exact Hflag]].
    intros _. destruct outcome; simpl; rewrite <- Hrules; auto.
  - split; [exact Hrules|].
    split; [reflexivity|].
    split; [exact Hrules|].
    split; [discriminate|].
    split; [auto | exact Hflag].
Qed.

Lemma start_installs_plan_witness :
  activeSubscriptions (start initialState None ConnectThrew)
  = groupByContext getDefaultExportRules
  /\ unsubscribes (start initialState None ConnectThrew)
     = List.map installedFor (groupByContext getDefaultExportRules)
  /\ mqttClient (start initialState None ConnectThrew) = None.
Proof.
  apply (proj1 (proj2 (proj2 (proj2 (start_installs_plan initialState None ConnectThrew))))).
  reflexivity.
Defined.

Lemma orDefault_empty (a : option string) (s : string) :
  Js.orDefault a "" = s -> s <> "" -> a = Some s.
Proof.
  unfold Js.orDefault. destruct a as [x|]; [|congruence].
  destruct (Js.truthy x); congruence.
Qed.

Lemma mqttOptions_credentials (config : MQTTExportConfig.t) :
  (MQTTClientOptions.username (mqttOptions config) = None
   <-> MQTTClientOptions.password (mqttOptions config) = None)
  /\ (MQTTExportConfig.mqttPassword config = "" ->
      MQTTClientOptions.username (mqttOptions config) = None)
  /\ forall user,
      MQTTClientOptions.username (mqttOptions config) = Some user ->
      user = MQTTExportConfig.mqttUsername config
      /\ user <> ""
      /\ MQTTClientOptions.password (mqttOptions config)
         = Some (MQTTExportConfig.mqttPassword config)
      /\ MQTTExportConfig.mqttPassword config <> "".
Proof.
  unfold mqttOptions. simpl.
  destruct (Js.truthy (MQTTExportConfig.mqttUsername config)) eqn:Hu;
    destruct (Js.truthy (MQTTExportConfig.mqttPassword config)) eqn:Hp; simpl.
  - apply truthy_true_iff in Hu, Hp.
    split; [split; discriminate|]. split; [congruence|].
    intros user [= <-]. auto.
  - split; [tauto|]. split; [reflexivity | discriminate].
  - split; [tauto|]. split; [reflexivity | discriminate].
  - split; [tauto|]. split; [reflexivity | discriminate].
Qed.

(** X16. The [connect] call of a start never gets an empty broker address
    or client identifier, always asks for a clean session, and carries
    credentials only as a pair: a user name and a password, both not empty,
    or neither; a user name without a password is not sent. *)
Theorem connect_call_arguments (options : option PartialConfig.t) :
  let broker := fst (connectCall (startConfig options)) in
  let opts := snd (connectCall (startConfig options)) in
  broker <> ""
  /\ (broker = "mqtt://localhost:1883"
      \/ optionalField options PartialConfig.mqttBroker = Some broker)
  /\ MQTTClientOptions.clientId opts <> ""
  /\ MQTTClientOptions.clean opts = true
  /\ (MQTTClientOptions.username opts = None <-> MQTTClientOptions.password opts = None)
  /\ (forall user,
        MQTTClientOptions.username opts = Some user ->
        user <> ""
        /\ optionalField options PartialConfig.mqttUsername = Some user
        /\ exists password,
            MQTTClientOptions.password opts = Some password
            /\ password <> ""
            /\ optionalField options PartialConfig.mqttPassword = Some password)
  /\ (optionalField options PartialConfig.mqttPassword = None ->
      MQTTClientOptions.username opts = None).
Proof.
  intros broker opts. subst broker opts.
  destruct (startConfig_endpoints options) as [Hbroker Hid].
  destruct (mqttOptions_credentials (startConfig options)) as [Hpair [Hnone Hsome]].
  split; [exact Hbroker|]. split.
  { simpl. destruct (optionalField options PartialConfig.mqttBroker) as [s|]; simpl; [|now left].
    destruct (Js.truthy s); [now right | now left]. }
  split; [exact Hid|]. split; [reflexivity|].
  split; [exact Hpair|]. split.
  - intros user Huser. destruct (Hsome user Huser) as [Hu [Hne [Hpassword Hp]]].
    split; [exact Hne|]. split.
    + apply orDefault_empty; [now rewrite Hu | exact Hne].
    + exists (MQTTExportConfig.mqttPassword (startConfig options)).
      split; [exact Hpassword|]. split; [exact Hp|].
      now apply orDefault_empty.
  - intros Hmissing. apply Hnone. simpl. now rewrite Hmissing.
Qed.


(** ** The routes *)

(** X17. The two status routes report the same connection flag. While it
    is [false], the test route answers 503 and publishes nothing, and no
    delta publishes anything or changes the state; while it is [true], a
    test whose publish call does not throw answers 200 and publishes one
    message, not retained and with quality of service 0, on the topic that
    the answer names, and that topic is never the bare suffix: an empty or
    missing prefix is replaced by [test]. *)
Theorem status_routes_agree (st : PluginState) :
  RulesApiResponse.mqttConnected (getRules st)
  = MQTTStatusApiResponse.connected (getMqttStatus st)
  /\ (MQTTStatusApiResponse.connected (getMqttStatus st) = false ->
      (forall now publishThrew,
          TestResponse.status (fst (postTestMqtt st now publishThrew)) = 503%Z
          /\ snd (postTestMqtt st now publishThrew) = None)
      /\ forall delta contextRules, handleSignalKData st delta contextRules = (st, []))
  /\ (MQTTStatusApiResponse.connected (getMqttStatus st) = true ->
      forall now,
      exists message prefix,
        snd (postTestMqtt st now None) = Some message
        /\ TestResponse.status (fst (postTestMqtt st now None)) = 200%Z
        /\ TestResponse.topic (fst (postTestMqtt st now None)) = Some (topic message)
        /\ topic message = prefix ++ "/signalk-mqtt-export-test"
        /\ prefix <> ""
        /\ pub_qos message = 0%Z
        /\ pub_retain message = false).
Proof.
  split; [reflexivity|]. simpl. split.
  - intros Hidle. split.
    + intros now publishThrew. unfold postTestMqtt. rewrite Hidle. simpl. now split.
    + intros delta contextRules. now apply handleSignalKData_idle.
  - intros Hconnected now. unfold postTestMqtt. rewrite Hconnected. simpl.
    eexists. eexists. split; [reflexivity|]. simpl.
    split; [reflexivity|]. split; [reflexivity|].
    split; [unfold testTopic; reflexivity|].
    split; [|split; reflexivity].
    now apply orDefault_not_empty.
Qed.

(** X18. After a rule update that was saved, the rule route returns the
    posted rules and, as the number of active subscriptions, the number of
    distinct contexts among the enabled ones of them (an empty context
    counting as [vessels.self]); that number never exceeds the number of
    enabled rules, and is zero exactly when no rule is enabled. *)
Theorem rules_route_after_update (st : PluginState) (rules : list ExportRule.t) :
  let answer := getRules (fst (postRules st (Some rules) Saved)) in
  let enabledRules := List.filter ExportRule.enabled rules in
  RulesApiResponse.rules answer = rules
  /\ RulesApiResponse.activeSubscriptions answer
     = List.length (distinctFrom [] (List.map ruleContext enabledRules))
  /\ (RulesApiResponse.activeSubscriptions answer <= List.length enabledRules)%nat
  /\ (RulesApiResponse.activeSubscriptions answer = 0%nat <-> enabledRules = [])
  /\ RulesApiResponse.mqttConnected answer = clientConnected st.
Proof.
  intros answer enabledRules. subst answer enabledRules. simpl.
  rewrite updateSubscriptions_plan. simpl. unfold JsMap.size.
  pose proof (groupByContext_members rules) as Hmembers.
  assert (forall context group,
             In (context, group) (groupByContext rules) -> group <> []) as Hne
    by (intros context group Hin; now apply group_not_empty in Hin).
  split; [reflexivity|]. split; [|split; [|split]].
  - rewrite groupByContext_closed_form at 1. now rewrite length_map.
  - rewrite <- (Permutation_length Hmembers). clear Hmembers.
    induction (groupByContext rules) as [|[c g] groups IH]; [simpl; lia|].
    simpl. rewrite length_app.
    assert (g <> []) as Hg by (apply (Hne c); now left).
    assert (List.length groups <= List.length (List.concat (List.map snd groups)))%nat
      by (apply IH; intros c' g' Hin; apply (Hne c'); now right).
    destruct g; [contradiction | simpl; lia].
  - split.
    + intros Hzero. destruct (groupByContext rules); [|discriminate].
      simpl in Hmembers. now apply Permutation_nil in Hmembers.
    + intros Hnone. unfold groupByContext. now rewrite Hnone.
  - unfold clientConnected. reflexivity.
Qed.

(** ** Payloads, paths and keys *)

Lemma fold_payloads (delta : SignalKDelta.t) (contextRules : list ExportRule.t)
    (text : string) (pairs : list (SignalKUpdate.t * SignalKValue.t)) :
  (forall rule value, In rule contextRules -> buildPayload rule delta value = text) ->
  forall acc,
    Forall (fun message => payload message = text) (snd acc) ->
    Forall (fun message => payload message = text)
           (snd (fold_left (fun acc uv => handleValue delta contextRules (fst uv) acc (snd uv))
                           pairs acc)).
Proof.
  intros Hrules. induction pairs as [|uv pairs IH]; intros acc Hacc; simpl; [exact Hacc|].
  apply IH. unfold handleValue.
  destruct (findRule delta (fst uv) (snd uv) contextRules) as [rule|] eqn:Hfind; [|exact Hacc].
  pose proof (publishToMQTT_message (fst acc) delta (fst uv) (snd uv) rule) as Hmessage.
  destruct (publishToMQTT (fst acc) delta (fst uv) (snd uv) rule) as [st' [m|]]; simpl in *.
  - rewrite Forall_app. split; [exact Hacc|]. constructor; [|constructor].
    rewrite (Hmessage m eq_refl). unfold messageFor. simpl.
    apply Hrules.
    pose proof (findRule_result delta (fst uv) (snd uv) contextRules) as Hresult.
    rewrite Hfind in Hresult. destruct Hresult as [before [after [-> _]]].
    apply in_or_app. right. now left.
  - now rewrite app_nil_r.
Qed.

(** X19. Under rules in the full format, every message that a delta gives
    carries the same payload, the text of the whole delta with all its
    updates and values, whichever value the message was published for: a
    delta with several matched values is sent whole once per value. *)
Theorem full_format_sends_whole_delta (st : PluginState) (delta : SignalKDelta.t)
    (contextRules : list ExportRule.t) :
  Forall (fun rule => ExportRule.payloadFormat rule = full) contextRules ->
  List.map payload (snd (handleSignalKData st delta contextRules))
  = List.repeat (Json.textOf (Json.stringify (deltaToJs delta)))
                (List.length (snd (handleSignalKData st delta contextRules))).
Proof.
  intros Hfull.
  assert (Forall (fun message =>
                    payload message = Json.textOf (Json.stringify (deltaToJs delta)))
                 (snd (handleSignalKData st delta contextRules))) as Hall.
  { destruct (clientConnected st) eqn:Hconnected.
    - rewrite handleSignalKData_fold by assumption.
      apply fold_payloads; [|constructor].
      intros rule value Hin. unfold buildPayload.
      rewrite Forall_forall in Hfull. apply list_elem_of_In in Hin.
      now rewrite (Hfull rule Hin).
    - rewrite handleSignalKData_idle by assumption. constructor. }
  induction Hall as [|message messages Hmessage _ IH]; [reflexivity|].
  simpl. now rewrite Hmessage, IH.
Qed.

Lemma full_format_sends_whole_delta_witness :
  List.map payload (snd (handleSignalKData connectedState positionDelta getDefaultExportRules))
  = List.repeat (Json.textOf (Json.stringify (deltaToJs positionDelta)))
                (List.length (snd (handleSignalKData connectedState positionDelta
                                                     getDefaultExportRules))).
Proof.
  apply full_format_sends_whole_delta.
  repeat constructor.
Defined.

Lemma star_alone (pre : string) : pre ++ "*" = "*" -> pre = "".
Proof.
  destruct pre as [|c pre]; [reflexivity|]. simpl. intros [= -> H].
  destruct pre; discriminate.
Qed.

Lemma append_star_inj (a b : string) : a ++ "*" = b ++ "*" -> a = b.
Proof.
  intros H. apply (f_equal Js.sliceDropLast) in H.
  now rewrite !sliceDropLast_snoc in H.
Qed.

(** X20. A star counts only at the end of a rule path: a rule path that
    does not end in a star matches its own text and nothing else, stars
    inside it included. Among the rule paths that end in a star, a shorter
    prefix matches every path that a longer one matches. *)
Theorem wildcard_only_at_end :
  (forall rulePath updatePath,
      Js.endsWith rulePath "*" = false ->
      (pathMatch rulePath updatePath = true <-> rulePath = updatePath))
  /\ (forall pre more updatePath,
        pathMatch ((pre ++ more) ++ "*") updatePath = true ->
        pathMatch (pre ++ "*") updatePath = true).
Proof.
  split.
  - intros rulePath updatePath Hends. rewrite pathMatch_true_iff. split.
    + intros [H | [-> | [pre [-> _]]]]; [exact H | discriminate |].
      assert (Js.endsWith (pre ++ "*") "*" = true) as Htrue
        by (apply endsWith_spec; now exists pre).
      congruence.
    + intros ->. now left.
  - intros pre more updatePath H. apply pathMatch_true_iff in H.
    apply pathMatch_true_iff. right.
    destruct H as [<- | [H | [pre' [Hpre [rest ->]]]]].
    + right. exists pre. split; [reflexivity|]. exists (more ++ "*").
      now rewrite append_assoc.
    + apply star_alone in H. destruct pre; [now left | discriminate].
    + apply append_star_inj in Hpre. subst pre'.
      right. exists pre. split; [reflexivity|]. exists (more ++ rest).
      now rewrite append_assoc.
Qed.

Lemma valueKey_inj (context1 path1 context2 path2 : string) :
  Js.includes path1 ":" = false -> Js.includes path2 ":" = false ->
  valueKey context1 path1 = valueKey context2 path2 ->
  context1 = context2 /\ path1 = path2.
Proof.
  intros H1 H2. unfold valueKey. revert context2.
  induction context1 as [|c context1 IH]; intros [|d context2]; simpl.
  - intros [= ->]. now split.
  - intros [= <- Hp]. exfalso.
    assert (Js.includes path1 ":" = true) as Htrue
      by (apply includes_spec; now exists context2, path2).
    congruence.
  - intros [= -> Hp]. exfalso.
    assert (Js.includes path2 ":" = true) as Htrue
      by (apply includes_spec; now exists context1, path1).
    congruence.
  - intros [= -> Hrest]. destruct (IH _ Hrest) as [-> ->]. now split.
Qed.

Lemma checkValueChange_result (st : PluginState) (context path : string) (value : JsValue) :
  fst (checkValueChange st context path value)
  = let lastValue := lastSentGet (lastSentValues st) (valueKey context path) in
    {| hasChanged :=
         if Json.isDefined lastValue
         then negb (String.eqb (Json.valueString value) (Json.valueString lastValue))
         else true;
       currentValue := value;
       previousValue := lastValue |}.
Proof.
  unfold checkValueChange. simpl.
  destruct (Json.isDefined _); [|reflexivity].
  destruct (String.eqb _ _); reflexivity.
Qed.

(** X21. The change filter keeps the values of different keys apart: for
    paths without a colon, a check of one context and path leaves what is
    stored for every other context or path as it was, and the answer for
    that other key is the one it would have been without the check. *)
Theorem baselines_do_not_collide (st : PluginState) (context1 path1 context2 path2 : string)
    (value1 value2 : JsValue) :
  Js.includes path1 ":" = false -> Js.includes path2 ":" = false ->
  (context1, path1) <> (context2, path2) ->
  let st1 := snd (checkValueChange st context1 path1 value1) in
  storedText st1 context2 path2 = storedText st context2 path2
  /\ fst (checkValueChange st1 context2 path2 value2)
     = fst (checkValueChange st context2 path2 value2).
Proof.
  intros H1 H2 Hne st1. subst st1.
  assert (lastSentGet (lastSentValues (snd (checkValueChange st context1 path1 value1)))
                      (valueKey context2 path2)
          = lastSentGet (lastSentValues st) (valueKey context2 path2)) as Hsame.
  { unfold lastSentGet.
    destruct (checkValueChange_lookup st context1 path1 value1 (valueKey context2 path2))
      as [-> | [Hkey _]]; [reflexivity|].
    exfalso. apply Hne. symmetry in Hkey.
    destruct (valueKey_inj _ _ _ _ H1 H2 Hkey) as [-> ->]. reflexivity. }
  split.
  - unfold storedText. now rewrite Hsame.
  - rewrite !checkValueChange_result. simpl. now rewrite Hsame.
Qed.

Lemma baselines_do_not_collide_witness :
  storedText storedState "vessels.self" "navigation.speedOverGround"
  = storedText connectedState "vessels.self" "navigation.speedOverGround"
  /\ fst (checkValueChange storedState "vessels.self" "navigation.speedOverGround"
                           fortyThree)
     = fst (checkValueChange connectedState "vessels.self" "navigation.speedOverGround"
                             fortyThree).
Proof.
  apply (baselines_do_not_collide connectedState "vessels.self" "navigation.position"
                                  "vessels.self" "navigation.speedOverGround"
                                  fortyTwoAndHalf fortyThree).
  - reflexivity.
  - reflexivity.
  - discriminate.
Defined.

(** X22. A delta that comes again is not published again: for a connected
    client and a delta with one value, not [undefined], whose rule has the
    change filter on, handling the delta a second time right after the
    first publishes nothing and leaves the state as the first left it. *)
Theorem repeated_delta_suppressed (st : PluginState) (delta : SignalKDelta.t)
    (contextRules : list ExportRule.t) (update : SignalKUpdate.t)
    (valueUpdate : SignalKValue.t) (rule : ExportRule.t) :
  clientConnected st = true ->
  deltaValues delta = [(update, valueUpdate)] ->
  findRule delta update valueUpdate contextRules = Some rule ->
  sendOnChangeSet rule = true ->
  SignalKValue.value valueUpdate <> JUndefined ->
  let st1 := fst (handleSignalKData st delta contextRules) in
  handleSignalKData st1 delta contextRules = (st1, []).
Proof.
  intros Hconnected Hvalues Hfind Hfilter Hdefined st1.
  assert (st1 = snd (checkValueChange st (deltaContext delta) (SignalKValue.path valueUpdate)
                                      (SignalKValue.value valueUpdate))) as Hst1.
  { subst st1. rewrite handleSignalKData_fold by assumption. rewrite Hvalues. simpl.
    rewrite (handleValue_selected _ _ _ _ rule) by assumption. simpl.
    rewrite publishToMQTT_filtered by assumption. simpl.
    unfold deltaContext. now destruct (hasChanged _). }
  assert (clientConnected st1 = true) as Hconnected1.
  { subst st1. rewrite handleSignalKData_frame. exact Hconnected. }
  rewrite handleSignalKData_fold by assumption. rewrite Hvalues. simpl.
  rewrite (handleValue_selected _ _ _ _ rule) by assumption. simpl.
  rewrite publishToMQTT_filtered by assumption. simpl.
  fold (deltaContext delta).
  destruct (checkValueChange_baseline st (deltaContext delta) (SignalKValue.path valueUpdate)
                                      (SignalKValue.value valueUpdate) Hdefined)
    as [Hstored Hsame].
  rewrite <- Hst1 in Hstored, Hsame.
  rewrite (checkValueChange_same st1 _ _ _ Hstored Hsame). reflexivity.
Qed.

Lemma repeated_delta_suppressed_witness :
  handleSignalKData (fst (handleSignalKData connectedState positionDelta getDefaultExportRules))
                    positionDelta getDefaultExportRules
  = (fst (handleSignalKData connectedState positionDelta getDefaultExportRules), []).
Proof.
  apply (repeated_delta_suppressed connectedState positionDelta getDefaultExportRules
           (SignalKUpdate.mk (Some (SignalKSource.mk "pypilot" None None None))
                             "2024-01-01T00:00:00.000Z"
                             (Some [positionValue]) None)
           positionValue
           (defaultRule "all-navigation" "All Navigation Data" "vessels.self"
                        "navigation*" "" None)).
  - reflexivity.
  - reflexivity.
  - reflexivity.
  - reflexivity.
  - discriminate.
Defined.
